(** * WrapVTK: the property synthesizer of [vtkParseProperties.c]

    A shallow embedding of the analysis that recovers the properties of a
    class from the signatures of its methods, and the verification of its
    specification against it.  The development follows the source file
    from top to bottom: name predicates, [methodCategory],
    [getMethodAttributes], [methodMatchesProperty], the property builder
    ([initializePropertyInfo], [findAllMatches], [addProperty],
    [categorizeProperties]), the repeat resolver
    ([searchForRepeatedMethods]), [vtkParseProperties_Create] and
    [vtkParseProperties_MethodTypeAsString]. *)

From Stdlib Require Import ZArith String Ascii List Bool Lia.
From Stdlib Require Import Permutation Sorted.
From stdpp Require Import base option list strings.

Local Open Scope string_scope.
Local Open Scope Z_scope.

(** ** C strings

    A [const char *] is an [option string]: [None] is the null pointer.
    [s @@ i] reads [s[i]]; at the end of the string it reads the
    terminating NUL.  The source guards every read by a short-circuit
    conjunction or by [strlen], so it never reads past the terminator. *)

Definition chr (s : string) (i : nat) : ascii :=
  match String.get i s with
  | Some c => c
  | None => Ascii.zero
  end.

Notation "s @@ i" := (chr s i) (at level 9, i at level 9, format "s @@ i").
Notation "c =c d" := (Ascii.eqb c d) (at level 30, no associativity).

(** [&s[k]]: the string that starts at offset [k] of [s]. *)
Fixpoint str_from (k : nat) (s : string) : string :=
  match k, s with
  | O, _ => s
  | S k', String _ s' => str_from k' s'
  | S _, EmptyString => EmptyString
  end.

Definition strlen (s : string) : nat := String.length s.

Definition isNull (p : option string) : bool :=
  match p with
  | None => true
  | Some _ => false
  end.

(** [strcmp(a, b) == 0] *)
Definition strcmp_eq (a b : string) : bool := String.eqb a b.

(** [strncmp(a, b, n) == 0]: the first [n] characters agree, a string
    that ends earlier being compared up to and including its NUL. *)
Definition strncmp_eq (a b : string) (n : nat) : bool :=
  String.eqb (substring 0 n a) (substring 0 n b).

(** [isupper] and [isdigit] of the C locale. *)
Definition isupper (c : ascii) : bool :=
  let n := nat_of_ascii c in (65 <=? n)%nat && (n <=? 90)%nat.

Definition isdigit (c : ascii) : bool :=
  let n := nat_of_ascii c in (48 <=? n)%nat && (n <=? 57)%nat.

(** ** C integers

    [MethodAttributes] keeps a count in an [int], and the extractor
    assigns to it from the parser's [unsigned long] fields and from a
    [size_t] (lines 557, 575, 588, 600, 631).  [toInt v] is the value of
    the [int] after the assignment: the conversion keeps the low 32 bits
    of [v] and reads them in two's complement, so a value from [2^31] on
    wraps around.  (The type codes that the extractor stores in the
    [int] beside it fit in 24 bits, and are stored unchanged.) *)
Definition toInt (v : Z) : Z :=
  (v + 0x80000000) mod 0x100000000 - 0x80000000.

(** ** Type codes *)

(** Modelled from the spec: [vtkParseType.h] and [vtkParseUtils.h] are not
    among the sources.  The spec (section 6) names the masks
    [UNQUALIFIED_TYPE] and [INDIRECT], the indirection codes, the base-type
    codes and the helpers [base_type], [indirection], [is_const],
    [is_indirect], [is_pointer], [has_qualifier].  A type code is an
    unsigned integer with the base type in the low byte, the indirection
    in the second byte and the qualifiers ([const], [static]) in the
    third; the helpers are the corresponding mask tests. *)
Module ParseType.

Definition VTK_PARSE_BASE_TYPE : Z := 0x000000FF.
Definition VTK_PARSE_INDIRECT : Z := 0x0000FF00.
Definition VTK_PARSE_QUALIFIER : Z := 0x00FF0000.
Definition VTK_PARSE_UNQUALIFIED_TYPE : Z := 0x0000FFFF.

Definition VTK_PARSE_CONST : Z := 0x00010000.
Definition VTK_PARSE_STATIC : Z := 0x00020000.

Definition VTK_PARSE_REF : Z := 0x00000100.
Definition VTK_PARSE_POINTER : Z := 0x00000200.
Definition VTK_PARSE_POINTER_REF : Z := 0x00000300.
Definition VTK_PARSE_CONST_POINTER : Z := 0x00000400.
Definition VTK_PARSE_CONST_POINTER_REF : Z := 0x00000500.
Definition VTK_PARSE_POINTER_POINTER : Z := 0x00000A00.

Definition VTK_PARSE_FLOAT : Z := 0x01.
Definition VTK_PARSE_VOID : Z := 0x02.
Definition VTK_PARSE_CHAR : Z := 0x03.
Definition VTK_PARSE_INT : Z := 0x04.
Definition VTK_PARSE_DOUBLE : Z := 0x07.
Definition VTK_PARSE_VTK_OBJECT : Z := 0x09.
Definition VTK_PARSE_ID_TYPE : Z := 0x0A.
Definition VTK_PARSE_BOOL : Z := 0x0E.
Definition VTK_PARSE_UNSIGNED_CHAR : Z := 0x13.
Definition VTK_PARSE_UNSIGNED_INT : Z := 0x14.
Definition VTK_PARSE_FUNCTION : Z := 0x25.

Definition vtkParse_BaseType (t : Z) : Z := Z.land t VTK_PARSE_BASE_TYPE.

Definition vtkParse_TypeIndirection (t : Z) : Z :=
    Z.land t VTK_PARSE_INDIRECT.

Definition vtkParse_TypeIsIndirect (t : Z) : bool :=
    negb (Z.land t VTK_PARSE_INDIRECT =? 0).

Definition vtkParse_TypeIsConst (t : Z) : bool :=
    negb (Z.land t VTK_PARSE_CONST =? 0).

Definition vtkParse_TypeIsPointer (t : Z) : bool :=
    Z.land t VTK_PARSE_INDIRECT =? VTK_PARSE_POINTER.

Definition vtkParse_TypeHasQualifier (t : Z) : bool :=
    negb (Z.land t VTK_PARSE_QUALIFIER =? 0).

End ParseType.
Export ParseType.

(** ** Method categories *)

(** Modelled from the spec: [vtkParseProperties.h] is not among the
    sources.  The spec (sections 4.4 and 6) gives the category vocabulary
    and says that each category is a single bit; the categories are
    given distinct bits here, in the order of the spec's list of tags. *)
Module MethodBits.

Definition VTK_METHOD_BASIC_GET : Z := 0x00000001.
Definition VTK_METHOD_BASIC_SET : Z := 0x00000002.
Definition VTK_METHOD_MULTI_GET : Z := 0x00000004.
Definition VTK_METHOD_MULTI_SET : Z := 0x00000008.
Definition VTK_METHOD_INDEX_GET : Z := 0x00000010.
Definition VTK_METHOD_INDEX_SET : Z := 0x00000020.
Definition VTK_METHOD_NTH_GET : Z := 0x00000040.
Definition VTK_METHOD_NTH_SET : Z := 0x00000080.
Definition VTK_METHOD_RHS_GET : Z := 0x00000100.
Definition VTK_METHOD_INDEX_RHS_GET : Z := 0x00000200.
Definition VTK_METHOD_NTH_RHS_GET : Z := 0x00000400.
Definition VTK_METHOD_STRING_GET : Z := 0x00001000.
Definition VTK_METHOD_ENUM_SET : Z := 0x00002000.
Definition VTK_METHOD_BOOL_ON : Z := 0x00004000.
Definition VTK_METHOD_BOOL_OFF : Z := 0x00008000.
Definition VTK_METHOD_MIN_GET : Z := 0x00010000.
Definition VTK_METHOD_MAX_GET : Z := 0x00020000.
Definition VTK_METHOD_GET_NUM : Z := 0x00040000.
Definition VTK_METHOD_SET_NUM : Z := 0x00080000.
Definition VTK_METHOD_BASIC_ADD : Z := 0x00100000.
Definition VTK_METHOD_MULTI_ADD : Z := 0x00200000.
Definition VTK_METHOD_INDEX_ADD : Z := 0x00400000.
Definition VTK_METHOD_BASIC_REM : Z := 0x01000000.
Definition VTK_METHOD_INDEX_REM : Z := 0x04000000.
Definition VTK_METHOD_REMOVEALL : Z := 0x10000000.

End MethodBits.
Export MethodBits.

(** ** The parser's record of a function ([vtkParseData.h])

    Only the fields that [vtkParseProperties.c] reads.  The flags are C
    [int]s that the parser sets to 0 or 1; they are booleans here.  The
    three legacy arrays [ArgTypes], [ArgClasses], [ArgCounts] are lists
    read by index, an index past the end reading 0 (or null).  The
    counts [ArgCounts] and [HintSize] are [unsigned long]s: the extractor
    converts them when it stores them in an [int] (see [toInt]). *)
Module FunctionInfo.
Record t : Type := mk {
    Name : option string;
    Comment : option string;
    NumberOfArguments : nat;
    IsOperator : bool;
    IsLegacy : bool;
    ArgTypes : list Z;
    ArgClasses : list (option string);
    ArgCounts : list Z;
    ReturnType : Z;
    ReturnClass : option string;
    HaveHint : bool;
    HintSize : Z;
    ArrayFailure : bool;
    IsPublic : bool;
    IsProtected : bool
  }.
End FunctionInfo.
Abbreviation FunctionInfo := FunctionInfo.t.

(** [ClassInfo]: the synthesizer reads [Functions] only. *)
Abbreviation ClassInfo := (list FunctionInfo).

(** ** [MethodAttributes] *)
Module MethodAttributes.
Record t : Type := mk {
    Name : option string;
    HasProperty : bool;
    Type_ : Z;
    Count : Z;
    ClassName : option string;
    Comment : option string;
    IsPublic : bool;
    IsProtected : bool;
    IsLegacy : bool;
    IsStatic : bool;
    IsRepeat : bool;
    IsHinted : bool;
    IsMultiValue : bool;
    IsIndexed : bool;
    IsEnumerated : bool;
    IsBoolean : bool
  }.

Definition withRepeat (a : t) : t :=
    mk (Name a) (HasProperty a) (Type_ a) (Count a) (ClassName a)
       (Comment a) (IsPublic a) (IsProtected a) (IsLegacy a) (IsStatic a)
       true (IsHinted a) (IsMultiValue a) (IsIndexed a)
       (IsEnumerated a) (IsBoolean a).

Definition withIndexed (b : bool) (a : t) : t :=
    mk (Name a) (HasProperty a) (Type_ a) (Count a) (ClassName a)
       (Comment a) (IsPublic a) (IsProtected a) (IsLegacy a) (IsStatic a)
       (IsRepeat a) (IsHinted a) (IsMultiValue a) b
       (IsEnumerated a) (IsBoolean a).

Definition withType (ty : Z) (a : t) : t :=
    mk (Name a) (HasProperty a) ty (Count a) (ClassName a)
       (Comment a) (IsPublic a) (IsProtected a) (IsLegacy a) (IsStatic a)
       (IsRepeat a) (IsHinted a) (IsMultiValue a) (IsIndexed a)
       (IsEnumerated a) (IsBoolean a).

  (** [HasProperty = 1] together with the value's type, count and class *)
Definition withValue (ty cnt : Z) (cls : option string) (a : t) : t :=
    mk (Name a) true ty cnt cls
       (Comment a) (IsPublic a) (IsProtected a) (IsLegacy a) (IsStatic a)
       (IsRepeat a) (IsHinted a) (IsMultiValue a) (IsIndexed a)
       (IsEnumerated a) (IsBoolean a).

Definition withHinted (b : bool) (a : t) : t :=
    mk (Name a) (HasProperty a) (Type_ a) (Count a) (ClassName a)
       (Comment a) (IsPublic a) (IsProtected a) (IsLegacy a) (IsStatic a)
       (IsRepeat a) b (IsMultiValue a) (IsIndexed a)
       (IsEnumerated a) (IsBoolean a).

Definition withMultiValue (a : t) : t :=
    mk (Name a) (HasProperty a) (Type_ a) (Count a) (ClassName a)
       (Comment a) (IsPublic a) (IsProtected a) (IsLegacy a) (IsStatic a)
       (IsRepeat a) (IsHinted a) true (IsIndexed a)
       (IsEnumerated a) (IsBoolean a).

Definition withHasProperty (a : t) : t :=
    mk (Name a) true (Type_ a) (Count a) (ClassName a)
       (Comment a) (IsPublic a) (IsProtected a) (IsLegacy a) (IsStatic a)
       (IsRepeat a) (IsHinted a) (IsMultiValue a) (IsIndexed a)
       (IsEnumerated a) (IsBoolean a).

Definition withBoolean (a : t) : t :=
    mk (Name a) (HasProperty a) (Type_ a) (Count a) (ClassName a)
       (Comment a) (IsPublic a) (IsProtected a) (IsLegacy a) (IsStatic a)
       (IsRepeat a) (IsHinted a) (IsMultiValue a) (IsIndexed a)
       (IsEnumerated a) true.

Definition withEnumerated (a : t) : t :=
    mk (Name a) (HasProperty a) (Type_ a) (Count a) (ClassName a)
       (Comment a) (IsPublic a) (IsProtected a) (IsLegacy a) (IsStatic a)
       (IsRepeat a) (IsHinted a) (IsMultiValue a) (IsIndexed a)
       true (IsBoolean a).
End MethodAttributes.
Abbreviation MethodAttributes := MethodAttributes.t.

Module FI := FunctionInfo.
Module MA := MethodAttributes.

(** ** Name predicates *)

Definition isSetMethod (name : option string) : bool :=
  match name with
  | None => false
  | Some s =>
      s@@0 =c "S" && s@@1 =c "e" && s@@2 =c "t" && isupper s@@3
  end.

Definition isSetNthMethod (name : option string) : bool :=
  match name with
  | Some s =>
      if isSetMethod name
      then s@@3 =c "N" && s@@4 =c "t" && s@@5 =c "h" && isupper s@@6
      else false
  | None => false
  end.

Definition isSetNumberOfMethod (name : option string) : bool :=
  match name with
  | Some s =>
      if isSetMethod name
      then
        let n := strlen s in
        s@@3 =c "N" && s@@4 =c "u" && s@@5 =c "m" &&
        s@@6 =c "b" && s@@7 =c "e" && s@@8 =c "r" &&
        s@@9 =c "O" && s@@10 =c "f" && isupper s@@11 &&
        s@@(n-1) =c "s"
      else false
  | None => false
  end.

Definition isGetMethod (name : option string) : bool :=
  match name with
  | None => false
  | Some s =>
      s@@0 =c "G" && s@@1 =c "e" && s@@2 =c "t" && isupper s@@3
  end.

Definition isGetNthMethod (name : option string) : bool :=
  match name with
  | Some s =>
      if isGetMethod name
      then s@@3 =c "N" && s@@4 =c "t" && s@@5 =c "h" && isupper s@@6
      else false
  | None => false
  end.

Definition isGetNumberOfMethod (name : option string) : bool :=
  match name with
  | Some s =>
      if isGetMethod name
      then
        let n := strlen s in
        s@@3 =c "N" && s@@4 =c "u" && s@@5 =c "m" &&
        s@@6 =c "b" && s@@7 =c "e" && s@@8 =c "r" &&
        s@@9 =c "O" && s@@10 =c "f" && isupper s@@11 &&
        s@@(n-1) =c "s"
      else false
  | None => false
  end.

Definition isAddMethod (name : option string) : bool :=
  match name with
  | None => false
  | Some s =>
      s@@0 =c "A" && s@@1 =c "d" && s@@2 =c "d" && isupper s@@3
  end.

Definition isRemoveMethod (name : option string) : bool :=
  match name with
  | None => false
  | Some s =>
      s@@0 =c "R" && s@@1 =c "e" && s@@2 =c "m" &&
      s@@3 =c "o" && s@@4 =c "v" && s@@5 =c "e" &&
      isupper s@@6
  end.

Definition isRemoveAllMethod (name : option string) : bool :=
  match name with
  | Some s =>
      if isRemoveMethod name
      then
        let n := strlen s in
        s@@6 =c "A" && s@@7 =c "l" && s@@8 =c "l" &&
        isupper s@@9 && s@@(n-1) =c "s"
      else false
  | None => false
  end.

Definition isBooleanMethod (name : option string) : bool :=
  match name with
  | Some s =>
      let n := strlen s in
      ((2 <? n)%nat && s@@(n-2) =c "O" && s@@(n-1) =c "n") ||
      ((3 <? n)%nat && s@@(n-3) =c "O" && s@@(n-2) =c "f" && s@@(n-1) =c "f")
  | None => false
  end.

(** The loop of [isEnumeratedMethod]: is there an [i] in [[3, n)] with
    ["To"] at [i] followed by an upper-case letter or a digit? *)
Definition isEnumeratedMethod (name : option string) : bool :=
  match name with
  | Some s =>
      if isSetMethod name
      then
        let n := (strlen s - 3)%nat in
        existsb
          (fun i : nat =>
             s@@i =c "T" && s@@(i+1) =c "o" &&
             (isupper s@@(i+2) || isdigit s@@(i+2)))
          (seq 3 (n - 3))
      else false
  | None => false
  end.

Definition isAsStringMethod (name : option string) : bool :=
  match name with
  | Some s =>
      if isGetMethod name
      then
        let n := strlen s in
        (11 <? n)%nat &&
        (s@@(n-8) =c "A" && s@@(n-7) =c "s" && s@@(n-6) =c "S" &&
         s@@(n-5) =c "t" && s@@(n-4) =c "r" && s@@(n-3) =c "i" &&
         s@@(n-2) =c "n" && s@@(n-1) =c "g")
      else false
  | None => false
  end.

Definition isGetMinValueMethod (name : option string) : bool :=
  match name with
  | Some s =>
      if isGetMethod name
      then
        let n := strlen s in
        (11 <? n)%nat && strcmp_eq "MinValue" (str_from (n-8) s)
      else false
  | None => false
  end.

Definition isGetMaxValueMethod (name : option string) : bool :=
  match name with
  | Some s =>
      if isGetMethod name
      then
        let n := strlen s in
        (11 <? n)%nat && strcmp_eq "MaxValue" (str_from (n-8) s)
      else false
  | None => false
  end.

(** ** [methodCategory]

    The category bit of a method.  With [shortForm] the suffixes
    ([MinValue], [AsString], [NumberOf...s]) are taken into account.
    [strlen(name)] of the boolean branch is only reached for a named
    method ([IsBoolean] is set from the name); a null name reads as the
    empty string. *)

Definition cstr (name : option string) : string := default "" name.

Definition methodCategory (meth : MethodAttributes) (shortForm : bool) : Z :=
  let name := MA.Name meth in
  if isSetMethod name then
    if MA.IsEnumerated meth then VTK_METHOD_ENUM_SET
    else if MA.IsIndexed meth then
      if isSetNthMethod name then VTK_METHOD_NTH_SET
      else VTK_METHOD_INDEX_SET
    else if MA.IsMultiValue meth then VTK_METHOD_MULTI_SET
    else if shortForm && isSetNumberOfMethod name then VTK_METHOD_SET_NUM
    else VTK_METHOD_BASIC_SET
  else if MA.IsBoolean meth then
    let n := strlen (cstr name) in
    if (cstr name)@@(n-1) =c "n" then VTK_METHOD_BOOL_ON
    else VTK_METHOD_BOOL_OFF
  else if isGetMethod name then
    if shortForm && isGetMinValueMethod name then VTK_METHOD_MIN_GET
    else if shortForm && isGetMaxValueMethod name then VTK_METHOD_MAX_GET
    else if shortForm && isAsStringMethod name then VTK_METHOD_STRING_GET
    else if MA.IsIndexed meth && (0 <? MA.Count meth) &&
            negb (MA.IsHinted meth) then
      if isGetNthMethod name then VTK_METHOD_NTH_RHS_GET
      else VTK_METHOD_INDEX_RHS_GET
    else if MA.IsIndexed meth then
      if isGetNthMethod name then VTK_METHOD_NTH_GET
      else VTK_METHOD_INDEX_GET
    else if MA.IsMultiValue meth then VTK_METHOD_MULTI_GET
    else if (0 <? MA.Count meth) && negb (MA.IsHinted meth) then
      VTK_METHOD_RHS_GET
    else if shortForm && isGetNumberOfMethod name then VTK_METHOD_GET_NUM
    else VTK_METHOD_BASIC_GET
  else if isRemoveMethod name then
    if isRemoveAllMethod name then VTK_METHOD_REMOVEALL
    else if MA.IsIndexed meth then VTK_METHOD_INDEX_REM
    else VTK_METHOD_BASIC_REM
  else if isAddMethod name then
    if MA.IsIndexed meth then VTK_METHOD_INDEX_ADD
    else if MA.IsMultiValue meth then VTK_METHOD_MULTI_ADD
    else VTK_METHOD_BASIC_ADD
  else 0.

(** ** [nameWithoutPrefix] *)

Definition nameWithoutPrefix (name : option string) : option string :=
  if isGetNthMethod name || isSetNthMethod name then
    str_from 6 <$> name
  else if isGetMethod name || isSetMethod name || isAddMethod name then
    str_from 3 <$> name
  else if isRemoveAllMethod name then
    str_from 9 <$> name
  else if isRemoveMethod name then
    str_from 6 <$> name
  else name.

(** ** [isValidSuffix] *)

Definition isValidSuffix
    (methName : option string) (propertyName : string) (suffix : string)
    : bool :=
  if (suffix@@0 =c "O" && suffix@@1 =c "n" && suffix@@2 =c Ascii.zero) ||
     (suffix@@0 =c "O" && suffix@@1 =c "f" && suffix@@2 =c "f" &&
      suffix@@3 =c Ascii.zero)
  then true
  else if isSetMethod methName &&
          suffix@@0 =c "T" && suffix@@1 =c "o" &&
          (isupper suffix@@2 || isdigit suffix@@2)
  then true
  else if isGetMethod methName &&
          ((suffix@@0 =c "A" && suffix@@1 =c "s" &&
            (isupper suffix@@2 || isdigit suffix@@2)) ||
           (((suffix@@0 =c "M" && suffix@@1 =c "a" && suffix@@2 =c "x") ||
             (suffix@@0 =c "M" && suffix@@1 =c "i" && suffix@@2 =c "n")) &&
            (suffix@@3 =c "V" && suffix@@4 =c "a" && suffix@@5 =c "l" &&
             suffix@@6 =c "u" && suffix@@7 =c "e" &&
             suffix@@8 =c Ascii.zero)))
  then true
  else if isRemoveAllMethod methName
  then suffix@@0 =c "s" && suffix@@1 =c Ascii.zero
  else if isGetNumberOfMethod methName || isSetNumberOfMethod methName
  then
    if strncmp_eq propertyName "NumberOf" 8
    then suffix@@0 =c Ascii.zero
    else suffix@@0 =c "s" && suffix@@1 =c Ascii.zero
  else if suffix@@0 =c Ascii.zero
  then true
  else false.

(** ** [getMethodAttributes] *)

(** [vtkParse_BaseType(t) == VTK_PARSE_VOID && !vtkParse_TypeIsIndirect(t)],
    the test for a [void] return that the source writes out at every
    shape. *)
Definition isVoidType (t : Z) : bool :=
  (vtkParse_BaseType t =? VTK_PARSE_VOID) && negb (vtkParse_TypeIsIndirect t).

Definition argType (func : FunctionInfo) (i : nat) : Z :=
  nth i (FI.ArgTypes func) 0.

Definition argCount (func : FunctionInfo) (i : nat) : Z :=
  nth i (FI.ArgCounts func) 0.

Definition argClass (func : FunctionInfo) (i : nat) : option string :=
  nth i (FI.ArgClasses func) None.

(** The loop that compares every argument type with the first one. *)
Definition allSameArgTypes (func : FunctionInfo) : bool :=
  let tmptype := argType func 0 in
  forallb (fun i : nat => argType func i =? tmptype)
          (seq 0 (FI.NumberOfArguments func)).

(** The value of the local [indexed] after the check for indexed
    methods (lines 506-545); [attrs->IsIndexed] receives the same value. *)
Definition indexedMethod (func : FunctionInfo) : bool :=
  if (0 <? FI.NumberOfArguments func)%nat &&
     ((vtkParse_BaseType (argType func 0) =? VTK_PARSE_INT) ||
      (vtkParse_BaseType (argType func 0) =? VTK_PARSE_ID_TYPE)) &&
     negb (vtkParse_TypeIsIndirect (argType func 0))
  then
    let indexed :=
      if isVoidType (FI.ReturnType func) &&
         (FI.NumberOfArguments func =? 2)%nat
      then
        if negb (isSetNumberOfMethod (FI.Name func))
        then negb (allSameArgTypes func)
        else true
      else false in
    if negb (isVoidType (FI.ReturnType func)) &&
       (FI.NumberOfArguments func =? 1)%nat
    then true
    else indexed
  else false.

(** [(func->ReturnType & VTK_PARSE_STATIC) &&
     func->ReturnType != VTK_PARSE_FUNCTION] *)
Definition isStaticMethod (func : FunctionInfo) : bool :=
  negb (Z.land (FI.ReturnType func) VTK_PARSE_STATIC =? 0) &&
  negb (FI.ReturnType func =? VTK_PARSE_FUNCTION).

Definition initialAttributes (func : FunctionInfo) : MethodAttributes :=
  MA.mk (FI.Name func) false 0 0 None (FI.Comment func)
        (FI.IsPublic func) (FI.IsProtected func) (FI.IsLegacy func)
        (isStaticMethod func)
        false false false false false false.

(** "if return type is not void and no args or 1 index" *)
Definition getterByReturn
    (func : FunctionInfo) (indexed : nat) (attrs : MethodAttributes)
    : option MethodAttributes :=
  if negb (isVoidType (FI.ReturnType func)) &&
     (FI.NumberOfArguments func =? indexed)%nat
  then
    if isGetMethod (FI.Name func)
    then Some (MA.withHinted (FI.HaveHint func)
                 (MA.withValue (FI.ReturnType func)
                    (toInt (if FI.HaveHint func then FI.HintSize func else 0))
                    (FI.ReturnClass func) attrs))
    else None
  else None.

(** "if return type is void and 1 arg or 1 index and 1 arg" *)
Definition byArgument
    (func : FunctionInfo) (indexed : nat) (attrs : MethodAttributes)
    : option MethodAttributes :=
  if isVoidType (FI.ReturnType func) &&
     (FI.NumberOfArguments func =? 1 + indexed)%nat
  then
    let value :=
      MA.withValue (argType func indexed) (toInt (argCount func indexed))
                   (argClass func indexed) attrs in
    if isSetMethod (FI.Name func) then Some value
    else if isGetMethod (FI.Name func) &&
            (0 <? argCount func indexed) &&
            vtkParse_TypeIsIndirect (argType func indexed) &&
            negb (vtkParse_TypeIsConst (argType func indexed))
    then Some value
    else if (isAddMethod (FI.Name func) || isRemoveMethod (FI.Name func)) &&
            (vtkParse_BaseType (argType func indexed) =? VTK_PARSE_VTK_OBJECT) &&
            (vtkParse_TypeIndirection (argType func indexed) =? VTK_PARSE_POINTER)
    then Some value
    else None
  else None.

(** "check for multiple arguments of the same type" *)
Definition multiValue
    (func : FunctionInfo) (indexed : bool) (attrs : MethodAttributes)
    : option MethodAttributes :=
  if (1 <? FI.NumberOfArguments func)%nat && negb indexed
  then
    let tmptype := argType func 0 in
    let n := FI.NumberOfArguments func in
    if allSameArgTypes func
    then
      let value :=
        MA.withMultiValue
          (MA.withValue tmptype (toInt (Z.of_nat n)) None attrs) in
      if isSetMethod (FI.Name func) &&
         negb (vtkParse_TypeIsIndirect tmptype) &&
         isVoidType (FI.ReturnType func)
      then Some value
      else if isGetMethod (FI.Name func) &&
              (vtkParse_TypeIndirection tmptype =? VTK_PARSE_REF) &&
              negb (vtkParse_TypeIsConst tmptype) &&
              isVoidType (FI.ReturnType func)
      then Some value
      else if isAddMethod (FI.Name func) &&
              negb (vtkParse_TypeIsIndirect tmptype) &&
              ((vtkParse_BaseType (FI.ReturnType func) =? VTK_PARSE_VOID) ||
               (vtkParse_BaseType (FI.ReturnType func) =? VTK_PARSE_INT) ||
               (vtkParse_BaseType (FI.ReturnType func) =? VTK_PARSE_ID_TYPE)) &&
              negb (vtkParse_TypeIsIndirect (FI.ReturnType func))
      then Some value
      else None
    else None
  else None.

(** "if return type is void, and there are no arguments".  The result
    is the pair of the return value and the attributes: [attrs->Type] is
    set to [void] even when no name fits. *)
Definition noArguments
    (func : FunctionInfo) (attrs : MethodAttributes)
    : bool * MethodAttributes :=
  if isVoidType (FI.ReturnType func) &&
     (FI.NumberOfArguments func =? 0)%nat
  then
    let attrs := MA.withType VTK_PARSE_VOID attrs in
    if isBooleanMethod (FI.Name func)
    then (true, MA.withBoolean (MA.withHasProperty attrs))
    else if isEnumeratedMethod (FI.Name func)
    then (true, MA.withEnumerated (MA.withHasProperty attrs))
    else if isRemoveAllMethod (FI.Name func)
    then (true, MA.withHasProperty attrs)
    else (false, attrs)
  else (false, attrs).

Definition getMethodAttributes (func : FunctionInfo)
    : bool * MethodAttributes :=
  let attrs := initialAttributes func in
  if isNull (FI.Name func) || FI.ArrayFailure func || FI.IsOperator func
  then (false, attrs)
  else
    let indexed := indexedMethod func in
    let attrs := MA.withIndexed indexed attrs in
    let k := if indexed then 1%nat else 0%nat in
    match getterByReturn func k attrs with
    | Some a => (true, a)
    | None =>
        match byArgument func k attrs with
        | Some a => (true, a)
        | None =>
            match multiValue func indexed attrs with
            | Some a => (true, a)
            | None => noArguments func attrs
            end
        end
    end.

(** ** [PropertyInfo] and [ClassProperties]

    The two structs are declared in [vtkParseProperties.h], which is not
    among the sources; their fields are those that
    [vtkParseProperties.c] reads and writes.

    [EnumConstantNames] is a [const char **]: null, or an allocated array
    of slots.  A slot of a fresh [malloc] holds garbage until it is
    written; the other slots hold a null pointer or a pointer to a
    string. *)

Inductive slot : Type :=
| Garbage
| NullPtr
| StrPtr (s : string).

Module PropertyInfo.
Record t : Type := mk {
  Name : option string;
  Type_ : Z;
  Count : Z;
  ClassName : option string;
  IsStatic : bool;
  EnumConstantNames : option (list slot);
  PublicMethods : Z;
  ProtectedMethods : Z;
  PrivateMethods : Z;
  LegacyMethods : Z;
  Comment : option string
}.

Definition withStatic (p : t) : t :=
  mk (Name p) (Type_ p) (Count p) (ClassName p) true
     (EnumConstantNames p) (PublicMethods p) (ProtectedMethods p)
     (PrivateMethods p) (LegacyMethods p) (Comment p).

Definition withEnumConstantNames (names : option (list slot)) (p : t) : t :=
  mk (Name p) (Type_ p) (Count p) (ClassName p) (IsStatic p)
     names (PublicMethods p) (ProtectedMethods p)
     (PrivateMethods p) (LegacyMethods p) (Comment p).

Definition withPublicMethods (b : Z) (p : t) : t :=
  mk (Name p) (Type_ p) (Count p) (ClassName p) (IsStatic p)
     (EnumConstantNames p) b (ProtectedMethods p)
     (PrivateMethods p) (LegacyMethods p) (Comment p).

Definition withProtectedMethods (b : Z) (p : t) : t :=
  mk (Name p) (Type_ p) (Count p) (ClassName p) (IsStatic p)
     (EnumConstantNames p) (PublicMethods p) b
     (PrivateMethods p) (LegacyMethods p) (Comment p).

Definition withPrivateMethods (b : Z) (p : t) : t :=
  mk (Name p) (Type_ p) (Count p) (ClassName p) (IsStatic p)
     (EnumConstantNames p) (PublicMethods p) (ProtectedMethods p)
     b (LegacyMethods p) (Comment p).

Definition withLegacyMethods (b : Z) (p : t) : t :=
  mk (Name p) (Type_ p) (Count p) (ClassName p) (IsStatic p)
     (EnumConstantNames p) (PublicMethods p) (ProtectedMethods p)
     (PrivateMethods p) b (Comment p).
End PropertyInfo.
Abbreviation PropertyInfo := PropertyInfo.t.
Module PI := PropertyInfo.

(** [NumberOfProperties] is the length of [Properties], and
    [NumberOfMethods] the length of the two per-method arrays. *)
Module ClassProperties.
Record t : Type := mk {
  Properties : list PropertyInfo;
  MethodTypes : list Z;
  MethodProperties : list Z
}.

Definition NumberOfProperties (c : t) : nat := length (Properties c).
Definition NumberOfMethods (c : t) : nat := length (MethodTypes c).
End ClassProperties.
Abbreviation ClassProperties := ClassProperties.t.
Module CP := ClassProperties.

(** ** [methodMatchesProperty] *)

(** The bitfield of the property for the access level of the method. *)
Definition accessBitfield (property : PropertyInfo) (meth : MethodAttributes)
    : Z :=
  if MA.IsPublic meth then PI.PublicMethods property
  else if MA.IsProtected meth then PI.ProtectedMethods property
  else PI.PrivateMethods property.

(** "remove const and static" *)
Definition stripQualifiers (methType : Z) : Z :=
  if vtkParse_TypeHasQualifier methType
  then Z.land methType VTK_PARSE_UNQUALIFIED_TYPE
  else methType.

(** "remove ampersands i.e. ref" *)
Definition removeRef (methType : Z) : Z :=
  if vtkParse_TypeIndirection methType =? VTK_PARSE_REF
  then Z.land methType (Z.lnot VTK_PARSE_INDIRECT)
  else if vtkParse_TypeIndirection methType =? VTK_PARSE_POINTER_REF
  then Z.lor (Z.land methType (Z.lnot VTK_PARSE_INDIRECT)) VTK_PARSE_POINTER
  else if vtkParse_TypeIndirection methType =? VTK_PARSE_CONST_POINTER_REF
  then Z.lor (Z.land methType (Z.lnot VTK_PARSE_INDIRECT))
             VTK_PARSE_CONST_POINTER
  else methType.

(** "if method is multivalue, then the referenced property is a pointer";
    [None] is the [return 0] of the last branch. *)
Definition multiValueType (meth : MethodAttributes) (methType : Z)
    : option Z :=
  if MA.IsMultiValue meth
  then
    if vtkParse_TypeIndirection methType =? VTK_PARSE_POINTER
    then Some (Z.lor (Z.land methType (Z.lnot VTK_PARSE_INDIRECT))
                     VTK_PARSE_POINTER_POINTER)
    else if vtkParse_TypeIndirection methType =? 0
    then Some (Z.lor methType VTK_PARSE_POINTER)
    else None
  else Some methType.

(** The guard of the promotion (lines 861-864): the method is one whose
    value type may be promoted. *)
Definition promotable (meth : MethodAttributes) (methType : Z) : bool :=
  MA.IsBoolean meth || MA.IsEnumerated meth ||
  (isAsStringMethod (MA.Name meth) &&
   (vtkParse_BaseType methType =? VTK_PARSE_CHAR) &&
   (vtkParse_TypeIndirection methType =? VTK_PARSE_POINTER)).

(** The inner test (lines 866-870): the property type accepts it. *)
Definition promotionTarget (meth : MethodAttributes) (propertyType : Z)
    : bool :=
  negb (vtkParse_TypeIsIndirect propertyType) &&
  ((propertyType =? VTK_PARSE_INT) ||
   (propertyType =? VTK_PARSE_UNSIGNED_INT) ||
   (propertyType =? VTK_PARSE_UNSIGNED_CHAR) ||
   (MA.IsBoolean meth && (propertyType =? VTK_PARSE_BOOL))).

(** [unified] says whether the assignment [methType = propertyType] of
    line 872 is executed; [promoteType] is [methType] after the block. *)
Definition unified (meth : MethodAttributes) (methType propertyType : Z)
    : bool :=
  promotable meth methType && promotionTarget meth propertyType.

Definition promoteType (meth : MethodAttributes) (methType propertyType : Z)
    : Z :=
  if promotable meth methType
  then if promotionTarget meth propertyType then propertyType else methType
  else methType.

(** Lines 876-895: type and count, then the class of a vtkObject. *)
Definition typeAndCountMatch
    (property : PropertyInfo) (meth : MethodAttributes) (methType : Z)
    : bool :=
  if negb (methType =? PI.Type_ property) ||
     negb (MA.Count meth =? PI.Count property)
  then false
  else if vtkParse_BaseType methType =? VTK_PARSE_VTK_OBJECT
  then
    if MA.IsMultiValue meth || negb (vtkParse_TypeIsPointer methType) ||
       negb (MA.Count meth =? 0) ||
       match MA.ClassName meth, PI.ClassName property with
       | Some c, Some d => negb (strcmp_eq c d)
       | _, _ => true
       end
    then false
    else true
  else true.

(** Lines 790-895: everything after the name and suffix tests. *)
Definition typesMatch (property : PropertyInfo) (meth : MethodAttributes)
    : bool :=
  let methodBitfield := accessBitfield property meth in
  let propertyType := PI.Type_ property in
  let methType := stripQualifiers (MA.Type_ meth) in
  if isRemoveAllMethod (MA.Name meth) &&
     (methType =? VTK_PARSE_VOID) &&
     negb (vtkParse_TypeIsIndirect methType) &&
     negb (Z.land methodBitfield
             (Z.lor VTK_METHOD_BASIC_ADD VTK_METHOD_MULTI_ADD) =? 0)
  then true
  else if isGetNumberOfMethod (MA.Name meth) &&
          ((methType =? VTK_PARSE_INT) || (methType =? VTK_PARSE_ID_TYPE)) &&
          negb (vtkParse_TypeIsIndirect methType) &&
          negb (Z.land methodBitfield
                  (Z.lor VTK_METHOD_INDEX_GET VTK_METHOD_NTH_GET) =? 0)
  then true
  else if isSetNumberOfMethod (MA.Name meth) &&
          ((methType =? VTK_PARSE_INT) || (methType =? VTK_PARSE_ID_TYPE)) &&
          negb (vtkParse_TypeIsIndirect methType) &&
          negb (Z.land methodBitfield
                  (Z.lor VTK_METHOD_INDEX_SET VTK_METHOD_NTH_SET) =? 0)
  then true
  else
    match multiValueType meth (removeRef methType) with
    | None => false
    | Some methType =>
        typeAndCountMatch property meth
          (promoteType meth methType propertyType)
    end.

(** Lines 738-775: [longMatch] and the name to compare; [name] is
    [nameWithoutPrefix(meth->Name)], [n] is [strlen(propertyName)]. *)
Definition longMatchAndName
    (meth : MethodAttributes) (name propertyName : string)
    : bool * string :=
  let n := strlen propertyName in
  if isGetNumberOfMethod (MA.Name meth) || isSetNumberOfMethod (MA.Name meth)
  then
    if strncmp_eq propertyName "NumberOf" 8 && isupper propertyName@@8
    then (true, name)
    else (false, str_from 11 (cstr (MA.Name meth)))
  else if isGetMinValueMethod (MA.Name meth)
  then ((8 <=? n)%nat && strcmp_eq (str_from (n-8) propertyName) "MinValue",
        name)
  else if isGetMaxValueMethod (MA.Name meth)
  then ((8 <=? n)%nat && strcmp_eq (str_from (n-8) propertyName) "MaxValue",
        name)
  else if isAsStringMethod (MA.Name meth)
  then ((8 <=? n)%nat && strcmp_eq (str_from (n-8) propertyName) "AsString",
        name)
  else (false, name).

(** The result is the pair of the return value and of [*longMatch].
    When a name is null the source returns before it writes [*longMatch];
    the caller reads it only after a successful match. *)
Definition methodMatchesProperty
    (property : PropertyInfo) (meth : MethodAttributes) : bool * bool :=
  match nameWithoutPrefix (MA.Name meth), PI.Name property with
  | Some name, Some propertyName =>
      let n := strlen propertyName in
      let '(longMatch, name) := longMatchAndName meth name propertyName in
      if negb (strncmp_eq name propertyName n)
      then (false, longMatch)
      else
        let methSuffix := str_from n name in
        if negb (isValidSuffix (MA.Name meth) propertyName methSuffix)
        then (false, longMatch)
        else (typesMatch property meth, longMatch)
  | _, _ => (false, false)
  end.

(** Lines 729-788 alone, the tests that come before the types are
    looked at: no name is null, the name of the method contains the name
    of the property, and what follows it is a valid suffix. *)
Definition nameMatches
    (property : PropertyInfo) (meth : MethodAttributes) : bool :=
  match nameWithoutPrefix (MA.Name meth), PI.Name property with
  | Some name, Some propertyName =>
      let n := strlen propertyName in
      let '(_, name) := longMatchAndName meth name propertyName in
      strncmp_eq name propertyName n &&
      isValidSuffix (MA.Name meth) propertyName (str_from n name)
  | _, _ => false
  end.

(** ** [initializePropertyInfo] *)

Definition initialPropertyType (meth : MethodAttributes) : Z :=
  let type := if MA.IsBoolean meth || MA.IsEnumerated meth
              then VTK_PARSE_INT else MA.Type_ meth in
  let base := vtkParse_BaseType type in
  let ind := vtkParse_TypeIndirection type in
  if (negb (MA.IsMultiValue meth) &&
      ((ind =? VTK_PARSE_POINTER) || (ind =? VTK_PARSE_POINTER_REF))) ||
     (MA.IsMultiValue meth && ((ind =? 0) || (ind =? VTK_PARSE_REF)))
  then Z.lor base VTK_PARSE_POINTER
  else if negb (MA.IsMultiValue meth) &&
          ((ind =? VTK_PARSE_CONST_POINTER) ||
           (ind =? VTK_PARSE_CONST_POINTER_REF))
  then Z.lor base VTK_PARSE_CONST_POINTER
  else if (ind =? VTK_PARSE_POINTER_POINTER) ||
          ((ind =? VTK_PARSE_POINTER) && MA.IsMultiValue meth)
  then Z.lor base VTK_PARSE_POINTER_POINTER
  else base.

Definition initializePropertyInfo (meth : MethodAttributes) (methodBit : Z)
    : PropertyInfo :=
  PI.mk (nameWithoutPrefix (MA.Name meth))
        (initialPropertyType meth)
        (MA.Count meth)
        (MA.ClassName meth)
        (MA.IsStatic meth)
        None
        (if MA.IsPublic meth then methodBit else 0)
        (if MA.IsPublic meth then 0
         else if MA.IsProtected meth then methodBit else 0)
        (if MA.IsPublic meth then 0
         else if MA.IsProtected meth then 0 else methodBit)
        (if MA.IsLegacy meth then methodBit else 0)
        (MA.Comment meth).

(** ** Effects

    The builder can go wrong in two ways that the model makes explicit:
    a read of an array slot that was never written or lies outside the
    allocation, and the loop of [findAllMatches], which is run on fuel.
    Both are the [None] of the option monad; the totality theorems below
    show that neither happens. *)

Fixpoint foldlM {A B : Type} (f : A -> B -> option A) (a : A) (l : list B)
    : option A :=
  match l with
  | [] => Some a
  | x :: l' => a' ← f a x; foldlM f a' l'
  end.

(** A bounds-checked store [a[j] = v]. *)
Definition store {A : Type} (a : list A) (j : nat) (v : A) : option (list A) :=
  if (j <? length a)%nat then Some (<[j := v]> a) else None.

(** ** The list of enumeration constants (lines 1040-1061) *)

(** [j = 0; while (names[j] != 0) { j++; }] started at [j]. *)
Fixpoint findTerminator (names : list slot) (j : nat) : option nat :=
  match names with
  | [] => None
  | Garbage :: _ => None
  | NullPtr :: _ => Some j
  | StrPtr _ :: rest => findTerminator rest (S j)
  end.

Definition appendEnumConstant (names : option (list slot)) (p : string)
    : option (list slot) :=
  let names :=
    match names with
    | None => <[0%nat := NullPtr]> (replicate 8 Garbage)
    | Some a => a
    end in
  j ← findTerminator names 0;
  names ← store names j (StrPtr p);
  let j := S j in
  let names :=
    if (j mod 8 =? 0)%nat
    then (take j names ++ replicate 8 Garbage)%list
    else names in
  store names j NullPtr.

(** What a caller reads from the field: the strings up to the first null
    pointer. *)
Fixpoint readNames (names : list slot) : list string :=
  match names with
  | StrPtr s :: rest => s :: readNames rest
  | _ => []
  end.

Definition enumConstants (property : PropertyInfo) : list string :=
  match PI.EnumConstantNames property with
  | None => []
  | Some names => readNames names
  end.

(** ** [findAllMatches] *)

(** The state of the loop.  [folded] is a ghost field: the indices of
    the methods folded into the property so far, in the order of the
    matches.  It is written only, never read by the algorithm. *)
Record FindState : Type := mkFind {
  fs_property : PropertyInfo;
  fs_matched : list bool;
  fs_categories : list Z;
  fs_properties : list Z;
  fs_foundNoMatches : bool;
  fs_folded : list nat
}.

(** or-ing the method bit into the bitfields of the property *)
Definition addMethodBit
    (meth : MethodAttributes) (methodBit : Z) (property : PropertyInfo)
    : PropertyInfo :=
  let property :=
    if MA.IsPublic meth
    then PI.withPublicMethods
           (Z.lor (PI.PublicMethods property) methodBit) property
    else if MA.IsProtected meth
    then PI.withProtectedMethods
           (Z.lor (PI.ProtectedMethods property) methodBit) property
    else PI.withPrivateMethods
           (Z.lor (PI.PrivateMethods property) methodBit) property in
  if MA.IsLegacy meth
  then PI.withLegacyMethods
         (Z.lor (PI.LegacyMethods property) methodBit) property
  else property.

(** Lines 1036-1038 and 1049: the test for ["To"] and an upper-case
    letter or a digit at offset [3 + strlen(property->Name)] of the name
    of the method, and the pointer [&meth->Name[5+m]] that is stored. *)
Definition enumConstantOf
    (propertyName : option string) (meth : MethodAttributes)
    : option string :=
  let m := strlen (cstr propertyName) in
  let name := cstr (MA.Name meth) in
  if name@@(3+m) =c "T" && name@@(4+m) =c "o" &&
     (isdigit name@@(5+m) || isupper name@@(5+m))
  then Some (str_from (5+m) name)
  else None.

(** Lines 1034-1063. *)
Definition collectEnumConstant
    (meth : MethodAttributes) (property : PropertyInfo)
    : option PropertyInfo :=
  if MA.IsEnumerated meth
  then
    match enumConstantOf (PI.Name property) meth with
    | Some constant =>
        names ← appendEnumConstant (PI.EnumConstantNames property) constant;
        Some (PI.withEnumConstantNames (Some names) property)
    | None => Some property
    end
  else Some property.

(** The body of the [for] loop at index [i]. *)
Definition foldMethod
    (propertyId : Z) (methods : list MethodAttributes)
    (st : FindState) (i : nat) : option FindState :=
  match fs_matched st !! i, methods !! i with
  | Some false, Some meth =>
      let '(matches, longMatch) :=
        methodMatchesProperty (fs_property st) meth in
      if matches
      then
        let property := fs_property st in
        let property :=
          if MA.IsStatic meth then PI.withStatic property else property in
        let methodBit := methodCategory meth (negb longMatch) in
        let property := addMethodBit meth methodBit property in
        property ← collectEnumConstant meth property;
        Some (mkFind property
                (<[i := true]> (fs_matched st))
                (<[i := methodBit]> (fs_categories st))
                (<[i := propertyId]> (fs_properties st))
                false
                (fs_folded st ++ [i])%list)
      else Some st
  | _, _ => Some st
  end.

(** One execution of the body of the [while] loop. *)
Definition scanMethods
    (propertyId : Z) (methods : list MethodAttributes) (st : FindState)
    : option FindState :=
  foldlM (foldMethod propertyId methods)
         (mkFind (fs_property st) (fs_matched st) (fs_categories st)
                 (fs_properties st) true (fs_folded st))
         (seq 0 (length methods)).

(** "loop repeatedly until no more matches are found" *)
Fixpoint findAllMatches_loop
    (fuel : nat) (propertyId : Z) (methods : list MethodAttributes)
    (st : FindState) : option FindState :=
  match fuel with
  | O => None
  | S fuel' =>
      st' ← scanMethods propertyId methods st;
      if fs_foundNoMatches st' then Some st'
      else findAllMatches_loop fuel' propertyId methods st'
  end.

(** Every round but the last takes at least one method out of
    consideration, so one round more than there are methods is enough. *)
Definition findAllMatches
    (property : PropertyInfo) (propertyId : Z)
    (methods : list MethodAttributes)
    (matchedMethods : list bool) (methodCategories methodProperties : list Z)
    : option FindState :=
  findAllMatches_loop (S (length methods)) propertyId methods
    (mkFind property matchedMethods methodCategories methodProperties
            false []).

(** ** [searchForRepeatedMethods] *)

(** "check whether the function name and basic structure are matched".
    [attrs->Name] is not null where the source calls the function. *)
Definition sameStructure (attrs meth : MethodAttributes) : bool :=
  match MA.Name meth, MA.Name attrs with
  | Some mname, Some aname =>
      strcmp_eq aname mname &&
      (vtkParse_TypeIndirection (MA.Type_ attrs) =?
       vtkParse_TypeIndirection (MA.Type_ meth)) &&
      Bool.eqb (MA.IsPublic attrs) (MA.IsPublic meth) &&
      Bool.eqb (MA.IsProtected attrs) (MA.IsProtected meth) &&
      Bool.eqb (MA.IsHinted attrs) (MA.IsHinted meth) &&
      Bool.eqb (MA.IsMultiValue attrs) (MA.IsMultiValue meth) &&
      Bool.eqb (MA.IsIndexed attrs) (MA.IsIndexed meth) &&
      Bool.eqb (MA.IsEnumerated attrs) (MA.IsEnumerated meth) &&
      Bool.eqb (MA.IsBoolean attrs) (MA.IsBoolean meth)
  | _, _ => false
  end.

(** The test of lines 1102-1106 (and, with the arguments exchanged, of
    lines 1118-1122): [a] is to be dropped in favour of [b]. *)
Definition yieldsTo (a b : MethodAttributes) : bool :=
  ((vtkParse_BaseType (MA.Type_ a) =? VTK_PARSE_FLOAT) &&
   (vtkParse_BaseType (MA.Type_ b) =? VTK_PARSE_DOUBLE)) ||
  ((vtkParse_BaseType (MA.Type_ a) =? vtkParse_BaseType (MA.Type_ b)) &&
   (MA.Count a <? MA.Count b)) ||
  (MA.IsLegacy a && negb (MA.IsLegacy b)).

(** [methods->Methods[k]->IsRepeat = 1] *)
Definition markRepeat (methods : list MethodAttributes) (k : nat)
    : list MethodAttributes :=
  match methods !! k with
  | Some m => <[k := MA.withRepeat m]> methods
  | None => methods
  end.

(** [a[dst] = a[src]] *)
Definition copyEntry {A : Type} (a : list A) (dst src : nat) : list A :=
  match a !! src with
  | Some v => <[dst := v]> a
  | None => a
  end.

(** [MethodTypes[dst] = MethodTypes[src]] and the same for
    [MethodProperties], when [properties] is not null. *)
Definition copyMethodInfo
    (properties : option ClassProperties) (dst src : nat)
    : option ClassProperties :=
  (fun p : ClassProperties =>
     CP.mk (CP.Properties p)
           (copyEntry (CP.MethodTypes p) dst src)
           (copyEntry (CP.MethodProperties p) dst src)) <$> properties.

(** The [for] loop over the indices [idxs], with its two early returns.
    The last component is the return value. *)
Fixpoint searchLoop
    (attrs : MethodAttributes) (j : nat) (idxs : list nat)
    (methods : list MethodAttributes) (properties : option ClassProperties)
    : list MethodAttributes * option ClassProperties * bool :=
  match idxs with
  | [] => (methods, properties, true)
  | i :: rest =>
      match methods !! i with
      | Some meth =>
          if sameStructure attrs meth
          then
            if yieldsTo attrs meth
            then (markRepeat methods j, copyMethodInfo properties j i, false)
            else if yieldsTo meth attrs
            then (markRepeat methods i, copyMethodInfo properties i j, false)
            else searchLoop attrs j rest methods properties
          else searchLoop attrs j rest methods properties
      | None => searchLoop attrs j rest methods properties
      end
  end.

Definition searchForRepeatedMethods
    (properties : option ClassProperties)
    (methods : list MethodAttributes) (j : nat)
    : list MethodAttributes * option ClassProperties * bool :=
  match methods !! j with
  | Some attrs =>
      searchLoop attrs j (seq 0 (length methods)) methods properties
  | None => (methods, properties, true)
  end.

(** ** [addProperty] and [categorizeProperties] *)

(** The state of the builder: the method attributes (whose [IsRepeat]
    flags [searchForRepeatedMethods] updates), [matchedMethods], and the
    [ClassProperties] under construction.  [b_members] is a ghost field
    that records, for every property in order, its member methods: the
    seed followed by the methods that [findAllMatches] folded in. *)
Record Builder : Type := mkBuilder {
  b_methods : list MethodAttributes;
  b_matched : list bool;
  b_properties : ClassProperties;
  b_members : list (list nat)
}.

(** "Add a property, using method at index i as a template".  [meth] is
    read before [searchForRepeatedMethods]; the call can only change its
    [IsRepeat], which the rest of the function does not read. *)
Definition addProperty (st : Builder) (i : nat) : option Builder :=
  match b_methods st !! i with
  | Some meth =>
      let matchedMethods := <[i := true]> (b_matched st) in
      let category := methodCategory meth false in
      let properties := b_properties st in
      let propertyId := Z.of_nat (CP.NumberOfProperties properties) in
      let properties :=
        CP.mk (CP.Properties properties)
              (<[i := category]> (CP.MethodTypes properties))
              (<[i := propertyId]> (CP.MethodProperties properties)) in
      let '(methods, searched, _) :=
        searchForRepeatedMethods (Some properties) (b_methods st) i in
      let properties := default properties searched in
      let property := initializePropertyInfo meth category in
      fs ← findAllMatches property propertyId methods matchedMethods
             (CP.MethodTypes properties) (CP.MethodProperties properties);
      Some (mkBuilder methods (fs_matched fs)
              (CP.mk (CP.Properties properties ++ [fs_property fs])%list
                     (fs_categories fs) (fs_properties fs))
              (b_members st ++ [i :: fs_folded fs])%list)
  | None => Some st
  end.

(** One of the five [for] loops of [categorizeProperties]: every method
    still under consideration that [select] accepts seeds a property.
    [sweepStep] is the body of the loop at index [i]. *)
Definition sweepStep (select : MethodAttributes -> bool)
    (st : Builder) (i : nat) : option Builder :=
  match b_matched st !! i, b_methods st !! i with
  | Some false, Some meth =>
      if select meth then addProperty st i else Some st
  | _, _ => Some st
  end.

Definition sweep (select : MethodAttributes -> bool) (st : Builder)
    : option Builder :=
  foldlM (sweepStep select) st (seq 0 (length (b_methods st))).

Definition selectSet (meth : MethodAttributes) : bool :=
  isSetMethod (MA.Name meth) && negb (MA.IsEnumerated meth) &&
  negb (isSetNumberOfMethod (MA.Name meth)).

Definition selectSetNumberOf (meth : MethodAttributes) : bool :=
  isSetNumberOfMethod (MA.Name meth).

Definition selectGet (meth : MethodAttributes) : bool :=
  isGetMethod (MA.Name meth) && negb (isAsStringMethod (MA.Name meth)) &&
  negb (isGetNumberOfMethod (MA.Name meth)).

Definition selectGetNumberOf (meth : MethodAttributes) : bool :=
  isGetNumberOfMethod (MA.Name meth).

Definition selectAdd (meth : MethodAttributes) : bool :=
  isAddMethod (MA.Name meth).

(** "matchedMethods are methods removed from consideration" *)
Definition initialMatched (methods : list MethodAttributes) : list bool :=
  map (fun m : MethodAttributes => negb (MA.HasProperty m) || MA.IsRepeat m)
      methods.

Definition categorizeProperties
    (methods : list MethodAttributes) (properties : ClassProperties)
    : option Builder :=
  let st :=
    mkBuilder methods (initialMatched methods)
      (CP.mk [] (CP.MethodTypes properties) (CP.MethodProperties properties))
      [] in
  st ← sweep selectSet st;
  st ← sweep selectSetNumberOf st;
  st ← sweep selectGet st;
  st ← sweep selectGetNumberOf st;
  sweep selectAdd st.

(** ** [categorizePropertyMethods] *)

(** The body of the loop: the attributes of [func] are appended, and the
    methods so far are searched for a repeat of the new one. *)
Definition categorizeMethod
    (methods : list MethodAttributes) (func : FunctionInfo)
    : list MethodAttributes :=
  let i := length methods in
  let '(converted, attrs) := getMethodAttributes func in
  let methods := (methods ++ [attrs])%list in
  if converted
  then (searchForRepeatedMethods None methods i).1.1
  else methods.

Definition categorizePropertyMethods (data : ClassInfo)
    : list MethodAttributes :=
  fold_left categorizeMethod data [].

(** ** [vtkParseProperties_Create] *)

(** The builder's final state for a class, ghost fields included. *)
Definition synthesize (data : ClassInfo) : option Builder :=
  let methods := categorizePropertyMethods data in
  let n := length methods in
  categorizeProperties methods
    (CP.mk [] (replicate n 0) (replicate n (-1))).

Definition vtkParseProperties_Create (data : ClassInfo)
    : option ClassProperties :=
  b_properties <$> synthesize data.

(** ** [vtkParseProperties_MethodTypeAsString]

    The [switch] over the category constants; [""] is the [return] after
    the [switch]. *)
Definition vtkParseProperties_MethodTypeAsString (methodType : Z) : string :=
  if methodType =? VTK_METHOD_BASIC_GET then "BASIC_GET"
  else if methodType =? VTK_METHOD_BASIC_SET then "BASIC_SET"
  else if methodType =? VTK_METHOD_MULTI_GET then "MULTI_GET"
  else if methodType =? VTK_METHOD_MULTI_SET then "MULTI_SET"
  else if methodType =? VTK_METHOD_INDEX_GET then "INDEX_GET"
  else if methodType =? VTK_METHOD_INDEX_SET then "INDEX_SET"
  else if methodType =? VTK_METHOD_NTH_GET then "NTH_GET"
  else if methodType =? VTK_METHOD_NTH_SET then "NTH_SET"
  else if methodType =? VTK_METHOD_RHS_GET then "RHS_GET"
  else if methodType =? VTK_METHOD_INDEX_RHS_GET then "INDEX_RHS_GET"
  else if methodType =? VTK_METHOD_NTH_RHS_GET then "NTH_RHS_GET"
  else if methodType =? VTK_METHOD_STRING_GET then "STRING_GET"
  else if methodType =? VTK_METHOD_ENUM_SET then "ENUM_SET"
  else if methodType =? VTK_METHOD_BOOL_ON then "BOOL_ON"
  else if methodType =? VTK_METHOD_BOOL_OFF then "BOOL_OFF"
  else if methodType =? VTK_METHOD_MIN_GET then "MIN_GET"
  else if methodType =? VTK_METHOD_MAX_GET then "MAX_GET"
  else if methodType =? VTK_METHOD_GET_NUM then "GET_NUM"
  else if methodType =? VTK_METHOD_SET_NUM then "SET_NUM"
  else if methodType =? VTK_METHOD_BASIC_ADD then "BASIC_ADD"
  else if methodType =? VTK_METHOD_MULTI_ADD then "MULTI_ADD"
  else if methodType =? VTK_METHOD_INDEX_ADD then "INDEX_ADD"
  else if methodType =? VTK_METHOD_BASIC_REM then "BASIC_REM"
  else if methodType =? VTK_METHOD_INDEX_REM then "INDEX_REM"
  else if methodType =? VTK_METHOD_REMOVEALL then "REMOVEALL"
  else "".

(** * Scenarios *)

Module Scenario.

Definition method
    (name : string) (ret : Z) (args : list Z) : FunctionInfo :=
  FI.mk (Some name) None (length args) false false
        args (map (fun _ => None) args) (map (fun _ => 0) args)
        ret None false 0 false true false.

Definition legacy (f : FunctionInfo) : FunctionInfo :=
  FI.mk (FI.Name f) (FI.Comment f) (FI.NumberOfArguments f)
        (FI.IsOperator f) true (FI.ArgTypes f) (FI.ArgClasses f)
        (FI.ArgCounts f) (FI.ReturnType f) (FI.ReturnClass f)
        (FI.HaveHint f) (FI.HintSize f) (FI.ArrayFailure f)
        (FI.IsPublic f) (FI.IsProtected f).

Definition commented (c : option string) (f : FunctionInfo) : FunctionInfo :=
  FI.mk (FI.Name f) c (FI.NumberOfArguments f)
        (FI.IsOperator f) (FI.IsLegacy f) (FI.ArgTypes f) (FI.ArgClasses f)
        (FI.ArgCounts f) (FI.ReturnType f) (FI.ReturnClass f)
        (FI.HaveHint f) (FI.HintSize f) (FI.ArrayFailure f)
        (FI.IsPublic f) (FI.IsProtected f).

(** [void SetRadius(double); double GetRadius();], public, not legacy,
    not static, each with its documentation. *)
Definition radius (c1 c2 : option string) : ClassInfo :=
  [ commented c1 (method "SetRadius" VTK_PARSE_VOID [VTK_PARSE_DOUBLE]);
    commented c2 (method "GetRadius" VTK_PARSE_DOUBLE []) ].

(** The property [Radius] of that class. *)
Definition radiusProperty (c : option string) : PropertyInfo :=
  PI.mk (Some "Radius") VTK_PARSE_DOUBLE 0 None false None
        (Z.lor VTK_METHOD_BASIC_SET VTK_METHOD_BASIC_GET) 0 0 0 c.


Definition failing (f : FunctionInfo) : FunctionInfo :=
  FI.mk (FI.Name f) (FI.Comment f) (FI.NumberOfArguments f)
        (FI.IsOperator f) (FI.IsLegacy f) (FI.ArgTypes f) (FI.ArgClasses f)
        (FI.ArgCounts f) (FI.ReturnType f) (FI.ReturnClass f)
        (FI.HaveHint f) (FI.HintSize f) true
        (FI.IsPublic f) (FI.IsProtected f).

(** [void SetX(double);] and two legacy overloads, [void SetX(float);]
    and [void SetX(int);] *)
Definition threeOverloads : ClassInfo :=
  [ method "SetX" VTK_PARSE_VOID [VTK_PARSE_DOUBLE];
    legacy (method "SetX" VTK_PARSE_VOID [VTK_PARSE_FLOAT]);
    legacy (method "SetX" VTK_PARSE_VOID [VTK_PARSE_INT]) ].

(** [void SetNumberOfPoints(int, int);] *)
Definition setNumberOfPoints : FunctionInfo :=
  method "SetNumberOfPoints" VTK_PARSE_VOID [VTK_PARSE_INT; VTK_PARSE_INT].

(** [void SetValue(int, double);] *)
Definition setValueAt : FunctionInfo :=
  method "SetValue" VTK_PARSE_VOID [VTK_PARSE_INT; VTK_PARSE_DOUBLE].

(** The property seeded by [void SetMode(bool);] and the attributes of
    the enumerated setter [void SetModeToFast();] and of the boolean
    method [void ModeOn();] *)
Definition modeProperty : PropertyInfo :=
  initializePropertyInfo
    (getMethodAttributes (method "SetMode" VTK_PARSE_VOID [VTK_PARSE_BOOL])).2
    VTK_METHOD_BASIC_SET.

Definition setModeToFast : MethodAttributes :=
  (getMethodAttributes (method "SetModeToFast" VTK_PARSE_VOID [])).2.

Definition modeOn : MethodAttributes :=
  (getMethodAttributes (method "ModeOn" VTK_PARSE_VOID [])).2.

(** The property seeded by [void SetMode(int);] and the attributes of
    the getter [double GetModeAsString();] *)
Definition modeIntProperty : PropertyInfo :=
  initializePropertyInfo
    (getMethodAttributes (method "SetMode" VTK_PARSE_VOID [VTK_PARSE_INT])).2
    VTK_METHOD_BASIC_SET.

Definition getModeAsString : MethodAttributes :=
  (getMethodAttributes (method "GetModeAsString" VTK_PARSE_DOUBLE [])).2.

(** The property seeded by [void SetName(char *name);] and the attributes
    of the getter [char *GetNameAsString();] *)
Definition nameProperty : PropertyInfo :=
  initializePropertyInfo
    (getMethodAttributes
       (method "SetName" VTK_PARSE_VOID
          [Z.lor VTK_PARSE_CHAR VTK_PARSE_POINTER])).2
    VTK_METHOD_BASIC_SET.

Definition getNameAsString : MethodAttributes :=
  (getMethodAttributes
     (method "GetNameAsString" (Z.lor VTK_PARSE_CHAR VTK_PARSE_POINTER) [])).2.

(** [void SetX(float);] and a legacy [void SetX(double);] *)
Definition floatThenLegacyDouble : ClassInfo :=
  [ method "SetX" VTK_PARSE_VOID [VTK_PARSE_FLOAT];
    legacy (method "SetX" VTK_PARSE_VOID [VTK_PARSE_DOUBLE]) ].

(** A legacy [void SetX(float);], then [void SetX(double);] and
    [void SetX(float);] *)
Definition legacyFloatDoubleFloat : ClassInfo :=
  [ legacy (method "SetX" VTK_PARSE_VOID [VTK_PARSE_FLOAT]);
    method "SetX" VTK_PARSE_VOID [VTK_PARSE_DOUBLE];
    method "SetX" VTK_PARSE_VOID [VTK_PARSE_FLOAT] ].

(** [void SetX(double);] and a legacy [void SetX(float a[N]);] whose
    array size the parser could not find *)
Definition withArrayFailure : ClassInfo :=
  [ method "SetX" VTK_PARSE_VOID [VTK_PARSE_DOUBLE];
    failing (legacy (method "SetX" VTK_PARSE_VOID
                       [Z.lor VTK_PARSE_FLOAT VTK_PARSE_POINTER])) ].

(** [double GetX(); double GetXMinValue();] and the same class with the
    two methods exchanged *)
Definition getThenMin : ClassInfo :=
  [ method "GetX" VTK_PARSE_DOUBLE [];
    method "GetXMinValue" VTK_PARSE_DOUBLE [] ].

Definition minThenGet : ClassInfo :=
  [ method "GetXMinValue" VTK_PARSE_DOUBLE [];
    method "GetX" VTK_PARSE_DOUBLE [] ].

(** [void SetAToB(int); void SetNthAToBToFoo();] *)
Definition nthEnumerated : ClassInfo :=
  [ method "SetAToB" VTK_PARSE_VOID [VTK_PARSE_INT];
    method "SetNthAToBToFoo" VTK_PARSE_VOID [] ].

End Scenario.

(** * The preference order of the specification

    Section 4.4 of the specification: "A tie-breaker prefers, in order:
    double over float, higher array count, non-legacy over legacy".
    [beats a b] follows these words: the first of the three criteria, in
    that order, that tells [a] and [b] apart is in favour of [a]. *)
Definition beats (a b : MethodAttributes) : bool :=
  if (vtkParse_BaseType (MA.Type_ a) =? VTK_PARSE_DOUBLE) &&
     (vtkParse_BaseType (MA.Type_ b) =? VTK_PARSE_FLOAT)
  then true
  else if (vtkParse_BaseType (MA.Type_ b) =? VTK_PARSE_DOUBLE) &&
          (vtkParse_BaseType (MA.Type_ a) =? VTK_PARSE_FLOAT)
  then false
  else if MA.Count b <? MA.Count a then true
  else if MA.Count a <? MA.Count b then false
  else negb (MA.IsLegacy a) && MA.IsLegacy b.

(** * Verification *)

#[local] Arguments Nat.modulo : simpl never.
#[local] Arguments Nat.div : simpl never.
#[local] Arguments Nat.mul : simpl never.

(** [exists_some t] evaluates [t] to [Some v] and gives [v] as the
    witness of the goal. *)
Ltac exists_some t :=
  let r := eval vm_compute in t in
  match r with
  | Some ?v => exists v
  end.

(** ** The option monad and bounds-checked stores *)

Lemma foldlM_inv {A B : Type} (P : A -> Prop) (f : A -> B -> option A) :
  (forall a x, P a -> exists a', f a x = Some a' /\ P a') ->
  forall l a, P a -> exists a', foldlM f a l = Some a' /\ P a'.
Proof.
  intros Hstep l. induction l as [|x l IH]; intros a Ha; simpl.
  - eauto.
  - destruct (Hstep a x Ha) as (a' & -> & Ha'). simpl. auto.
Qed.

Lemma store_Some {A : Type} (a : list A) (j : nat) (v : A) :
  (j < length a)%nat -> store a j v = Some (<[j := v]> a).
Proof.
  intros H. unfold store. by destruct (Nat.ltb_spec j (length a)); [|lia].
Qed.

(** ** The array of enumeration constants *)

(** A well-formed array: the collected strings, a null pointer, and
    slack; its capacity is the first multiple of 8 above the number of
    strings. *)
Definition wfNames (a : list slot) : Prop :=
  exists (strs : list string) (rest : list slot),
    a = (map StrPtr strs ++ NullPtr :: rest)%list /\
    length a = (8 * (length strs / 8 + 1))%nat.

Definition wfEnum (o : option (list slot)) : Prop :=
  match o with
  | None => True
  | Some a => wfNames a
  end.

Definition namesOf (o : option (list slot)) : list string :=
  match o with
  | None => []
  | Some a => readNames a
  end.

Lemma findTerminator_strs (strs : list string) (rest : list slot) (j : nat) :
  findTerminator (map StrPtr strs ++ NullPtr :: rest)%list j
  = Some (j + length strs)%nat.
Proof.
  revert j. induction strs as [|s strs IH]; intros j; simpl.
  - f_equal. lia.
  - rewrite IH. f_equal. lia.
Qed.

Lemma readNames_strs (strs : list string) (rest : list slot) :
  readNames (map StrPtr strs ++ NullPtr :: rest)%list = strs.
Proof. induction strs as [|s strs IH]; simpl; [done | by rewrite IH]. Qed.

Lemma insert_after_strs (strs : list string) (x y : slot) (rest : list slot) :
  <[length strs := y]> (map StrPtr strs ++ x :: rest)%list
  = (map StrPtr strs ++ y :: rest)%list.
Proof. induction strs as [|s strs IH]; simpl; [done | by rewrite IH]. Qed.

Lemma fresh_names_wf : wfNames (<[0%nat := NullPtr]> (replicate 8 Garbage)).
Proof. exists [], (replicate 7 Garbage). by split. Qed.

(** An insertion into a well-formed array never reads garbage nor writes
    outside the allocation; it leaves a well-formed array that holds one
    more string, at the end. *)
Lemma appendEnumConstant_wf (o : option (list slot)) (p : string) :
  wfEnum o ->
  exists a, appendEnumConstant o p = Some a /\ wfNames a /\
            readNames a = (namesOf o ++ [p])%list.
Proof.
  intros Hwf. unfold appendEnumConstant.
  set (names := match o with
                | None => <[0%nat := NullPtr]> (replicate 8 Garbage)
                | Some a => a
                end).
  assert (Hn : wfNames names /\ readNames names = namesOf o).
  { destruct o; simpl in *; [done|]. split; [apply fresh_names_wf | done]. }
  destruct Hn as [(strs & rest & Heq & Hlen) Hread].
  clearbody names. subst names. rewrite readNames_strs in Hread.
  rewrite <- Hread. clear Hread Hwf o.
  rewrite findTerminator_strs. simpl.
  rewrite length_app, length_map in Hlen. simpl in Hlen.
  rewrite store_Some by (rewrite length_app, length_map; simpl; lia).
  simpl. rewrite insert_after_strs.
  replace (map StrPtr strs ++ StrPtr p :: rest)%list
    with (map StrPtr (strs ++ [p]) ++ rest)%list
    by (rewrite map_app, <- app_assoc; done).
  assert (Hl : length (strs ++ [p]) = S (length strs))
    by (rewrite length_app; simpl; lia).
  assert (Hm : length (map StrPtr (strs ++ [p])) = S (length strs))
    by (by rewrite length_map).
  pose proof (Nat.div_mod_eq (length strs) 8) as Hd.
  pose proof (Nat.mod_upper_bound (length strs) 8 ltac:(lia)) as Hb.
  pose proof (Nat.div_mod_eq (S (length strs)) 8) as Hd'.
  pose proof (Nat.mod_upper_bound (S (length strs)) 8 ltac:(lia)) as Hb'.
  destruct (Nat.eqb_spec (S (length strs) mod 8) 0) as [Hmod|Hmod].
  - rewrite take_app_length' by done.
    change (replicate 8 Garbage) with (Garbage :: replicate 7 Garbage).
    rewrite store_Some by (rewrite length_app, Hm; simpl; lia).
    eexists. split; [done|].
    rewrite <- Hl, insert_after_strs.
    split; [|apply readNames_strs].
    exists (strs ++ [p])%list, (replicate 7 Garbage). split; [done|].
    rewrite length_app, Hm, Hl. simpl. lia.
  - destruct rest as [|r rest]; [simpl in Hlen; lia|].
    rewrite store_Some by (rewrite length_app, Hm; simpl in *; lia).
    eexists. split; [done|].
    rewrite <- Hl, insert_after_strs.
    split; [|apply readNames_strs].
    exists (strs ++ [p])%list, rest. split; [done|].
    rewrite length_app, Hm, Hl. simpl in *.
    assert (S (length strs) / 8 = length strs / 8)%nat by nia.
    lia.
Qed.

(** ** Categories are never zero for a property-shaped method *)

(** The name, or the boolean flag, puts the method in one of the five
    branches of [methodCategory]. *)
Definition named (m : MethodAttributes) : bool :=
  isSetMethod (MA.Name m) || MA.IsBoolean m || isGetMethod (MA.Name m) ||
  isRemoveMethod (MA.Name m) || isAddMethod (MA.Name m).

Definition classifiable (m : MethodAttributes) : Prop :=
  forall shortForm, methodCategory m shortForm <> 0.

Lemma methodCategory_nonzero (m : MethodAttributes) :
  named m = true -> classifiable m.
Proof.
  unfold named, classifiable, methodCategory. intros H sf.
  repeat match goal with
         | |- context [if ?b then _ else _] => destruct b eqn:?
         end; try discriminate; simpl in H; congruence.
Qed.

Lemma isEnumeratedMethod_isSet (name : option string) :
  isEnumeratedMethod name = true -> isSetMethod name = true.
Proof.
  unfold isEnumeratedMethod. destruct name as [s|]; [|done].
  by destruct (isSetMethod (Some s)).
Qed.

Lemma isRemoveAllMethod_isRemove (name : option string) :
  isRemoveAllMethod name = true -> isRemoveMethod name = true.
Proof.
  unfold isRemoveAllMethod. destruct name as [s|]; [|done].
  by destruct (isRemoveMethod (Some s)).
Qed.

(** The extractor reports success exactly through [HasProperty]. *)
Lemma getMethodAttributes_HasProperty (func : FunctionInfo) :
  MA.HasProperty (getMethodAttributes func).2 = (getMethodAttributes func).1.
Proof.
  unfold getMethodAttributes, getterByReturn, byArgument, multiValue,
    noArguments.
  repeat match goal with
         | |- context [if ?b then _ else _] => destruct b eqn:?
         end; reflexivity.
Qed.

(** Every method that the extractor accepts has a category. *)
Lemma getMethodAttributes_named (func : FunctionInfo) :
  MA.HasProperty (getMethodAttributes func).2 = true ->
  named (getMethodAttributes func).2 = true.
Proof.
  unfold getMethodAttributes, getterByReturn, byArgument, multiValue,
    noArguments, named.
  repeat match goal with
         | |- context [if ?b then _ else _] => destruct b eqn:?
         end; simpl; intros HP; try discriminate;
    repeat match goal with
           | H : (_ && _) = true |- _ => apply andb_prop in H; destruct H
           | H : (_ || _) = true |- _ => apply orb_prop in H; destruct H
           | H : isEnumeratedMethod _ = true |- _ =>
               apply isEnumeratedMethod_isSet in H
           | H : isRemoveAllMethod _ = true |- _ =>
               apply isRemoveAllMethod_isRemove in H
           end;
    repeat match goal with
           | H : ?b = true |- context [?b] => rewrite H
           end; simpl; rewrite ?orb_true_r; reflexivity.
Qed.

(** ** The loop of [findAllMatches] *)

(** A per-method property index is -1 or below the bound. *)
Definition inRange (bound : Z) (v : Z) : Prop := v = -1 \/ 0 <= v < bound.

(** A category is zero exactly when the property index is -1. *)
Definition coherent (c p : Z) : Prop := c = 0 <-> p = -1.

(** Every method still under consideration has a property shape and a
    category. *)
Definition shaped (methods : list MethodAttributes) (matched : list bool)
    : Prop :=
  forall i m, matched !! i = Some false -> methods !! i = Some m ->
              MA.HasProperty m = true /\ classifiable m.

Definition hasPropertyAt (methods : list MethodAttributes) (i : nat) : bool :=
  match methods !! i with
  | Some m => MA.HasProperty m
  | None => false
  end.

(** The constants that the folded-in methods [folded] contribute to a
    property of name [propertyName], in the order of [folded]. *)
Definition enumTail (propertyName : option string) (meth : MethodAttributes)
    : list string :=
  if MA.IsEnumerated meth
  then match enumConstantOf propertyName meth with
       | Some constant => [constant]
       | None => []
       end
  else [].

Definition collectedTails
    (methods : list MethodAttributes) (propertyName : option string)
    (folded : list nat) : list string :=
  flat_map (fun i => match methods !! i with
                     | Some meth => enumTail propertyName meth
                     | None => []
                     end) folded.

Definition staticAt (methods : list MethodAttributes) (i : nat) : bool :=
  match methods !! i with
  | Some m => MA.IsStatic m
  | None => false
  end.

Fixpoint countFalse (l : list bool) : nat :=
  match l with
  | [] => 0
  | b :: l' => ((if b then 0 else 1) + countFalse l')%nat
  end.

Lemma countFalse_le_length (l : list bool) : (countFalse l <= length l)%nat.
Proof. induction l as [|[] l IH]; simpl; lia. Qed.

Lemma countFalse_insert_true (l : list bool) (i : nat) :
  l !! i = Some false ->
  (countFalse (<[i := true]> l) < countFalse l)%nat.
Proof.
  revert i. induction l as [|b l IH]; intros [|i] H; simpl in *;
    try discriminate.
  - injection H as ->. lia.
  - specialize (IH i H). lia.
Qed.

Section FindAllMatches.

Variable methods : list MethodAttributes.
Variable propertyId : Z.
Variable seedStatic : bool.
Hypothesis propertyId_nonneg : 0 <= propertyId.

(** The members of the properties built so far, and the seed of this
    one. *)
Variable taken : list nat.

(** The name of the property. *)
Variable propertyName : option string.

(** The invariant of the loop. *)
Record FInv (fs : FindState) : Prop := mkFInv {
  finv_matched : length (fs_matched fs) = length methods;
  finv_categories : length (fs_categories fs) = length methods;
  finv_properties : length (fs_properties fs) = length methods;
  finv_range : Forall (inRange (propertyId + 1)) (fs_properties fs);
  finv_coherent : Forall2 coherent (fs_categories fs) (fs_properties fs);
  finv_enum : wfEnum (PI.EnumConstantNames (fs_property fs));
  finv_shaped : shaped methods (fs_matched fs);
  finv_static :
    PI.IsStatic (fs_property fs)
    = seedStatic || existsb (staticAt methods) (fs_folded fs);
  finv_nodup : NoDup (taken ++ fs_folded fs);
  finv_taken :
    forall j, j ∈ (taken ++ fs_folded fs)%list ->
              fs_matched fs !! j = Some true /\
              hasPropertyAt methods j = true;
  finv_name : PI.Name (fs_property fs) = propertyName;
  finv_constants :
    namesOf (PI.EnumConstantNames (fs_property fs))
    = collectedTails methods propertyName (fs_folded fs)
}.

Lemma collectEnumConstant_wf (meth : MethodAttributes) (p : PropertyInfo) :
  wfEnum (PI.EnumConstantNames p) ->
  exists p', collectEnumConstant meth p = Some p' /\
             wfEnum (PI.EnumConstantNames p') /\
             PI.IsStatic p' = PI.IsStatic p /\
             PI.Name p' = PI.Name p /\
             namesOf (PI.EnumConstantNames p')
             = (namesOf (PI.EnumConstantNames p)
                ++ enumTail (PI.Name p) meth)%list.
Proof.
  intros Hwf. unfold collectEnumConstant, enumTail.
  destruct (MA.IsEnumerated meth);
    [|exists p; by rewrite app_nil_r].
  destruct (enumConstantOf (PI.Name p) meth) as [constant|];
    [|exists p; by rewrite app_nil_r].
  destruct (appendEnumConstant_wf _ constant Hwf) as (a & -> & Ha & Hread).
  simpl. eauto 10.
Qed.

Lemma addMethodBit_fields (meth : MethodAttributes) (bit : Z)
    (p : PropertyInfo) :
  PI.EnumConstantNames (addMethodBit meth bit p) = PI.EnumConstantNames p /\
  PI.IsStatic (addMethodBit meth bit p) = PI.IsStatic p /\
  PI.Name (addMethodBit meth bit p) = PI.Name p.
Proof.
  unfold addMethodBit.
  by destruct (MA.IsPublic meth), (MA.IsProtected meth), (MA.IsLegacy meth).
Qed.

(** One step of the scan keeps the invariant, and a step that finds a
    match takes a method out of consideration. *)
Lemma foldMethod_inv (fs : FindState) (i : nat) :
  FInv fs ->
  exists fs',
    foldMethod propertyId methods fs i = Some fs' /\ FInv fs' /\
    (countFalse (fs_matched fs') + (if fs_foundNoMatches fs' then 0 else 1)
     <= countFalse (fs_matched fs)
        + (if fs_foundNoMatches fs then 0 else 1))%nat.
Proof using propertyId_nonneg.
  intros Hinv. unfold foldMethod.
  destruct (fs_matched fs !! i) as [[]|] eqn:Hm; [by eauto| |by eauto].
  destruct (methods !! i) as [meth|] eqn:Hmeth; [|by eauto].
  destruct (methodMatchesProperty (fs_property fs) meth)
    as [[] longMatch]; [|by eauto].
  set (p1 := if MA.IsStatic meth then PI.withStatic (fs_property fs)
             else fs_property fs).
  set (bit := methodCategory meth (negb longMatch)).
  destruct (addMethodBit_fields meth bit p1) as (Henum & Hstat & Hname).
  assert (Hp1 : PI.EnumConstantNames p1
                = PI.EnumConstantNames (fs_property fs) /\
                PI.Name p1 = PI.Name (fs_property fs))
    by (unfold p1; by destruct (MA.IsStatic meth)).
  destruct Hp1 as [Henum1 Hname1].
  destruct (collectEnumConstant_wf meth (addMethodBit meth bit p1))
    as (p' & -> & Hwf' & Hstat' & Hname' & Hnames').
  { rewrite Henum, Henum1. apply (finv_enum _ Hinv). }
  simpl. eexists. split; [done|]. split.
  - assert (Hbit : bit <> 0)
      by (apply (proj2 (finv_shaped _ Hinv i meth Hm Hmeth))).
    constructor; simpl.
    + rewrite length_insert. apply (finv_matched _ Hinv).
    + rewrite length_insert. apply (finv_categories _ Hinv).
    + rewrite length_insert. apply (finv_properties _ Hinv).
    + apply Forall_insert; [apply (finv_range _ Hinv)|].
      right. lia.
    + apply Forall2_insert; [apply (finv_coherent _ Hinv)|].
      unfold coherent. split; [done | lia].
    + done.
    + intros j m Hj Hmj.
      destruct (decide (i = j)) as [->|Hne].
      * rewrite list_lookup_insert_eq in Hj; [done|].
        by apply lookup_lt_Some in Hm.
      * rewrite list_lookup_insert_ne in Hj by done.
        by apply (finv_shaped _ Hinv j).
    + rewrite Hstat', Hstat, existsb_app. simpl.
      unfold staticAt at 2. rewrite Hmeth, orb_false_r.
      unfold p1. destruct (MA.IsStatic meth); simpl.
      * by rewrite orb_true_r, orb_true_r.
      * rewrite orb_false_r. apply (finv_static _ Hinv).
    + rewrite app_assoc. apply NoDup_app.
      split; [apply (finv_nodup _ Hinv)|]. split; [|apply NoDup_singleton].
      intros j Hj ->%list_elem_of_singleton.
      apply (finv_taken _ Hinv) in Hj as [Hj _]. congruence.
    + intros j Hj. rewrite app_assoc in Hj.
      apply elem_of_app in Hj as [Hj| ->%list_elem_of_singleton].
      * destruct (finv_taken _ Hinv j Hj) as [Hjm Hjp]. split; [|done].
        destruct (decide (i = j)) as [->|Hne].
        -- apply list_lookup_insert_eq. by apply lookup_lt_Some in Hm.
        -- by rewrite list_lookup_insert_ne.
      * split.
        -- apply list_lookup_insert_eq. by apply lookup_lt_Some in Hm.
        -- unfold hasPropertyAt. rewrite Hmeth.
           apply (finv_shaped _ Hinv i meth Hm Hmeth).
    + rewrite Hname', Hname, Hname1. apply (finv_name _ Hinv).
    + rewrite Hnames', Henum, Henum1, Hname, Hname1.
      rewrite (finv_constants _ Hinv), (finv_name _ Hinv).
      unfold collectedTails. rewrite flat_map_app. simpl.
      by rewrite Hmeth, app_nil_r.
  - pose proof (countFalse_insert_true _ _ Hm).
    simpl. destruct (fs_foundNoMatches fs); lia.
Qed.

(** A full scan: it succeeds, keeps the invariant, and if it found a
    match, fewer methods remain under consideration. *)
Lemma scanMethods_inv (fs : FindState) :
  FInv fs ->
  exists fs',
    scanMethods propertyId methods fs = Some fs' /\ FInv fs' /\
    (countFalse (fs_matched fs') + (if fs_foundNoMatches fs' then 0 else 1)
     <= countFalse (fs_matched fs))%nat.
Proof using propertyId_nonneg.
  intros Hinv. unfold scanMethods.
  set (init := mkFind (fs_property fs) (fs_matched fs) (fs_categories fs)
                      (fs_properties fs) true (fs_folded fs)).
  destruct (foldlM_inv
              (fun a => FInv a /\
                 (countFalse (fs_matched a)
                  + (if fs_foundNoMatches a then 0 else 1)
                  <= countFalse (fs_matched fs))%nat)
              (foldMethod propertyId methods)) with
    (l := seq 0 (length methods)) (a := init) as (fs' & Hrun & Hfs' & Hc).
  - intros a x [Ha Hca].
    destruct (foldMethod_inv a x Ha) as (a' & Heq & Ha' & Hstep).
    exists a'. split; [done|]. split; [done|]. lia.
  - split; [|simpl; lia]. by destruct Hinv.
  - eauto.
Qed.

(** The loop needs at most one round more than there are methods under
    consideration. *)
Lemma findAllMatches_loop_inv (fuel : nat) (fs : FindState) :
  FInv fs ->
  (countFalse (fs_matched fs) < fuel)%nat ->
  exists fs',
    findAllMatches_loop fuel propertyId methods fs = Some fs' /\ FInv fs'.
Proof using propertyId_nonneg.
  revert fs. induction fuel as [|fuel IH]; intros fs Hinv Hfuel; [lia|].
  simpl. destruct (scanMethods_inv fs Hinv) as (fs1 & -> & Hinv1 & Hc).
  simpl. destruct (fs_foundNoMatches fs1); [eauto|].
  apply IH; [done | lia].
Qed.

End FindAllMatches.

(** ** What [searchForRepeatedMethods] changes

    It sets [IsRepeat] flags and copies one entry of each per-method
    array onto another; nothing else. *)

Lemma lookup_map {A B : Type} (f : A -> B) (l : list A) (i : nat) :
  map f l !! i = f <$> (l !! i).
Proof.
  revert i. induction l as [|x l IH]; intros [|i]; simpl; try done.
Qed.

Lemma map_insert {A B : Type} (f : A -> B) (l : list A) (i : nat) (x : A) :
  map f (<[i := x]> l) = <[i := f x]> (map f l).
Proof.
  revert i. induction l as [|y l IH]; intros [|i]; simpl; try done.
  by rewrite IH.
Qed.

Lemma withRepeat_idem (m : MethodAttributes) :
  MA.withRepeat (MA.withRepeat m) = MA.withRepeat m.
Proof. done. Qed.

Lemma markRepeat_facts (methods : list MethodAttributes) (k : nat) :
  map MA.withRepeat (markRepeat methods k) = map MA.withRepeat methods.
Proof.
  unfold markRepeat. destruct (methods !! k) as [m|] eqn:Hk; [|done].
  rewrite map_insert, withRepeat_idem. apply list_insert_id.
  by rewrite lookup_map, Hk.
Qed.

Lemma copyEntry_length {A : Type} (a : list A) (dst src : nat) :
  length (copyEntry a dst src) = length a.
Proof.
  unfold copyEntry. destruct (a !! src); [apply length_insert | done].
Qed.

Lemma copyEntry_Forall {A : Type} (P : A -> Prop) (a : list A)
    (dst src : nat) :
  Forall P a -> Forall P (copyEntry a dst src).
Proof.
  intros H. unfold copyEntry. destruct (a !! src) as [v|] eqn:Hv; [|done].
  apply Forall_insert; [done|]. by eapply Forall_lookup_1.
Qed.

Lemma copyEntry_Forall2 {A B : Type} (R : A -> B -> Prop)
    (a : list A) (b : list B) (dst src : nat) :
  Forall2 R a b -> Forall2 R (copyEntry a dst src) (copyEntry b dst src).
Proof.
  intros H. unfold copyEntry.
  destruct (a !! src) as [v|] eqn:Hv.
  - destruct (Forall2_lookup_l _ _ _ _ _ H Hv) as (w & -> & Hvw).
    by apply Forall2_insert.
  - apply lookup_ge_None in Hv. rewrite (Forall2_length _ _ _ H) in Hv.
    apply lookup_ge_None in Hv. by rewrite Hv.
Qed.

(** The per-method arrays after the search, in terms of the arrays
    before: what held of all entries, and between the entries of the two
    arrays at the same index, still holds. *)
Record searchKeeps (properties properties' : option ClassProperties)
    : Prop := mkSearchKeeps {
  sk_shape : is_Some properties <-> is_Some properties';
  sk_fields :
    forall p p', properties = Some p -> properties' = Some p' ->
      CP.Properties p' = CP.Properties p /\
      length (CP.MethodTypes p') = length (CP.MethodTypes p) /\
      length (CP.MethodProperties p') = length (CP.MethodProperties p) /\
      (forall P : Z -> Prop,
          Forall P (CP.MethodProperties p) ->
          Forall P (CP.MethodProperties p')) /\
      (forall R : Z -> Z -> Prop,
          Forall2 R (CP.MethodTypes p) (CP.MethodProperties p) ->
          Forall2 R (CP.MethodTypes p') (CP.MethodProperties p'))
}.

Lemma searchKeeps_refl (properties : option ClassProperties) :
  searchKeeps properties properties.
Proof.
  split; [done|]. intros p p' -> [= ->]. by repeat split.
Qed.

Lemma copyMethodInfo_keeps (properties : option ClassProperties)
    (dst src : nat) :
  searchKeeps properties (copyMethodInfo properties dst src).
Proof.
  unfold copyMethodInfo. split.
  - destruct properties; simpl; split; intros [? ?]; eauto; done.
  - intros p p' -> [= <-]. simpl.
    rewrite !copyEntry_length. repeat split; try done.
    + intros P. apply copyEntry_Forall.
    + intros R. apply copyEntry_Forall2.
Qed.

Lemma searchLoop_keeps (attrs : MethodAttributes) (j : nat)
    (idxs : list nat) (methods : list MethodAttributes)
    (properties : option ClassProperties) :
  map MA.withRepeat (searchLoop attrs j idxs methods properties).1.1
  = map MA.withRepeat methods /\
  searchKeeps properties (searchLoop attrs j idxs methods properties).1.2.
Proof.
  induction idxs as [|i rest IH]; simpl.
  - split; [done | apply searchKeeps_refl].
  - destruct (methods !! i) as [meth|]; [|done].
    destruct (sameStructure attrs meth); [|done].
    destruct (yieldsTo attrs meth); simpl.
    { split; [apply markRepeat_facts | apply copyMethodInfo_keeps]. }
    destruct (yieldsTo meth attrs); simpl; [|done].
    split; [apply markRepeat_facts | apply copyMethodInfo_keeps].
Qed.

Lemma searchForRepeatedMethods_keeps
    (properties : option ClassProperties)
    (methods : list MethodAttributes) (j : nat) :
  map MA.withRepeat (searchForRepeatedMethods properties methods j).1.1
  = map MA.withRepeat methods /\
  searchKeeps properties (searchForRepeatedMethods properties methods j).1.2.
Proof.
  unfold searchForRepeatedMethods. destruct (methods !! j) as [attrs|].
  - apply searchLoop_keeps.
  - split; [done | apply searchKeeps_refl].
Qed.

(** ** Facts that do not depend on [IsRepeat] *)

Lemma facts_lookup (l l' : list MethodAttributes) (i : nat)
    (m : MethodAttributes) :
  map MA.withRepeat l = map MA.withRepeat l' ->
  l !! i = Some m ->
  exists m', l' !! i = Some m' /\ MA.withRepeat m = MA.withRepeat m'.
Proof.
  intros Heq Hm.
  assert (H : map MA.withRepeat l !! i = Some (MA.withRepeat m))
    by (by rewrite lookup_map, Hm).
  rewrite Heq, lookup_map in H.
  destruct (l' !! i) as [m'|]; simpl in H; [|done].
  exists m'. split; [done | congruence].
Qed.

Lemma facts_length (l l' : list MethodAttributes) :
  map MA.withRepeat l = map MA.withRepeat l' -> length l = length l'.
Proof.
  intros H. apply (f_equal length) in H. by rewrite !length_map in H.
Qed.

Lemma withRepeat_category (m : MethodAttributes) (shortForm : bool) :
  methodCategory (MA.withRepeat m) shortForm = methodCategory m shortForm.
Proof. done. Qed.

Lemma facts_classifiable (m m' : MethodAttributes) :
  MA.withRepeat m = MA.withRepeat m' -> classifiable m -> classifiable m'.
Proof.
  intros Heq H sf. rewrite <- withRepeat_category, <- Heq.
  rewrite withRepeat_category. apply H.
Qed.

Lemma facts_shaped (l l' : list MethodAttributes) (matched : list bool) :
  map MA.withRepeat l = map MA.withRepeat l' ->
  shaped l matched -> shaped l' matched.
Proof.
  intros Heq H i m' Hi Hm'.
  destruct (facts_lookup l' l i m' (eq_sym Heq) Hm') as (m & Hm & Hmm).
  destruct (H i m Hi Hm) as [Hp Hc]. split.
  - change (MA.HasProperty (MA.withRepeat m') = true). by rewrite Hmm.
  - eapply facts_classifiable; [symmetry; apply Hmm | done].
Qed.

Lemma facts_hasPropertyAt (l l' : list MethodAttributes) (i : nat) :
  map MA.withRepeat l = map MA.withRepeat l' ->
  hasPropertyAt l i = hasPropertyAt l' i.
Proof.
  intros Heq. unfold hasPropertyAt.
  destruct (l !! i) as [m|] eqn:Hm.
  - destruct (facts_lookup l l' i m Heq Hm) as (m' & -> & Hmm).
    change (MA.HasProperty (MA.withRepeat m)
            = MA.HasProperty (MA.withRepeat m')).
    by rewrite Hmm.
  - apply lookup_ge_None in Hm. rewrite (facts_length _ _ Heq) in Hm.
    apply lookup_ge_None in Hm. by rewrite Hm.
Qed.

Lemma facts_staticAt (l l' : list MethodAttributes) (i : nat) :
  map MA.withRepeat l = map MA.withRepeat l' ->
  staticAt l i = staticAt l' i.
Proof.
  intros Heq. unfold staticAt.
  destruct (l !! i) as [m|] eqn:Hm.
  - destruct (facts_lookup l l' i m Heq Hm) as (m' & -> & Hmm).
    change (MA.IsStatic (MA.withRepeat m) = MA.IsStatic (MA.withRepeat m')).
    by rewrite Hmm.
  - apply lookup_ge_None in Hm. rewrite (facts_length _ _ Heq) in Hm.
    apply lookup_ge_None in Hm. by rewrite Hm.
Qed.

Lemma facts_collectedTails (l l' : list MethodAttributes)
    (propertyName : option string) (idxs : list nat) :
  map MA.withRepeat l = map MA.withRepeat l' ->
  collectedTails l propertyName idxs = collectedTails l' propertyName idxs.
Proof.
  intros Heq. unfold collectedTails.
  induction idxs as [|i idxs IH]; simpl; [done|]. rewrite IH. f_equal.
  destruct (l !! i) as [m|] eqn:Hm.
  - destruct (facts_lookup l l' i m Heq Hm) as (m' & -> & Hmm).
    change (enumTail propertyName (MA.withRepeat m)
            = enumTail propertyName (MA.withRepeat m')).
    by rewrite Hmm.
  - apply lookup_ge_None in Hm. rewrite (facts_length _ _ Heq) in Hm.
    apply lookup_ge_None in Hm. by rewrite Hm.
Qed.

Lemma facts_existsb_static (l l' : list MethodAttributes) (idxs : list nat) :
  map MA.withRepeat l = map MA.withRepeat l' ->
  existsb (staticAt l) idxs = existsb (staticAt l') idxs.
Proof.
  intros Heq. induction idxs as [|i idxs IH]; simpl; [done|].
  by rewrite IH, (facts_staticAt l l' i Heq).
Qed.

(** ** Repeats yield to another method *)

Lemma yieldsTo_irrefl (a : MethodAttributes) : yieldsTo a a = false.
Proof.
  unfold yieldsTo. rewrite Z.ltb_irrefl, andb_false_r, andb_negb_r.
  destruct (Z.eqb_spec (vtkParse_BaseType (MA.Type_ a)) VTK_PARSE_FLOAT)
    as [->|]; reflexivity.
Qed.

Lemma bool_eqb_sym (x y : bool) : Bool.eqb x y = Bool.eqb y x.
Proof. by destruct x, y. Qed.

Lemma sameStructure_sym (a b : MethodAttributes) :
  sameStructure a b = sameStructure b a.
Proof.
  unfold sameStructure, strcmp_eq.
  destruct (MA.Name a), (MA.Name b); try reflexivity.
  rewrite String.eqb_sym, Z.eqb_sym.
  rewrite (bool_eqb_sym (MA.IsPublic a)), (bool_eqb_sym (MA.IsProtected a)),
    (bool_eqb_sym (MA.IsHinted a)), (bool_eqb_sym (MA.IsMultiValue a)),
    (bool_eqb_sym (MA.IsIndexed a)), (bool_eqb_sym (MA.IsEnumerated a)),
    (bool_eqb_sym (MA.IsBoolean a)).
  reflexivity.
Qed.

(** Every method marked [IsRepeat] has the name and structure of another
    method of the list and yields to it under one of the three tests. *)
Definition dominated (methods : list MethodAttributes) : Prop :=
  forall j m,
    methods !! j = Some m -> MA.IsRepeat m = true ->
    exists i m', i <> j /\ methods !! i = Some m' /\
                 sameStructure m m' = true /\ yieldsTo m m' = true.

Lemma markRepeat_dominated
    (methods : list MethodAttributes) (k w : nat)
    (mk mw : MethodAttributes) :
  dominated methods ->
  methods !! k = Some mk -> methods !! w = Some mw ->
  sameStructure mk mw = true -> yieldsTo mk mw = true ->
  dominated (markRepeat methods k).
Proof.
  intros Hdom Hk Hw Hss Hy. unfold markRepeat. rewrite Hk.
  assert (Hkw : w <> k).
  { intros ->. rewrite Hk in Hw. injection Hw as <-.
    by rewrite yieldsTo_irrefl in Hy. }
  assert (Hlook : forall i m', methods !! i = Some m' ->
            exists m'', <[k := MA.withRepeat mk]> methods !! i = Some m'' /\
                        MA.withRepeat m'' = MA.withRepeat m').
  { intros i m' Hi. destruct (decide (k = i)) as [->|Hne].
    - rewrite list_lookup_insert_eq by (by eapply lookup_lt_Some).
      rewrite Hk in Hi. injection Hi as <-. eauto.
    - rewrite list_lookup_insert_ne by done. eauto. }
  intros j m Hj Hrep. destruct (decide (k = j)) as [->|Hne].
  - rewrite list_lookup_insert_eq in Hj by (by eapply lookup_lt_Some).
    injection Hj as <-.
    exists w, mw. rewrite list_lookup_insert_ne by done. done.
  - rewrite list_lookup_insert_ne in Hj by done.
    destruct (Hdom j m Hj Hrep) as (i & m' & Hij & Hi & Hs' & Hy').
    destruct (Hlook i m' Hi) as (m'' & Hi'' & Heq).
    exists i, m''. split; [done|]. split; [done|].
    change (sameStructure m (MA.withRepeat m'') = true /\
            yieldsTo m (MA.withRepeat m'') = true).
    by rewrite Heq.
Qed.

Lemma searchLoop_dominated (attrs : MethodAttributes) (j : nat)
    (idxs : list nat) (methods : list MethodAttributes)
    (properties : option ClassProperties) :
  dominated methods -> methods !! j = Some attrs ->
  dominated (searchLoop attrs j idxs methods properties).1.1.
Proof.
  intros Hdom Hj. induction idxs as [|i rest IH]; simpl; [done|].
  destruct (methods !! i) as [meth|] eqn:Hi; [|done].
  destruct (sameStructure attrs meth) eqn:Hs; [|done].
  destruct (yieldsTo attrs meth) eqn:Hy; simpl.
  { by apply (markRepeat_dominated methods j i attrs meth). }
  destruct (yieldsTo meth attrs) eqn:Hy'; simpl; [|done].
  apply (markRepeat_dominated methods i j meth attrs); try done.
  by rewrite sameStructure_sym.
Qed.

Lemma searchForRepeatedMethods_dominated
    (properties : option ClassProperties)
    (methods : list MethodAttributes) (j : nat) :
  dominated methods ->
  dominated (searchForRepeatedMethods properties methods j).1.1.
Proof.
  intros Hdom. unfold searchForRepeatedMethods.
  destruct (methods !! j) as [attrs|] eqn:Hj; [|done].
  by apply searchLoop_dominated.
Qed.

(** ** The invariant of the property builder *)

(** The seeds of the properties, in the order of the properties. *)
Definition seeds (st : Builder) : list nat :=
  map (hd 0%nat) (b_members st).

Section Builder.

(** The attributes of the methods of the class, [IsRepeat] set aside. *)
Variable facts : list MethodAttributes.

Record BInv (st : Builder) : Prop := mkBInv {
  binv_facts : map MA.withRepeat (b_methods st) = map MA.withRepeat facts;
  binv_matched : length (b_matched st) = length (b_methods st);
  binv_types :
    length (CP.MethodTypes (b_properties st)) = length (b_methods st);
  binv_props :
    length (CP.MethodProperties (b_properties st)) = length (b_methods st);
  binv_members :
    length (b_members st) = length (CP.Properties (b_properties st));
  binv_range :
    Forall (inRange (Z.of_nat (CP.NumberOfProperties (b_properties st))))
           (CP.MethodProperties (b_properties st));
  binv_coherent :
    Forall2 coherent (CP.MethodTypes (b_properties st))
                     (CP.MethodProperties (b_properties st));
  binv_enum :
    Forall (fun p => wfEnum (PI.EnumConstantNames p))
           (CP.Properties (b_properties st));
  binv_shaped : shaped (b_methods st) (b_matched st);
  binv_static :
    Forall2 (fun p members => PI.IsStatic p = existsb (staticAt facts) members)
            (CP.Properties (b_properties st)) (b_members st);
  binv_constants :
    Forall2 (fun p members =>
               enumConstants p
               = collectedTails facts (PI.Name p) (tl members))
            (CP.Properties (b_properties st)) (b_members st);
  binv_dominated : dominated (b_methods st);
  binv_nodup : NoDup (concat (b_members st));
  binv_taken :
    forall j, j ∈ concat (b_members st) ->
              b_matched st !! j = Some true /\
              hasPropertyAt facts j = true
}.

Lemma inRange_weaken (b b' v : Z) : b <= b' -> inRange b v -> inRange b' v.
Proof. unfold inRange. lia. Qed.

Lemma shaped_insert_true (methods : list MethodAttributes)
    (matched : list bool) (i : nat) :
  shaped methods matched -> shaped methods (<[i := true]> matched).
Proof.
  intros H j m Hj Hm. destruct (decide (i = j)) as [->|Hne].
  - destruct (decide (j < length matched)%nat).
    + by rewrite list_lookup_insert_eq in Hj.
    + rewrite list_insert_ge in Hj by lia. by eapply H.
  - rewrite list_lookup_insert_ne in Hj by done. by eapply H.
Qed.

(** Seeding a property from a method under consideration succeeds and
    keeps the invariant. *)
Lemma addProperty_inv (st : Builder) (i : nat) :
  BInv st -> b_matched st !! i = Some false ->
  exists st', addProperty st i = Some st' /\ BInv st'.
Proof.
  intros Hinv Hi. unfold addProperty.
  assert (Hlt : (i < length (b_methods st))%nat).
  { rewrite <- (binv_matched _ Hinv). by eapply lookup_lt_Some. }
  destruct (lookup_lt_is_Some_2 _ _ Hlt) as [meth Hmeth]. rewrite Hmeth.
  set (np := Z.of_nat (CP.NumberOfProperties (b_properties st))).
  set (category := methodCategory meth false).
  set (cp1 := CP.mk _ _ _).
  pose proof (searchForRepeatedMethods_keeps (Some cp1) (b_methods st) i)
    as [Hfacts Hkeeps].
  pose proof (searchForRepeatedMethods_dominated (Some cp1) (b_methods st) i
                (binv_dominated _ Hinv)) as Hdom.
  destruct (searchForRepeatedMethods (Some cp1) (b_methods st) i)
    as [[methods' searched] r]. simpl in Hfacts, Hkeeps, Hdom.
  destruct Hkeeps as [Hshape Hfields].
  destruct (proj1 Hshape) as [cp2 ->]; [by eexists|]. simpl.
  destruct (Hfields _ cp2 eq_refl eq_refl)
    as (Hprops & Hlt2 & Hlp2 & HP & HR).
  clear Hfields Hshape. simpl in *.
  assert (Hcat : category <> 0)
    by (apply (proj2 (binv_shaped _ Hinv i meth Hi Hmeth))).
  assert (Hlen' : length methods' = length (b_methods st))
    by (by apply facts_length).
  assert (HF : FInv methods' np (MA.IsStatic meth)
                 (concat (b_members st) ++ [i])
                 (nameWithoutPrefix (MA.Name meth))
                 (mkFind (initializePropertyInfo meth category)
                         (<[i := true]> (b_matched st))
                         (CP.MethodTypes cp2) (CP.MethodProperties cp2)
                         false [])).
  { constructor; simpl.
    - rewrite length_insert, Hlen'. apply (binv_matched _ Hinv).
    - rewrite Hlt2, length_insert, Hlen'. apply (binv_types _ Hinv).
    - rewrite Hlp2, length_insert, Hlen'. apply (binv_props _ Hinv).
    - apply HP. apply Forall_insert.
      + eapply Forall_impl; [apply (binv_range _ Hinv)|].
        intros v. apply inRange_weaken. lia.
      + right. unfold np. lia.
    - apply HR. apply Forall2_insert; [apply (binv_coherent _ Hinv)|].
      unfold coherent, np. split; [done | lia].
    - done.
    - eapply facts_shaped; [symmetry; apply Hfacts|].
      apply shaped_insert_true, (binv_shaped _ Hinv).
    - by rewrite orb_false_r.
    - rewrite app_nil_r. apply NoDup_app.
      split; [apply (binv_nodup _ Hinv)|]. split; [|apply NoDup_singleton].
      intros j Hj ->%list_elem_of_singleton.
      apply (binv_taken _ Hinv) in Hj as [Hj _]. congruence.
    - intros j Hj. rewrite app_nil_r in Hj.
      rewrite (facts_hasPropertyAt methods' facts)
        by (rewrite Hfacts; apply (binv_facts _ Hinv)).
      apply elem_of_app in Hj as [Hj| ->%list_elem_of_singleton].
      + destruct (binv_taken _ Hinv j Hj) as [Hjm Hjp]. split; [|done].
        destruct (decide (i = j)) as [->|Hne].
        * apply list_lookup_insert_eq. by apply lookup_lt_Some in Hi.
        * by rewrite list_lookup_insert_ne.
      + split.
        * apply list_lookup_insert_eq. by apply lookup_lt_Some in Hi.
        * rewrite <- (facts_hasPropertyAt (b_methods st) facts i
                       (binv_facts _ Hinv)).
          unfold hasPropertyAt. rewrite Hmeth.
          apply (binv_shaped _ Hinv i meth Hi Hmeth).
    - done.
    - done. }
  destruct (findAllMatches_loop_inv methods' np (MA.IsStatic meth)
              ltac:(unfold np; lia) (concat (b_members st) ++ [i])
              (nameWithoutPrefix (MA.Name meth))
              (S (length methods')) _ HF)
    as (fs & Hrun & Hfs).
  { simpl. pose proof (countFalse_le_length (<[i := true]> (b_matched st))).
    rewrite length_insert, (binv_matched _ Hinv), <- Hlen' in H. lia. }
  unfold findAllMatches. rewrite Hrun. simpl.
  eexists. split; [done|].
  destruct Hfs. constructor; simpl; try done.
  - rewrite Hfacts. apply (binv_facts _ Hinv).
  - rewrite !length_app, Hprops. simpl. by rewrite (binv_members _ Hinv).
  - unfold CP.NumberOfProperties. simpl. rewrite length_app, Hprops. simpl.
    eapply Forall_impl; [done|]. intros v. apply inRange_weaken.
    unfold np, CP.NumberOfProperties. lia.
  - rewrite Hprops. apply Forall_app. split; [apply (binv_enum _ Hinv)|].
    by constructor.
  - rewrite Hprops. apply Forall2_app; [apply (binv_static _ Hinv)|].
    constructor; [|done]. simpl.
    rewrite finv_static0.
    rewrite (facts_existsb_static methods' facts)
      by (rewrite Hfacts; apply (binv_facts _ Hinv)).
    f_equal.
    rewrite <- (facts_staticAt (b_methods st) facts i (binv_facts _ Hinv)).
    unfold staticAt. by rewrite Hmeth.
  - rewrite Hprops. apply Forall2_app; [apply (binv_constants _ Hinv)|].
    constructor; [|done]. simpl.
    unfold enumConstants. fold (namesOf (PI.EnumConstantNames (fs_property fs))).
    rewrite finv_constants0, finv_name0.
    apply facts_collectedTails.
    rewrite Hfacts. apply (binv_facts _ Hinv).
  - rewrite concat_app. simpl. rewrite app_nil_r.
    by rewrite <- app_assoc in finv_nodup0.
  - intros j Hj.
    rewrite <- (facts_hasPropertyAt methods' facts)
      by (rewrite Hfacts; apply (binv_facts _ Hinv)).
    apply finv_taken0.
    rewrite concat_app in Hj. simpl in Hj. rewrite app_nil_r in Hj.
    by rewrite <- app_assoc.
Qed.

(** *** The order of the properties

    The seed of a property is the head of its member list.  A sweep
    appends seeds in increasing order of index, each selected by the
    test of the sweep. *)

Definition selectedBy (select : MethodAttributes -> bool) (i : nat) : Prop :=
  exists m, facts !! i = Some m /\ select m = true.

Definition sweepSegment (select : MethodAttributes -> bool)
    (first : nat) (s : list nat) : Prop :=
  StronglySorted lt s /\
  Forall (fun i => (first <= i)%nat /\ selectedBy select i) s.

Lemma addProperty_members (st st' : Builder) (i : nat) :
  addProperty st i = Some st' ->
  b_methods st !! i = None \/
  exists folded, b_members st' = (b_members st ++ [i :: folded])%list.
Proof.
  unfold addProperty. destruct (b_methods st !! i) as [meth|]; [|by left].
  destruct (searchForRepeatedMethods _ _ _) as [[methods' searched] r].
  destruct (findAllMatches _ _ _ _ _ _) as [fs|]; simpl; [|done].
  intros [= <-]. right. simpl. eauto.
Qed.

Lemma sweepStep_seeds (select : MethodAttributes -> bool)
    (st : Builder) (i : nat) :
  (forall m, select (MA.withRepeat m) = select m) ->
  BInv st ->
  exists st' new,
    sweepStep select st i = Some st' /\ BInv st' /\
    seeds st' = (seeds st ++ new)%list /\
    (new = [] \/ (new = [i] /\ selectedBy select i)).
Proof.
  intros Hsel Hinv. unfold sweepStep.
  assert (Hsame : exists st' new,
             Some st = Some st' /\ BInv st' /\
             seeds st' = (seeds st ++ new)%list /\
             (new = [] \/ (new = [i] /\ selectedBy select i))).
  { exists st, []. rewrite app_nil_r. auto. }
  destruct (b_matched st !! i) as [[]|] eqn:Hi; [done| |done].
  destruct (b_methods st !! i) as [meth|] eqn:Hmeth; [|done].
  destruct (select meth) eqn:Hs; [|done].
  destruct (addProperty_inv st i Hinv Hi) as (st' & Hrun & Hinv').
  destruct (addProperty_members st st' i Hrun) as [Hnone|[folded Hmem]];
    [congruence|].
  exists st', [i]. split; [done|]. split; [done|]. split.
  - unfold seeds. by rewrite Hmem, map_app.
  - right. split; [done|].
    destruct (facts_lookup _ _ i meth (binv_facts _ Hinv) Hmeth)
      as (m' & Hm' & Heq).
    exists m'. split; [done|]. by rewrite <- Hsel, <- Heq, Hsel.
Qed.

Lemma sweep_from_seeds (select : MethodAttributes -> bool)
    (k a : nat) (st : Builder) :
  (forall m, select (MA.withRepeat m) = select m) ->
  BInv st ->
  exists st' new,
    foldlM (sweepStep select) st (seq a k) = Some st' /\ BInv st' /\
    seeds st' = (seeds st ++ new)%list /\ sweepSegment select a new.
Proof.
  intros Hsel. revert a st. induction k as [|k IH]; intros a st Hinv; simpl.
  - exists st, []. rewrite app_nil_r.
    split; [done|]. split; [done|]. split; [done|].
    split; constructor.
  - destruct (sweepStep_seeds select st a Hsel Hinv)
      as (st1 & new1 & -> & Hinv1 & Hseeds1 & Hnew1). simpl.
    destruct (IH (S a) st1 Hinv1) as (st2 & new2 & -> & Hinv2 & Hseeds2 & Hss & Hall).
    exists st2, (new1 ++ new2)%list. split; [done|]. split; [done|].
    split; [by rewrite Hseeds2, Hseeds1, app_assoc|].
    destruct Hnew1 as [-> | [-> Hselected]]; simpl.
    + split; [done|]. eapply Forall_impl; [done|].
      intros i [? ?]. split; [lia | done].
    + split.
      * constructor; [done|]. eapply Forall_impl; [done|].
        intros i [? ?]. lia.
      * constructor; [split; [lia | done]|].
        eapply Forall_impl; [done|]. intros i [? ?]. split; [lia | done].
Qed.

Lemma sweep_seeds (select : MethodAttributes -> bool) (st : Builder) :
  (forall m, select (MA.withRepeat m) = select m) ->
  BInv st ->
  exists st' new,
    sweep select st = Some st' /\ BInv st' /\
    seeds st' = (seeds st ++ new)%list /\ sweepSegment select 0 new.
Proof. intros Hsel Hinv. by apply sweep_from_seeds. Qed.

(** The five sweeps, one after the other. *)
Definition sweepOrder (st : Builder) : Prop :=
  exists s1 s2 s3 s4 s5,
    seeds st = (s1 ++ s2 ++ s3 ++ s4 ++ s5)%list /\
    sweepSegment selectSet 0 s1 /\
    sweepSegment selectSetNumberOf 0 s2 /\
    sweepSegment selectGet 0 s3 /\
    sweepSegment selectGetNumberOf 0 s4 /\
    sweepSegment selectAdd 0 s5.

End Builder.

Lemma select_withRepeat :
  (forall m, selectSet (MA.withRepeat m) = selectSet m) /\
  (forall m, selectSetNumberOf (MA.withRepeat m) = selectSetNumberOf m) /\
  (forall m, selectGet (MA.withRepeat m) = selectGet m) /\
  (forall m, selectGetNumberOf (MA.withRepeat m) = selectGetNumberOf m) /\
  (forall m, selectAdd (MA.withRepeat m) = selectAdd m).
Proof. repeat split; intros []; reflexivity. Qed.

Lemma sweepOrder_facts (facts facts' : list MethodAttributes)
    (st : Builder) :
  map MA.withRepeat facts = map MA.withRepeat facts' ->
  sweepOrder facts st -> sweepOrder facts' st.
Proof.
  intros Heq (s1 & s2 & s3 & s4 & s5 & Hs & H1 & H2 & H3 & H4 & H5).
  assert (Hseg : forall select first s,
             (forall m, select (MA.withRepeat m) = select m) ->
             sweepSegment facts select first s ->
             sweepSegment facts' select first s).
  { intros select first s Hsel [Hsorted Hall]. split; [done|].
    eapply Forall_impl; [done|]. intros i [Hi (m & Hm & Hsm)].
    split; [done|].
    destruct (facts_lookup _ _ i m Heq Hm) as (m' & Hm' & Hmm).
    exists m'. split; [done|]. by rewrite <- Hsel, <- Hmm, Hsel. }
  destruct select_withRepeat as (S1 & S2 & S3 & S4 & S5).
  exists s1, s2, s3, s4, s5. split; [exact Hs|].
  split; [exact (Hseg _ _ _ S1 H1)|]. split; [exact (Hseg _ _ _ S2 H2)|].
  split; [exact (Hseg _ _ _ S3 H3)|].
  split; [exact (Hseg _ _ _ S4 H4) | exact (Hseg _ _ _ S5 H5)].
Qed.

(** Every method that has a property shape has a category. *)
Definition wellNamed (m : MethodAttributes) : Prop :=
  MA.HasProperty m = true -> named m = true.

Lemma lookup_initialMatched (methods : list MethodAttributes) (i : nat) :
  initialMatched methods !! i
  = (fun m => negb (MA.HasProperty m) || MA.IsRepeat m) <$> methods !! i.
Proof. apply lookup_map. Qed.

Lemma categorizeProperties_inv
    (methods : list MethodAttributes) (properties : ClassProperties) :
  Forall wellNamed methods ->
  dominated methods ->
  length (CP.MethodTypes properties) = length methods ->
  length (CP.MethodProperties properties) = length methods ->
  Forall (inRange 0) (CP.MethodProperties properties) ->
  Forall2 coherent (CP.MethodTypes properties)
                   (CP.MethodProperties properties) ->
  exists st, categorizeProperties methods properties = Some st /\
             BInv methods st /\ sweepOrder methods st.
Proof.
  intros Hnamed Hdom Hlt Hlp Hrange Hcoh. unfold categorizeProperties.
  set (st0 := mkBuilder _ _ _ _).
  assert (H0 : BInv methods st0).
  { constructor; simpl; try done.
    - unfold initialMatched. by rewrite length_map.
    - intros i m Hi Hm. rewrite lookup_initialMatched, Hm in Hi.
      simpl in Hi. injection Hi as Hi.
      apply orb_false_elim in Hi as [Hp _].
      assert (MA.HasProperty m = true) by (by destruct (MA.HasProperty m)).
      split; [done|].
      apply methodCategory_nonzero.
      eapply Forall_lookup_1 in Hnamed; [|done].
      by apply Hnamed.
    - apply NoDup_nil_2.
    - intros j Hj. by apply elem_of_nil in Hj. }
  destruct select_withRepeat as (S1 & S2 & S3 & S4 & S5).
  destruct (sweep_seeds _ selectSet st0 S1 H0)
    as (st1 & s1 & -> & H1 & E1 & G1). simpl.
  destruct (sweep_seeds _ selectSetNumberOf st1 S2 H1)
    as (st2 & s2 & -> & H2 & E2 & G2). simpl.
  destruct (sweep_seeds _ selectGet st2 S3 H2)
    as (st3 & s3 & -> & H3 & E3 & G3). simpl.
  destruct (sweep_seeds _ selectGetNumberOf st3 S4 H3)
    as (st4 & s4 & -> & H4 & E4 & G4). simpl.
  destruct (sweep_seeds _ selectAdd st4 S5 H4)
    as (st5 & s5 & -> & H5 & E5 & G5).
  exists st5. split; [reflexivity|]. split; [exact H5|].
  exists s1, s2, s3, s4, s5.
  split; [|exact (conj G1 (conj G2 (conj G3 (conj G4 G5))))].
  rewrite E5, E4, E3, E2, E1. simpl. by rewrite <- !app_assoc.
Qed.

(** ** The extractor's pass *)

(** The attributes that the extractor computes for the methods, before
    any repeat is marked. *)
Definition extracted (data : ClassInfo) : list MethodAttributes :=
  map (fun func => (getMethodAttributes func).2) data.

Lemma categorizeMethod_facts
    (methods : list MethodAttributes) (func : FunctionInfo) :
  map MA.withRepeat (categorizeMethod methods func)
  = (map MA.withRepeat methods
     ++ [MA.withRepeat (getMethodAttributes func).2])%list.
Proof.
  unfold categorizeMethod.
  destruct (getMethodAttributes func) as [converted attrs]. simpl.
  destruct converted.
  - rewrite (proj1 (searchForRepeatedMethods_keeps None _ _)).
    by rewrite map_app.
  - by rewrite map_app.
Qed.

Lemma fold_categorizeMethod_facts
    (data : ClassInfo) (methods : list MethodAttributes) :
  map MA.withRepeat (fold_left categorizeMethod data methods)
  = (map MA.withRepeat methods ++ map MA.withRepeat (extracted data))%list.
Proof.
  revert methods. induction data as [|func data IH]; intros methods; simpl.
  - by rewrite app_nil_r.
  - rewrite IH, categorizeMethod_facts, <- app_assoc. done.
Qed.

(** The resolver changes nothing but [IsRepeat] flags. *)
Lemma categorizePropertyMethods_facts (data : ClassInfo) :
  map MA.withRepeat (categorizePropertyMethods data)
  = map MA.withRepeat (extracted data).
Proof. apply (fold_categorizeMethod_facts data []). Qed.

Lemma categorizePropertyMethods_wellNamed (data : ClassInfo) :
  Forall wellNamed (categorizePropertyMethods data).
Proof.
  apply Forall_lookup. intros i m Hm.
  destruct (facts_lookup _ _ i m (categorizePropertyMethods_facts data) Hm)
    as (m' & Hm' & Heq).
  unfold extracted in Hm'. rewrite lookup_map in Hm'.
  destruct (data !! i) as [func|]; [|discriminate Hm'].
  injection Hm' as <-.
  unfold wellNamed.
  change (MA.HasProperty (MA.withRepeat m) = true ->
          named (MA.withRepeat m) = true).
  rewrite Heq. apply getMethodAttributes_named.
Qed.

Lemma getMethodAttributes_IsRepeat (func : FunctionInfo) :
  MA.IsRepeat (getMethodAttributes func).2 = false.
Proof.
  unfold getMethodAttributes, getterByReturn, byArgument, multiValue,
    noArguments.
  repeat match goal with
         | |- context [if ?b then _ else _] => destruct b eqn:?
         end; reflexivity.
Qed.

Lemma categorizeMethod_dominated
    (methods : list MethodAttributes) (func : FunctionInfo) :
  dominated methods -> dominated (categorizeMethod methods func).
Proof.
  intros Hdom. unfold categorizeMethod.
  pose proof (getMethodAttributes_IsRepeat func) as Hrep.
  destruct (getMethodAttributes func) as [converted attrs]. simpl in Hrep.
  assert (Happ : dominated (methods ++ [attrs])).
  { intros j m Hj Hm.
    destruct (decide (j < length methods)%nat) as [Hlt|Hge].
    - rewrite lookup_app_l in Hj by done.
      destruct (Hdom j m Hj Hm) as (i & m' & Hij & Hi & Hs & Hy).
      exists i, m'. split; [done|]. split; [|done].
      rewrite lookup_app_l; [done|]. by eapply lookup_lt_Some.
    - rewrite lookup_app_r in Hj by lia.
      destruct (j - length methods)%nat; simpl in Hj; [|done].
      injection Hj as <-. congruence. }
  destruct converted; [|done].
  by apply searchForRepeatedMethods_dominated.
Qed.

Lemma categorizePropertyMethods_dominated (data : ClassInfo) :
  dominated (categorizePropertyMethods data).
Proof.
  unfold categorizePropertyMethods.
  assert (H : forall methods, dominated methods ->
                dominated (fold_left categorizeMethod data methods)).
  { induction data as [|func data IH]; intros methods Hm; simpl; [done|].
    by apply IH, categorizeMethod_dominated. }
  apply H. intros j m Hj. by rewrite lookup_nil in Hj.
Qed.

(** The synthesizer returns a result for every class, and the result
    satisfies the invariant of the builder. *)
Lemma synthesize_inv (data : ClassInfo) :
  exists st, synthesize data = Some st /\ BInv (extracted data) st /\
             sweepOrder (extracted data) st.
Proof.
  unfold synthesize.
  destruct (categorizeProperties_inv (categorizePropertyMethods data)
              (CP.mk [] (replicate (length (categorizePropertyMethods data)) 0)
                        (replicate (length (categorizePropertyMethods data))
                                   (-1))))
    as (st & Hrun & Hinv & Horder); simpl.
  - apply categorizePropertyMethods_wellNamed.
  - apply categorizePropertyMethods_dominated.
  - apply length_replicate.
  - apply length_replicate.
  - apply Forall_replicate. by left.
  - apply Forall2_replicate. done.
  - exists st. split; [done|]. split.
    + destruct Hinv. constructor; try done.
      * by rewrite binv_facts0, categorizePropertyMethods_facts.
      * eapply Forall2_impl; [exact binv_static0|].
        intros p members ->. simpl.
        apply facts_existsb_static, categorizePropertyMethods_facts.
      * eapply Forall2_impl; [exact binv_constants0|].
        intros p members H. simpl in *. rewrite H.
        apply facts_collectedTails, categorizePropertyMethods_facts.
      * intros j Hj. destruct (binv_taken0 j Hj) as [Hjm Hjp].
        split; [done|].
        by rewrite <- (facts_hasPropertyAt _ _ j
                        (categorizePropertyMethods_facts data)).
    + eapply sweepOrder_facts; [|done].
      apply categorizePropertyMethods_facts.
Qed.

(** * The claims of the specification *)

(** ** Scenario 1 *)

(** C1. For the public, non-legacy, non-static class with exactly the
    methods [void SetRadius(double)] and [double GetRadius()], in either
    order of declaration, the synthesizer produces exactly one property:
    it is named [Radius], has value type [double] and count 0, its
    [PublicMethods] is [BASIC_SET | BASIC_GET], and the [MethodProperties]
    entries of both methods are the index 0 of that property. *)
Theorem radius_scenario (c1 c2 : option string) :
  vtkParseProperties_Create (Scenario.radius c1 c2)
  = Some (CP.mk [Scenario.radiusProperty c1]
                [VTK_METHOD_BASIC_SET; VTK_METHOD_BASIC_GET] [0; 0]) /\
  vtkParseProperties_Create (rev (Scenario.radius c1 c2))
  = Some (CP.mk [Scenario.radiusProperty c1]
                [VTK_METHOD_BASIC_GET; VTK_METHOD_BASIC_SET] [0; 0]).
Proof. split; vm_compute; reflexivity. Qed.

(** ** Invariants of the result *)

(** C3. For every class the synthesizer returns a result with one
    [MethodProperties] entry per method, and every entry is -1 or an
    index into the produced property list, that is an integer in
    [[0, NumberOfProperties)].  No method is a member of more than one
    property: the member lists of the properties (seed and folded-in
    methods) have no index in common, nor one twice. *)
Theorem method_property_valid (data : ClassInfo) :
  exists st,
    synthesize data = Some st /\
    vtkParseProperties_Create data = Some (b_properties st) /\
    length (CP.MethodProperties (b_properties st)) = length data /\
    Forall (fun v =>
              v = -1 \/
              0 <= v < Z.of_nat (CP.NumberOfProperties (b_properties st)))
           (CP.MethodProperties (b_properties st)) /\
    NoDup (concat (b_members st)).
Proof.
  destruct (synthesize_inv data) as (st & Hrun & Hinv & Horder).
  exists st. split; [done|]. split.
  { unfold vtkParseProperties_Create. by rewrite Hrun. }
  split.
  { rewrite (binv_props _ _ Hinv).
    rewrite (facts_length _ _ (binv_facts _ _ Hinv)).
    unfold extracted. by rewrite length_map. }
  split; [apply (binv_range _ _ Hinv) | apply (binv_nodup _ _ Hinv)].
Qed.

Lemma getMethodAttributes_IsStatic (func : FunctionInfo) :
  MA.IsStatic (getMethodAttributes func).2 = isStaticMethod func.
Proof.
  unfold getMethodAttributes, getterByReturn, byArgument, multiValue,
    noArguments.
  repeat match goal with
         | |- context [if ?b then _ else _] => destruct b eqn:?
         end; reflexivity.
Qed.

Lemma staticAt_extracted (data : ClassInfo) (i : nat) :
  staticAt (extracted data) i = true <->
  exists func, data !! i = Some func /\ isStaticMethod func = true.
Proof.
  unfold staticAt, extracted. rewrite lookup_map.
  destruct (data !! i) as [func|]; simpl.
  - rewrite getMethodAttributes_IsStatic. split; [eauto|].
    by intros (f & [= <-] & H).
  - split; [done | by intros (f & ? & _)].
Qed.

(** C7. For every class and every produced property, [IsStatic] is true
    if and only if at least one member method of the property, the seed
    or a method folded in by [findAllMatches], is static. *)
Theorem property_static_iff_member_static (data : ClassInfo) :
  exists st,
    synthesize data = Some st /\
    Forall2
      (fun property members =>
         PI.IsStatic property = true <->
         exists i func, i ∈ members /\ data !! i = Some func /\
                        isStaticMethod func = true)
      (CP.Properties (b_properties st)) (b_members st).
Proof.
  destruct (synthesize_inv data) as (st & Hrun & Hinv & Horder).
  exists st. split; [done|].
  eapply Forall2_impl; [apply (binv_static _ _ Hinv)|].
  intros p members ->. simpl. rewrite existsb_exists. split.
  - intros (i & Hi & Hs). apply staticAt_extracted in Hs as (f & Hf & Hs).
    exists i, f. by rewrite list_elem_of_In.
  - intros (i & f & Hi & Hf & Hs). exists i. split.
    + by rewrite <- list_elem_of_In.
    + apply staticAt_extracted. eauto.
Qed.

(** ** Indexing detection *)

Lemma getMethodAttributes_IsIndexed (func : FunctionInfo) :
  MA.IsIndexed (getMethodAttributes func).2
  = if isNull (FI.Name func) || FI.ArrayFailure func || FI.IsOperator func
    then false
    else indexedMethod func.
Proof.
  unfold getMethodAttributes, getterByReturn, byArgument, multiValue,
    noArguments.
  repeat match goal with
         | |- context [if ?b then _ else _] => destruct b eqn:?
         end; reflexivity.
Qed.

(** The claim C4 fails for [void SetNumberOfPoints(int, int)]: the first
    argument is a non-indirect [int], the return is [void], there are
    two arguments, the second has the type of the index and the method
    is recognized as [SetNumberOf...]; yet it is marked indexed. *)
Lemma setNumberOf_marked_indexed :
  let func := Scenario.setNumberOfPoints in
  vtkParse_BaseType (argType func 0) = VTK_PARSE_INT /\
  vtkParse_TypeIsIndirect (argType func 0) = false /\
  isVoidType (FI.ReturnType func) = true /\
  FI.NumberOfArguments func = 2%nat /\
  argType func 1 = argType func 0 /\
  isSetNumberOfMethod (FI.Name func) = true /\
  MA.IsIndexed (getMethodAttributes func).2 = true.
Proof. vm_compute. repeat split. Qed.

(** C4, amended.  For a method that passes the first checks of the
    extractor (it has a name, no array failure, and is no operator),
    whose first argument is a non-indirect [int] or id-type, whose return
    is [void] and which has exactly two arguments: if it is not
    recognized as [SetNumberOf...], it is marked indexed exactly when the
    type of the second argument differs from the type of the index; if it
    is recognized as [SetNumberOf...], it is marked indexed. *)
Theorem indexed_with_two_arguments (func : FunctionInfo) :
  isNull (FI.Name func) = false ->
  FI.ArrayFailure func = false ->
  FI.IsOperator func = false ->
  vtkParse_BaseType (argType func 0) = VTK_PARSE_INT \/
  vtkParse_BaseType (argType func 0) = VTK_PARSE_ID_TYPE ->
  vtkParse_TypeIsIndirect (argType func 0) = false ->
  isVoidType (FI.ReturnType func) = true ->
  FI.NumberOfArguments func = 2%nat ->
  MA.IsIndexed (getMethodAttributes func).2
  = if isSetNumberOfMethod (FI.Name func)
    then true
    else negb (argType func 1 =? argType func 0).
Proof.
  intros Hname Hfail Hop Hbase Hind Hvoid Hn.
  rewrite getMethodAttributes_IsIndexed, Hname, Hfail, Hop. simpl.
  unfold indexedMethod, allSameArgTypes. rewrite Hn, Hind, Hvoid. simpl.
  assert (Hb : (vtkParse_BaseType (argType func 0) =? VTK_PARSE_INT)
               || (vtkParse_BaseType (argType func 0) =? VTK_PARSE_ID_TYPE)
               = true).
  { destruct Hbase as [-> | ->]; reflexivity. }
  rewrite Hb. simpl. rewrite Z.eqb_refl, andb_true_r. simpl.
  by destruct (isSetNumberOfMethod (FI.Name func)).
Qed.

Lemma indexed_with_two_arguments_witness :
  MA.IsIndexed (getMethodAttributes Scenario.setValueAt).2 = true.
Proof.
  rewrite (indexed_with_two_arguments Scenario.setValueAt);
    [reflexivity | reflexivity | reflexivity | reflexivity
    | left; reflexivity | reflexivity | reflexivity | reflexivity].
Defined.

(** ** Promotion of boolean, enumerated and [AsString] methods *)

(** What the extractor records for a boolean or enumerated method. *)
Lemma getMethodAttributes_boolean_enumerated (func : FunctionInfo) :
  MA.IsBoolean (getMethodAttributes func).2
  || MA.IsEnumerated (getMethodAttributes func).2 = true ->
  MA.Type_ (getMethodAttributes func).2 = VTK_PARSE_VOID /\
  MA.IsMultiValue (getMethodAttributes func).2 = false /\
  (isBooleanMethod (FI.Name func) = true \/
   isEnumeratedMethod (FI.Name func) = true) /\
  MA.Name (getMethodAttributes func).2 = FI.Name func.
Proof.
  unfold getMethodAttributes, getterByReturn, byArgument, multiValue,
    noArguments.
  repeat match goal with
         | |- context [if ?b then _ else _] => destruct b eqn:?
         end; simpl; intros H; try discriminate; auto.
Qed.

Lemma isBooleanMethod_not_RemoveAll (name : option string) :
  isBooleanMethod name = true -> isRemoveAllMethod name = false.
Proof.
  destruct name as [s|]; [|done]. unfold isBooleanMethod, isRemoveAllMethod.
  intros Hb. destruct (isRemoveMethod (Some s)); [|done].
  destruct (s@@(strlen s - 1) =c "s") eqn:Hs.
  - apply Ascii.eqb_eq in Hs. rewrite Hs in Hb. simpl in Hb.
    by rewrite !andb_false_r in Hb.
  - by rewrite !andb_false_r.
Qed.

Lemma isSetMethod_not_Remove (name : option string) :
  isSetMethod name = true -> isRemoveMethod name = false.
Proof.
  destruct name as [s|]; [|done]. unfold isSetMethod, isRemoveMethod.
  intros H. destruct (s@@0 =c "S") eqn:Hs; [|done].
  apply Ascii.eqb_eq in Hs. by rewrite Hs.
Qed.

Lemma isEnumeratedMethod_not_RemoveAll (name : option string) :
  isEnumeratedMethod name = true -> isRemoveAllMethod name = false.
Proof.
  intros H%isEnumeratedMethod_isSet%isSetMethod_not_Remove.
  unfold isRemoveAllMethod. destruct name; [|done]. by rewrite H.
Qed.

(** The claim C5 fails in three ways.  The enumerated setter
    [SetModeToFast()] and the property [Mode] of type [bool] pass the name
    tests and have equal counts, and [bool] is in the set of the claim,
    yet the matcher returns false: [bool] is accepted for a boolean
    method only.  The getter [double GetModeAsString()] and the property
    [Mode] of type [int] pass the name tests and have equal counts, and
    [int] is in the set, yet the matcher returns false: the value type of
    a [GetAsString] getter is unified only when the getter returns a
    [char *].  The getter [char *GetNameAsString()] matches the property
    [Name] of type [char *], a type outside the set: the matcher does not
    return false when the two types are equal already. *)
Lemma promotion_not_as_claimed :
  (MA.IsEnumerated Scenario.setModeToFast = true /\
   PI.Type_ Scenario.modeProperty = VTK_PARSE_BOOL /\
   nameMatches Scenario.modeProperty Scenario.setModeToFast = true /\
   MA.Count Scenario.setModeToFast = PI.Count Scenario.modeProperty /\
   (methodMatchesProperty Scenario.modeProperty Scenario.setModeToFast).1
   = false) /\
  (isAsStringMethod (MA.Name Scenario.getModeAsString) = true /\
   PI.Type_ Scenario.modeIntProperty = VTK_PARSE_INT /\
   nameMatches Scenario.modeIntProperty Scenario.getModeAsString = true /\
   MA.Count Scenario.getModeAsString = PI.Count Scenario.modeIntProperty /\
   (methodMatchesProperty Scenario.modeIntProperty
      Scenario.getModeAsString).1 = false) /\
  (isAsStringMethod (MA.Name Scenario.getNameAsString) = true /\
   PI.Type_ Scenario.nameProperty = Z.lor VTK_PARSE_CHAR VTK_PARSE_POINTER /\
   vtkParse_TypeIsIndirect (PI.Type_ Scenario.nameProperty) = true /\
   (methodMatchesProperty Scenario.nameProperty
      Scenario.getNameAsString).1 = true).
Proof. vm_compute. repeat split. Qed.

(** The matcher returns true when the tests on the names pass and the
    tests on the types pass. *)
Lemma methodMatchesProperty_stages
    (property : PropertyInfo) (meth : MethodAttributes) :
  (methodMatchesProperty property meth).1
  = nameMatches property meth && typesMatch property meth.
Proof.
  unfold methodMatchesProperty, nameMatches.
  destruct (nameWithoutPrefix (MA.Name meth)); [|done].
  destruct (PI.Name property); [|done].
  destruct (longMatchAndName meth _ _) as [longMatch name].
  destruct (strncmp_eq _ _ _); [|done].
  by destruct (isValidSuffix _ _ _).
Qed.

(** The qualifiers are above the indirection in a type code. *)
Lemma stripQualifiers_indirection (t : Z) :
  vtkParse_TypeIndirection (stripQualifiers t) = vtkParse_TypeIndirection t.
Proof.
  unfold stripQualifiers, vtkParse_TypeIndirection.
  destruct (vtkParse_TypeHasQualifier t); [|done].
  by rewrite <- Z.land_assoc.
Qed.

Lemma removeRef_plain (t : Z) :
  vtkParse_TypeIndirection t = 0 -> removeRef t = t.
Proof. unfold removeRef. by intros ->. Qed.

Lemma removeRef_ref (t : Z) :
  vtkParse_TypeIndirection t = VTK_PARSE_REF ->
  vtkParse_TypeIndirection (removeRef t) = 0.
Proof.
  unfold removeRef. intros ->. simpl. unfold vtkParse_TypeIndirection.
  by rewrite <- Z.land_assoc, Z.land_0_r.
Qed.

(** The type of a multi-valued method that the extractor accepts is
    either not indirect or a reference. *)
Lemma getMethodAttributes_multiValue (func : FunctionInfo) :
  MA.IsMultiValue (getMethodAttributes func).2 = true ->
  vtkParse_TypeIndirection (MA.Type_ (getMethodAttributes func).2) = 0 \/
  vtkParse_TypeIndirection (MA.Type_ (getMethodAttributes func).2)
  = VTK_PARSE_REF.
Proof.
  unfold getMethodAttributes, getterByReturn, byArgument, multiValue,
    noArguments.
  repeat match goal with
         | |- context [if ?b then _ else _] => destruct b eqn:?
         end; simpl; intros H; try discriminate H;
    repeat match goal with
           | H : (_ && _) = true |- _ => apply andb_prop in H as [? ?]
           end.
  all: unfold vtkParse_TypeIsIndirect, vtkParse_TypeIndirection in *.
  all: first
    [ left;
      by destruct (Z.eqb_spec (Z.land (argType func 0) VTK_PARSE_INDIRECT) 0)
    | right; by apply Z.eqb_eq ].
Qed.

(** The extractor's attributes always have a type that the matcher can
    normalize: the [return 0] for a multi-valued method of line 855 is
    never reached. *)
Lemma multiValueType_Some (func : FunctionInfo) :
  let meth := (getMethodAttributes func).2 in
  exists methType,
    multiValueType meth (removeRef (stripQualifiers (MA.Type_ meth)))
    = Some methType.
Proof.
  intros meth. subst meth. unfold multiValueType.
  destruct (MA.IsMultiValue _) eqn:Hm; [|eauto].
  destruct (getMethodAttributes_multiValue func Hm) as [H0|Href].
  - rewrite removeRef_plain by (by rewrite stripQualifiers_indirection).
    rewrite stripQualifiers_indirection, H0. simpl. eauto.
  - rewrite removeRef_ref by (by rewrite stripQualifiers_indirection).
    simpl. eauto.
Qed.

(** For a candidate of the promotion the matcher takes none of its early
    returns, and the type it compares is not that of a vtkObject. *)
Lemma promotable_typesMatch
    (func : FunctionInfo) (property : PropertyInfo) (methType : Z) :
  let meth := (getMethodAttributes func).2 in
  multiValueType meth (removeRef (stripQualifiers (MA.Type_ meth)))
  = Some methType ->
  promotable meth methType = true ->
  typesMatch property meth
  = typeAndCountMatch property meth
      (promoteType meth methType (PI.Type_ property)) /\
  (vtkParse_BaseType methType =? VTK_PARSE_VTK_OBJECT) = false.
Proof.
  intros meth Hty Hp.
  destruct (MA.IsBoolean meth || MA.IsEnumerated meth) eqn:Hbe.
  - destruct (getMethodAttributes_boolean_enumerated func Hbe)
      as (Hvoid & Hmv & Hname & HN).
    fold meth in Hvoid, Hmv, HN.
    assert (Hra : isRemoveAllMethod (MA.Name meth) = false).
    { rewrite HN. destruct Hname as [H|H];
        [by apply isBooleanMethod_not_RemoveAll
        | by apply isEnumeratedMethod_not_RemoveAll]. }
    unfold multiValueType in Hty. rewrite Hmv, Hvoid in Hty.
    injection Hty as <-.
    split; [|reflexivity].
    unfold typesMatch. rewrite Hvoid, Hra. simpl.
    change (stripQualifiers VTK_PARSE_VOID) with VTK_PARSE_VOID.
    rewrite !andb_false_r. simpl.
    change (removeRef VTK_PARSE_VOID) with VTK_PARSE_VOID.
    unfold multiValueType. by rewrite Hmv.
  - unfold promotable in Hp.
    apply orb_false_elim in Hbe as [Hb He]. rewrite Hb, He in Hp.
    simpl in Hp. apply andb_prop in Hp as [Hp Hind].
    apply andb_prop in Hp as [Has Hbase].
    apply Z.eqb_eq in Hbase. split; [|by rewrite Hbase].
    assert (Hplain : forall c,
               stripQualifiers (MA.Type_ meth) = c ->
               (c =? VTK_PARSE_VOID) || (c =? VTK_PARSE_INT)
               || (c =? VTK_PARSE_ID_TYPE) = false).
    { intros c Hc. rewrite Hc in Hty.
      destruct (Z.eqb_spec c VTK_PARSE_VOID) as [->|];
        [|destruct (Z.eqb_spec c VTK_PARSE_INT) as [->|];
          [|destruct (Z.eqb_spec c VTK_PARSE_ID_TYPE) as [->|]; [|done]]];
        unfold multiValueType in Hty;
        destruct (MA.IsMultiValue meth); simpl in Hty;
        injection Hty as <-; discriminate Hbase. }
    specialize (Hplain _ eq_refl).
    apply orb_false_elim in Hplain as [Hplain Hid].
    apply orb_false_elim in Hplain as [Hv Hi].
    unfold typesMatch. rewrite Hv, Hi, Hid. simpl.
    rewrite !andb_false_r. simpl. by rewrite Hty.
Qed.

(** C5, amended.  In the matcher, let the candidate be a method as the
    extractor describes it that is boolean or enumerated, or is a
    [GetAsString] getter whose own type, as the matcher normalizes it, is
    [char *].  Its value type is made equal to the property's value type
    if and only if the property's value type is not indirect and is
    [int], [unsigned int] or [unsigned char], or is [bool] and the method
    is boolean, or the two types are equal already.  The matcher then
    proceeds to the comparison of the types and of the counts, and it
    returns true exactly when the tests on the names have passed, the
    counts are equal, and the value type was made equal to the
    property's or was equal to it already. *)
Theorem promotion_rule (func : FunctionInfo) (property : PropertyInfo) :
  let meth := (getMethodAttributes func).2 in
  let propertyType := PI.Type_ property in
  exists methType,
    multiValueType meth (removeRef (stripQualifiers (MA.Type_ meth)))
    = Some methType /\
    (MA.IsBoolean meth || MA.IsEnumerated meth ||
     (isAsStringMethod (MA.Name meth) &&
      (vtkParse_BaseType methType =? VTK_PARSE_CHAR) &&
      (vtkParse_TypeIndirection methType =? VTK_PARSE_POINTER)) = true ->
     let accepted :=
       negb (vtkParse_TypeIsIndirect propertyType) &&
       ((propertyType =? VTK_PARSE_INT) ||
        (propertyType =? VTK_PARSE_UNSIGNED_INT) ||
        (propertyType =? VTK_PARSE_UNSIGNED_CHAR) ||
        (MA.IsBoolean meth && (propertyType =? VTK_PARSE_BOOL))) in
     (promoteType meth methType propertyType = propertyType <->
      accepted = true \/ methType = propertyType) /\
     (methodMatchesProperty property meth).1
     = nameMatches property meth &&
       (MA.Count meth =? PI.Count property) &&
       (accepted || (methType =? propertyType))).
Proof.
  intros meth propertyType.
  destruct (multiValueType_Some func) as (methType & Hty).
  fold meth in Hty. exists methType. split; [done|].
  intros Hkind accepted.
  destruct (promotable_typesMatch func property methType Hty Hkind)
    as [Htm Hobj].
  fold meth propertyType in Htm.
  rewrite methodMatchesProperty_stages, Htm.
  unfold promoteType. fold propertyType.
  change (promotable meth methType) with
    (MA.IsBoolean meth || MA.IsEnumerated meth ||
     (isAsStringMethod (MA.Name meth) &&
      (vtkParse_BaseType methType =? VTK_PARSE_CHAR) &&
      (vtkParse_TypeIndirection methType =? VTK_PARSE_POINTER))).
  rewrite Hkind.
  change (promotionTarget meth propertyType) with accepted.
  unfold typeAndCountMatch. fold propertyType.
  destruct accepted eqn:Hacc.
  - split; [by split; [left|]|].
    rewrite Z.eqb_refl. simpl.
    assert (Hbase : (vtkParse_BaseType propertyType =? VTK_PARSE_VTK_OBJECT)
                    = false).
    { subst accepted. apply andb_prop in Hacc as [_ Hacc].
      repeat (apply orb_prop in Hacc as [Hacc|Hacc]);
        try (apply andb_prop in Hacc as [_ Hacc]);
        apply Z.eqb_eq in Hacc; by rewrite Hacc. }
    rewrite Hbase.
    destruct (MA.Count meth =? PI.Count property);
      by rewrite ?andb_true_r, ?andb_false_r.
  - split.
    + split; [by right | by intros [|]].
    + simpl. rewrite Hobj.
      destruct (Z.eqb_spec methType propertyType);
        destruct (MA.Count meth =? PI.Count property);
        by rewrite ?andb_true_r, ?andb_false_r.
Qed.

Lemma promotion_rule_witness :
  (methodMatchesProperty Scenario.modeProperty Scenario.modeOn).1 = true.
Proof.
  destruct (promotion_rule (Scenario.method "ModeOn" VTK_PARSE_VOID [])
              Scenario.modeProperty) as (methType & Hty & H).
  injection Hty as <-.
  destruct (H eq_refl) as [_ Hmatch].
  etrans; [exact Hmatch | reflexivity].
Defined.

(** [promoteType] assigns exactly when [unified] says so. *)
Lemma promoteType_unified (meth : MethodAttributes) (methType propertyType : Z) :
  promoteType meth methType propertyType
  = if unified meth methType propertyType then propertyType else methType.
Proof.
  unfold promoteType, unified.
  by destruct (promotable meth methType), (promotionTarget meth propertyType).
Qed.

(** X1. For the boolean and enumerated methods that the extractor produces,
    whose own type is [void], a failed promotion makes the whole matcher
    return false, whatever the names, on every property whose type is not
    [void]. *)
Lemma promotion_failure_no_match
    (func : FunctionInfo) (property : PropertyInfo) :
  let meth := (getMethodAttributes func).2 in
  MA.IsBoolean meth || MA.IsEnumerated meth = true ->
  unified meth VTK_PARSE_VOID (PI.Type_ property) = false ->
  PI.Type_ property <> VTK_PARSE_VOID ->
  (methodMatchesProperty property meth).1 = false.
Proof.
  intros meth Hbe Hun Hne.
  destruct (getMethodAttributes_boolean_enumerated func Hbe)
    as (Hty & Hmv & Hname & HN).
  fold meth in Hty, Hmv, HN.
  assert (Hra : isRemoveAllMethod (MA.Name meth) = false).
  { rewrite HN. destruct Hname as [H|H];
      [by apply isBooleanMethod_not_RemoveAll
      | by apply isEnumeratedMethod_not_RemoveAll]. }
  assert (Htm : typesMatch property meth = false).
  { unfold typesMatch. rewrite Hty, Hra. simpl.
    change (stripQualifiers VTK_PARSE_VOID) with VTK_PARSE_VOID.
    rewrite !andb_false_r. simpl.
    change (removeRef VTK_PARSE_VOID) with VTK_PARSE_VOID.
    unfold multiValueType. rewrite Hmv.
    unfold promoteType. unfold unified in Hun.
    destruct (promotable meth VTK_PARSE_VOID); simpl in Hun.
    - rewrite Hun. unfold typeAndCountMatch.
      by destruct (Z.eqb_spec VTK_PARSE_VOID (PI.Type_ property)).
    - unfold typeAndCountMatch.
      by destruct (Z.eqb_spec VTK_PARSE_VOID (PI.Type_ property)). }
  unfold methodMatchesProperty.
  destruct (nameWithoutPrefix (MA.Name meth)); [|done].
  destruct (PI.Name property); [|done].
  destruct (longMatchAndName meth _ _).
  repeat match goal with
         | |- context [if ?b then _ else _] => destruct b
         end; simpl; done.
Qed.

Lemma promotion_failure_no_match_witness :
  (methodMatchesProperty Scenario.modeProperty
     (getMethodAttributes
        (Scenario.method "SetModeToFast" VTK_PARSE_VOID [])).2).1 = false.
Proof.
  apply (promotion_failure_no_match
           (Scenario.method "SetModeToFast" VTK_PARSE_VOID [])
           Scenario.modeProperty); [reflexivity | reflexivity | ].
  vm_compute. discriminate.
Defined.

(** ** Repeat resolution *)


(** *** What a call of the resolver does

    The call for the method [attrs] stops at the first method of the
    same name and structure for which one of the two yields to the
    other. *)
Definition decisive (attrs meth : MethodAttributes) : bool :=
  sameStructure attrs meth && (yieldsTo attrs meth || yieldsTo meth attrs).

Definition firstDecisive (attrs : MethodAttributes)
    (methods : list MethodAttributes) (i : nat) (meth : MethodAttributes)
    : Prop :=
  methods !! i = Some meth /\ decisive attrs meth = true /\
  forall i' meth', (i' < i)%nat -> methods !! i' = Some meth' ->
                   decisive attrs meth' = false.

(** The index of the method that the call for the method at [j] marks
    when it stops at the method [meth] at [i], and the index of the
    other. *)
Definition yielding (attrs meth : MethodAttributes) (j i : nat) : nat :=
  if yieldsTo attrs meth then j else i.

Definition prevailing (attrs meth : MethodAttributes) (j i : nat) : nat :=
  if yieldsTo attrs meth then i else j.

Lemma firstDecisive_unique (attrs : MethodAttributes)
    (methods : list MethodAttributes) (i i' : nat)
    (meth meth' : MethodAttributes) :
  firstDecisive attrs methods i meth ->
  firstDecisive attrs methods i' meth' -> i = i' /\ meth = meth'.
Proof.
  intros (Hi & Hd & Hmin) (Hi' & Hd' & Hmin').
  assert (i = i') as <-.
  { destruct (Nat.lt_trichotomy i i') as [Hlt|[->|Hlt]]; [|done|].
    - rewrite (Hmin' _ _ Hlt Hi) in Hd. discriminate Hd.
    - rewrite (Hmin _ _ Hlt Hi') in Hd'. discriminate Hd'. }
  split; [done | congruence].
Qed.

Lemma searchLoop_first (attrs : MethodAttributes) (j : nat)
    (methods : list MethodAttributes) (properties : option ClassProperties)
    (len first : nat) :
  (first + len = length methods)%nat ->
  (forall i meth, (i < first)%nat -> methods !! i = Some meth ->
                  decisive attrs meth = false) ->
  let result := searchLoop attrs j (seq first len) methods properties in
  (result = (methods, properties, true) /\
   forall i meth, methods !! i = Some meth -> decisive attrs meth = false) \/
  (exists i meth,
     firstDecisive attrs methods i meth /\
     result = (markRepeat methods (yielding attrs meth j i),
               copyMethodInfo properties (yielding attrs meth j i)
                 (prevailing attrs meth j i),
               false)).
Proof.
  revert first. induction len as [|len IH]; intros first Hlen Hbefore; simpl.
  - left. split; [done|]. intros i meth Hi. apply (Hbefore i); [|done].
    apply lookup_lt_Some in Hi. lia.
  - destruct (methods !! first) as [meth|] eqn:Hfirst;
      [|apply lookup_ge_None in Hfirst; lia].
    destruct (decisive attrs meth) eqn:Hd.
    + right. exists first, meth. split; [by split|].
      unfold decisive in Hd. apply andb_prop in Hd as [-> Hy].
      unfold yielding, prevailing.
      destruct (yieldsTo attrs meth); [done|].
      simpl in Hy. by rewrite Hy.
    + assert (Hnext : forall i meth', (i < S first)%nat ->
                        methods !! i = Some meth' ->
                        decisive attrs meth' = false).
      { intros i meth' Hi Hm. destruct (decide (i = first)) as [->|Hne].
        - congruence.
        - apply (Hbefore i); [lia | done]. }
      specialize (IH (S first) ltac:(lia) Hnext).
      unfold decisive in Hd.
      destruct (sameStructure attrs meth); [|exact IH].
      simpl in Hd. apply orb_false_elim in Hd as [-> ->]. exact IH.
Qed.

(** The whole search, for a method of the list. *)
Lemma search_first (properties : option ClassProperties)
    (methods : list MethodAttributes) (j : nat) (attrs : MethodAttributes) :
  methods !! j = Some attrs ->
  let result := searchForRepeatedMethods properties methods j in
  (result = (methods, properties, true) /\
   forall i meth, methods !! i = Some meth -> decisive attrs meth = false) \/
  (exists i meth,
     firstDecisive attrs methods i meth /\
     result = (markRepeat methods (yielding attrs meth j i),
               copyMethodInfo properties (yielding attrs meth j i)
                 (prevailing attrs meth j i),
               false)).
Proof.
  intros Hj. unfold searchForRepeatedMethods. rewrite Hj.
  apply searchLoop_first; [done|]. intros i meth Hi. lia.
Qed.

(** *** The pass of the extractor

    The call for the method at [j] is made when the list holds the
    methods up to [j]; [passMarks data k] says that one of these calls
    marks the method at [k]. *)
Definition passMarks (data : ClassInfo) (k : nat) : Prop :=
  exists j func i meth,
    data !! j = Some func /\ (getMethodAttributes func).1 = true /\
    firstDecisive (getMethodAttributes func).2
      (take (S j) (extracted data)) i meth /\
    k = yielding (getMethodAttributes func).2 meth j i.

Lemma decisive_irrefl (attrs : MethodAttributes) :
  decisive attrs attrs = false.
Proof. unfold decisive. by rewrite yieldsTo_irrefl, andb_false_r. Qed.

Lemma firstDecisive_facts (attrs : MethodAttributes)
    (l l' : list MethodAttributes) (i : nat) (meth : MethodAttributes) :
  map MA.withRepeat l = map MA.withRepeat l' ->
  firstDecisive attrs l i meth ->
  exists meth',
    firstDecisive attrs l' i meth' /\
    MA.withRepeat meth = MA.withRepeat meth'.
Proof.
  intros Heq (Hi & Hd & Hmin).
  destruct (facts_lookup _ _ _ _ Heq Hi) as (meth' & Hi' & Hmm).
  exists meth'. split; [|done]. split; [done|]. split.
  - change (decisive attrs (MA.withRepeat meth') = true).
    rewrite <- Hmm. exact Hd.
  - intros i' m' Hlt Hm'.
    destruct (facts_lookup _ _ _ _ (eq_sym Heq) Hm') as (m & Hm & Hmm').
    change (decisive attrs (MA.withRepeat m') = false).
    rewrite Hmm'. exact (Hmin i' m Hlt Hm).
Qed.

Lemma yielding_facts (attrs meth meth' : MethodAttributes) (j i : nat) :
  MA.withRepeat meth = MA.withRepeat meth' ->
  yielding attrs meth j i = yielding attrs meth' j i.
Proof.
  intros H. unfold yielding.
  change (yieldsTo attrs meth) with (yieldsTo attrs (MA.withRepeat meth)).
  by rewrite H.
Qed.

Lemma passMarks_lt (data : ClassInfo) (k : nat) :
  passMarks data k -> (k < length data)%nat.
Proof.
  intros (j & func & i & meth & Hj & _ & (Hi & _ & _) & ->).
  apply lookup_lt_Some in Hj, Hi.
  rewrite length_take in Hi. unfold yielding.
  destruct (yieldsTo _ _); lia.
Qed.

Lemma extracted_snoc (data : ClassInfo) (func : FunctionInfo) :
  extracted (data ++ [func])
  = (extracted data ++ [(getMethodAttributes func).2])%list.
Proof. unfold extracted. by rewrite map_app. Qed.

(** The calls for a class with one more method: those of the class, and
    the call for the new method. *)
Lemma passMarks_snoc (data : ClassInfo) (func : FunctionInfo) (k : nat) :
  passMarks (data ++ [func]) k <->
  passMarks data k \/
  ((getMethodAttributes func).1 = true /\
   exists i meth,
     firstDecisive (getMethodAttributes func).2
       (extracted data ++ [(getMethodAttributes func).2])%list i meth /\
     k = yielding (getMethodAttributes func).2 meth (length data) i).
Proof.
  assert (Hlen : length (extracted data) = length data)
    by (unfold extracted; apply length_map).
  split.
  - intros (j & f & i & meth & Hj & Hacc & Hfirst & ->).
    rewrite extracted_snoc in Hfirst.
    destruct (decide (j < length data)%nat) as [Hlt|Hge].
    + left. rewrite lookup_app_l in Hj by done.
      rewrite take_app_le in Hfirst by lia.
      by exists j, f, i, meth.
    + assert (j = length data) as ->.
      { apply lookup_lt_Some in Hj. rewrite length_app in Hj.
        simpl in Hj. lia. }
      rewrite list_lookup_middle in Hj by done. injection Hj as <-.
      rewrite take_ge in Hfirst by (rewrite length_app; simpl; lia).
      right. split; [done|]. by exists i, meth.
  - intros [(j & f & i & meth & Hj & Hacc & Hfirst & ->)
           | (Hacc & i & meth & Hfirst & ->)].
    + exists j, f, i, meth.
      pose proof (lookup_lt_Some _ _ _ Hj) as Hlt.
      rewrite lookup_app_l by done.
      rewrite extracted_snoc, take_app_le by lia. done.
    + exists (length data), func, i, meth.
      rewrite list_lookup_middle by done.
      rewrite extracted_snoc, take_ge by (rewrite length_app; simpl; lia).
      done.
Qed.

Lemma lookup_markRepeat (methods : list MethodAttributes) (k j : nat)
    (m : MethodAttributes) :
  markRepeat methods k !! j = Some m ->
  exists m0, methods !! j = Some m0 /\
             MA.IsRepeat m = (if decide (k = j) then true else MA.IsRepeat m0).
Proof.
  unfold markRepeat. destruct (methods !! k) as [mk|] eqn:Hk.
  - destruct (decide (k = j)) as [->|Hne].
    + rewrite list_lookup_insert_eq by (by eapply lookup_lt_Some).
      intros [= <-]. eauto.
    + rewrite list_lookup_insert_ne by done. eauto.
  - intros Hj. destruct (decide (k = j)) as [->|Hne]; [congruence | eauto].
Qed.

(** Which methods the pass of the extractor marks. *)
Lemma categorizePropertyMethods_marks (data : ClassInfo) (k : nat)
    (m : MethodAttributes) :
  categorizePropertyMethods data !! k = Some m ->
  (MA.IsRepeat m = true <-> passMarks data k).
Proof.
  revert k m. induction data as [|func data IH] using rev_ind; intros k m.
  { done. }
  unfold categorizePropertyMethods. rewrite fold_left_app. simpl.
  fold (categorizePropertyMethods data).
  pose proof (categorizePropertyMethods_facts data) as Hfacts.
  assert (Hlen : length (categorizePropertyMethods data) = length data).
  { rewrite (facts_length _ _ Hfacts). unfold extracted. apply length_map. }
  set (methods := categorizePropertyMethods data) in *.
  pose proof (getMethodAttributes_IsRepeat func) as Hfresh.
  rewrite passMarks_snoc.
  unfold categorizeMethod.
  destruct (getMethodAttributes func) as [converted attrs] eqn:Hfunc.
  simpl in *.
  assert (Hfacts' : map MA.withRepeat (methods ++ [attrs])
                    = map MA.withRepeat (extracted data ++ [attrs])).
  { by rewrite !map_app, Hfacts. }
  assert (Hold : forall m0, (methods ++ [attrs])%list !! k = Some m0 ->
             (MA.IsRepeat m0 = true <-> passMarks data k)).
  { intros m0 Hm0. destruct (decide (k < length methods)%nat) as [Hlt|Hge].
    - rewrite lookup_app_l in Hm0 by done. by apply IH.
    - assert (k = length methods) as ->.
      { apply lookup_lt_Some in Hm0. rewrite length_app in Hm0.
        simpl in Hm0. lia. }
      rewrite list_lookup_middle in Hm0 by done. injection Hm0 as <-.
      rewrite Hfresh. split; [done|].
      intros Hp%passMarks_lt. lia. }
  destruct converted.
  - rewrite <- Hlen.
    destruct (search_first None (methods ++ [attrs]) (length methods) attrs)
      as [[-> Hnone] | (i & meth & Hfirst & ->)].
    { by apply list_lookup_middle. }
    + simpl. intros Hm. rewrite (Hold m Hm). split; [by left|].
      intros [Hp | (_ & i & meth & (Hi & Hd & _) & _)]; [done|].
      destruct (facts_lookup _ _ _ _ (eq_sym Hfacts') Hi)
        as (meth' & Hi' & Hmm).
      specialize (Hnone i meth' Hi').
      change (decisive attrs (MA.withRepeat meth') = false) in Hnone.
      rewrite <- Hmm in Hnone.
      change (decisive attrs meth = false) in Hnone. congruence.
    + simpl. intros Hm.
      apply lookup_markRepeat in Hm as (m0 & Hm0 & ->).
      destruct (firstDecisive_facts _ _ _ _ _ Hfacts' Hfirst)
        as (meth' & Hfirst' & Hmm).
      rewrite (yielding_facts _ _ _ _ _ Hmm).
      destruct (decide (_ = k)) as [<-|Hne].
      * split; [|done]. intros _. right. split; [done|]. eauto.
      * rewrite (Hold m0 Hm0). split; [by left|].
        intros [Hp | (_ & i' & meth'' & Hfirst'' & ->)]; [done|].
        destruct (firstDecisive_unique _ _ _ _ _ _ Hfirst' Hfirst'')
          as [-> ->].
        done.
  - intros Hm. rewrite (Hold m Hm). split; [by left|].
    by intros [Hp | [Hacc _]].
Qed.



(** ** Categories and property indices *)

(** X2. For every class and every method index, the category is zero if and
    only if the property index is -1; this holds of repeats as well. *)
Lemma category_property_coherent (data : ClassInfo) :
  exists cp,
    vtkParseProperties_Create data = Some cp /\
    Forall2 (fun c p => c = 0 <-> p = -1)
            (CP.MethodTypes cp) (CP.MethodProperties cp).
Proof.
  destruct (synthesize_inv data) as (st & Hrun & Hinv & Horder).
  exists (b_properties st). split.
  - unfold vtkParseProperties_Create. by rewrite Hrun.
  - apply (binv_coherent _ _ Hinv).
Qed.

(** C2, on the class [void SetX(double);] with the two legacy overloads
    [void SetX(float);] and [void SetX(int);].  The claim says that a
    method marked [IsRepeat] carries the category and the property index
    of the overload that superseded it.  Both legacy overloads are marked
    [IsRepeat]: each has the name and structure of [SetX(double)] and
    yields to it.  [SetX(double)] seeds the property and carries
    [BASIC_SET] and the property index 0, and so does the first legacy
    overload; but the second keeps the category 0 and the index -1:
    [addProperty] calls [searchForRepeatedMethods] once, and the search
    returns at the first repeat that it finds. *)
Theorem third_overload_not_mirrored :
  exists st m0 m1 m2,
    synthesize Scenario.threeOverloads = Some st /\
    b_methods st !! 0%nat = Some m0 /\
    b_methods st !! 1%nat = Some m1 /\
    b_methods st !! 2%nat = Some m2 /\
    MA.IsRepeat m0 = false /\
    MA.IsRepeat m1 = true /\
    sameStructure m1 m0 = true /\ yieldsTo m1 m0 = true /\
    MA.IsRepeat m2 = true /\
    sameStructure m2 m0 = true /\ yieldsTo m2 m0 = true /\
    CP.MethodTypes (b_properties st)
    = [VTK_METHOD_BASIC_SET; VTK_METHOD_BASIC_SET; 0] /\
    CP.MethodProperties (b_properties st) = [0; 0; -1].
Proof.
  exists_some (synthesize Scenario.threeOverloads).
  exists_some
    (st ← synthesize Scenario.threeOverloads; b_methods st !! 0%nat).
  exists_some
    (st ← synthesize Scenario.threeOverloads; b_methods st !! 1%nat).
  exists_some
    (st ← synthesize Scenario.threeOverloads; b_methods st !! 2%nat).
  vm_compute. repeat split.
Qed.

(** ** Methods without a property shape *)

(** The extractor fails on an operator, on a method with an array
    argument that could not be sized, and on a method without a name. *)
Lemma getMethodAttributes_unclassifiable (func : FunctionInfo) :
  isNull (FI.Name func) || FI.ArrayFailure func || FI.IsOperator func = true ->
  (getMethodAttributes func).1 = false /\
  MA.HasProperty (getMethodAttributes func).2 = false.
Proof. intros H. unfold getMethodAttributes. by rewrite H. Qed.

(** X3. For every class the synthesizer returns a result, and a method on
    which the extractor fails is the seed of no property and is folded
    into none: it is excluded from every sweep. *)
Lemma unclassifiable_never_member (data : ClassInfo) :
  exists st,
    synthesize data = Some st /\
    forall i func,
      data !! i = Some func ->
      isNull (FI.Name func) || FI.ArrayFailure func || FI.IsOperator func
      = true ->
      i ∉ concat (b_members st).
Proof.
  destruct (synthesize_inv data) as (st & Hrun & Hinv & Horder).
  exists st. split; [done|]. intros i func Hi Hbad Hin.
  destruct (binv_taken _ _ Hinv i Hin) as [_ Hp].
  unfold hasPropertyAt, extracted in Hp. rewrite lookup_map, Hi in Hp.
  simpl in Hp.
  destruct (getMethodAttributes_unclassifiable func Hbad) as [_ Hnp].
  congruence.
Qed.

(** C8, on the class [void SetX(double);] and a legacy
    [void SetX(float a[N]);] whose array the parser could not size.  The
    claim says that such a method keeps the property index -1 and the
    category 0.  The extractor fails on it and it is taken out of
    consideration before the sweeps, so it is no member of the property;
    but the search for repeats that [addProperty] makes for the seed
    [SetX(double)] compares the seed with every method of the same name,
    without a test of [HasProperty]: it marks the failed method as a
    repeat of the seed and copies the category [BASIC_SET] and the
    property index 0 of the seed to it. *)
Theorem unclassifiable_method_gets_property :
  exists st failed,
    synthesize Scenario.withArrayFailure = Some st /\
    Scenario.withArrayFailure !! 1%nat = Some failed /\
    FI.ArrayFailure failed = true /\
    (getMethodAttributes failed).1 = false /\
    MA.HasProperty (getMethodAttributes failed).2 = false /\
    initialMatched (categorizePropertyMethods Scenario.withArrayFailure)
    = [false; true] /\
    b_members st = [[0%nat]] /\
    CP.MethodTypes (b_properties st)
    = [VTK_METHOD_BASIC_SET; VTK_METHOD_BASIC_SET] /\
    CP.MethodProperties (b_properties st) = [0; 0].
Proof.
  exists_some (synthesize Scenario.withArrayFailure).
  exists_some (Scenario.withArrayFailure !! 1%nat).
  vm_compute. repeat split.
Qed.

(** ** Enumeration constants *)

(** X4. For every class and every property, [EnumConstantNames] is null or
    an array that holds strings up to a null pointer inside the
    allocation: no insertion reads an unwritten slot or writes outside
    the array (the synthesizer returns), and the terminator is there
    after every insertion and every growth of the array. *)
Lemma enumConstantNames_terminated (data : ClassInfo) :
  exists cp,
    vtkParseProperties_Create data = Some cp /\
    Forall (fun p =>
              PI.EnumConstantNames p = None \/
              exists names rest,
                PI.EnumConstantNames p
                = Some (map StrPtr names ++ NullPtr :: rest)%list /\
                enumConstants p = names)
           (CP.Properties cp).
Proof.
  destruct (synthesize_inv data) as (st & Hrun & Hinv & Horder).
  exists (b_properties st). split.
  - unfold vtkParseProperties_Create. by rewrite Hrun.
  - eapply Forall_impl; [apply (binv_enum _ _ Hinv)|].
    intros p Hp. simpl in Hp. unfold enumConstants.
    destruct (PI.EnumConstantNames p) as [a|]; [right | by left].
    destruct Hp as (strs & rest & -> & _).
    exists strs, rest. split; [done | apply readNames_strs].
Qed.

(** X5. For every class and every property, reading [EnumConstantNames] up
    to the null pointer gives the constants of the enumerated setters
    that were folded into the property, in the order in which they were
    matched: for each such setter, the name from the offset
    [5 + strlen(property name)], if ["To"] and an upper-case letter or a
    digit stand at the offset [3 + strlen(property name)]. *)
Lemma enumConstants_in_match_order (data : ClassInfo) :
  exists st,
    synthesize data = Some st /\
    Forall2 (fun p members =>
               enumConstants p
               = collectedTails (extracted data) (PI.Name p) (tl members))
            (CP.Properties (b_properties st)) (b_members st).
Proof.
  destruct (synthesize_inv data) as (st & Hrun & Hinv & Horder).
  exists st. split; [done | apply (binv_constants _ _ Hinv)].
Qed.

(** C10, on the class [void SetAToB(int); void SetNthAToBToFoo();].  The
    claim says that every string of [EnumConstantNames] is the tail of a
    matched enumerated setter's name right after ["Set<PropertyName>To"].
    The setter [SetNthAToBToFoo] is enumerated and is matched with the
    property [AToB] ([methodMatchesProperty] strips the six characters of
    ["SetNth"]); [findAllMatches] then looks for ["To"] at the fixed
    offset [3 + strlen("AToB")] of the name, finds the ["To"] of
    ["AToB"] itself there, and collects ["BToFoo"], although the name
    does not start with ["SetAToBTo"]. *)
Theorem enum_constant_at_wrong_offset :
  exists cp property setter,
    vtkParseProperties_Create Scenario.nthEnumerated = Some cp /\
    CP.Properties cp = [property] /\
    PI.Name property = Some "AToB" /\
    (categorizePropertyMethods Scenario.nthEnumerated) !! 1%nat
    = Some setter /\
    MA.Name setter = Some "SetNthAToBToFoo" /\
    MA.IsEnumerated setter = true /\
    CP.MethodTypes cp = [VTK_METHOD_BASIC_SET; VTK_METHOD_ENUM_SET] /\
    CP.MethodProperties cp = [0; 0] /\
    enumConstants property = ["BToFoo"] /\
    String.prefix "SetAToBTo" "SetNthAToBToFoo" = false.
Proof.
  exists_some (vtkParseProperties_Create Scenario.nthEnumerated).
  exists_some
    (cp ← vtkParseProperties_Create Scenario.nthEnumerated;
     CP.Properties cp !! 0%nat).
  exists_some (categorizePropertyMethods Scenario.nthEnumerated !! 1%nat).
  vm_compute. repeat split.
Qed.

(** ** Permuted method lists *)

(** The claim C9 fails for [double GetX(); double GetXMinValue();] and
    the same class with the two methods exchanged.  With [GetX] first
    there is one property, [X], with both methods as members, and
    [GetXMinValue] has the category [MIN_GET].  With [GetXMinValue] first
    that method seeds a property of its own, [XMinValue], before [GetX]
    seeds [X]: there are two properties with one member each, and
    [GetXMinValue] has the category [BASIC_GET].  Neither the set of
    properties, nor the member sets, nor the category bits of the methods
    are the same. *)
Lemma permuted_getters_change_result :
  Permutation Scenario.getThenMin Scenario.minThenGet /\
  exists st st',
    synthesize Scenario.getThenMin = Some st /\
    synthesize Scenario.minThenGet = Some st' /\
    map PI.Name (CP.Properties (b_properties st)) = [Some "X"] /\
    map PI.Name (CP.Properties (b_properties st'))
    = [Some "XMinValue"; Some "X"] /\
    b_members st = [[0; 1]]%nat /\
    b_members st' = [[0]; [1]]%nat /\
    CP.MethodTypes (b_properties st)
    = [VTK_METHOD_BASIC_GET; VTK_METHOD_MIN_GET] /\
    CP.MethodTypes (b_properties st')
    = [VTK_METHOD_BASIC_GET; VTK_METHOD_BASIC_GET] /\
    CP.MethodProperties (b_properties st) = [0; 0] /\
    CP.MethodProperties (b_properties st') = [0; 1].
Proof.
  split; [apply perm_swap|].
  exists_some (synthesize Scenario.getThenMin).
  exists_some (synthesize Scenario.minThenGet).
  vm_compute. repeat split.
Qed.

(** What does hold of a permuted class rests on the invariants of the
    builder; it is proved at the end of the development. *)

Lemma extracted_length (data : ClassInfo) :
  length (extracted data) = length data.
Proof. unfold extracted. apply length_map. Qed.

(** * Further properties of the code

    The rest of the development proves properties of the functions above
    that the claims leave out. *)

(** ** Reading a C string *)

Lemma chr_S (c : ascii) (s : string) (i : nat) : (String c s)@@(S i) = s@@i.
Proof. reflexivity. Qed.

Lemma chr_past_end (s : string) (i : nat) :
  (strlen s <= i)%nat -> s@@i = Ascii.zero.
Proof.
  revert i. induction s as [|c s IH]; intros i H; [by destruct i|].
  destruct i as [|i]; simpl in H; [lia|]. rewrite chr_S. apply IH. lia.
Qed.

Lemma isupper_in_string (s : string) (i : nat) :
  isupper s@@i = true -> (i < strlen s)%nat.
Proof.
  intros H. destruct (decide (i < strlen s)%nat) as [|Hge]; [done|].
  rewrite chr_past_end in H by lia. discriminate H.
Qed.

Lemma isdigit_in_string (s : string) (i : nat) :
  isdigit s@@i = true -> (i < strlen s)%nat.
Proof.
  intros H. destruct (decide (i < strlen s)%nat) as [|Hge]; [done|].
  rewrite chr_past_end in H by lia. discriminate H.
Qed.

Lemma append_cons (c : ascii) (a b : string) :
  String c a ++ b = String c (a ++ b).
Proof. reflexivity. Qed.

(** [&s[k]] for [k <= strlen(s)] is what is left of [s] after its first
    [k] characters. *)
Lemma str_from_split (k : nat) (s : string) :
  (k <= strlen s)%nat ->
  exists pre, strlen pre = k /\ s = pre ++ str_from k s.
Proof.
  revert s. induction k as [|k IH]; intros s H.
  - exists "". by destruct s.
  - destruct s as [|c s]; simpl in H; [lia|].
    destruct (IH s) as (pre & Hlen & Heq); [lia|].
    exists (String c pre). rewrite append_cons. simpl.
    split; [by rewrite Hlen | by rewrite <- Heq].
Qed.

Lemma chr_str_from (k : nat) (s : string) (i : nat) :
  (str_from k s)@@i = s@@(k + i).
Proof.
  revert s. induction k as [|k IH]; intros s; [done|].
  destruct s as [|c s]; [done | apply IH].
Qed.

Lemma str_from_add (k k' : nat) (s : string) :
  str_from k' (str_from k s) = str_from (k + k') s.
Proof.
  revert s. induction k as [|k IH]; intros s; [done|].
  destruct s as [|c s]; [by destruct k' | apply IH].
Qed.

(** [strncmp(a, q, strlen(q)) == 0] says that [a] starts with [q]. *)
Lemma strncmp_eq_prefix (a q : string) :
  strncmp_eq a q (strlen q) = true ->
  a = q ++ str_from (strlen q) a.
Proof.
  unfold strncmp_eq. revert a. induction q as [|c q IH]; intros a H.
  - by destruct a.
  - destruct a as [|d a]; simpl in H; [done|].
    apply andb_prop in H as [Hc Hq]. apply Ascii.eqb_eq in Hc as ->.
    rewrite append_cons. simpl. f_equal. by apply IH.
Qed.

(** ** The prefixes of the method names *)

Ltac char_tests H :=
  repeat match type of H with
         | (_ && _) = true =>
             let H' := fresh H in
             apply andb_prop in H as [H H']; try apply Ascii.eqb_eq in H'
         end;
  try apply Ascii.eqb_eq in H.

Ltac name_shape :=
  let H := fresh "H" in
  intros H; char_tests H; unfold chr in *; simpl in *;
  first [ done
        | congruence
        | subst; eexists; split; [reflexivity | assumption] ].

Lemma isSetMethod_shape (s : string) :
  isSetMethod (Some s) = true ->
  exists rest, s = "Set" ++ rest /\ isupper rest@@0 = true.
Proof.
  unfold isSetMethod. destruct s as [|c0 [|c1 [|c2 rest]]]; name_shape.
Qed.

Lemma isGetMethod_shape (s : string) :
  isGetMethod (Some s) = true ->
  exists rest, s = "Get" ++ rest /\ isupper rest@@0 = true.
Proof.
  unfold isGetMethod. destruct s as [|c0 [|c1 [|c2 rest]]]; name_shape.
Qed.

Lemma isAddMethod_shape (s : string) :
  isAddMethod (Some s) = true ->
  exists rest, s = "Add" ++ rest /\ isupper rest@@0 = true.
Proof.
  unfold isAddMethod. destruct s as [|c0 [|c1 [|c2 rest]]]; name_shape.
Qed.

Lemma isRemoveMethod_shape (s : string) :
  isRemoveMethod (Some s) = true ->
  exists rest, s = "Remove" ++ rest /\ isupper rest@@0 = true.
Proof.
  unfold isRemoveMethod.
  destruct s as [|c0 [|c1 [|c2 [|c3 [|c4 [|c5 rest]]]]]]; name_shape.
Qed.

Lemma isSetNthMethod_shape (s : string) :
  isSetNthMethod (Some s) = true ->
  exists rest, s = "SetNth" ++ rest /\ isupper rest@@0 = true.
Proof.
  unfold isSetNthMethod. destruct (isSetMethod (Some s)) eqn:E; [|done].
  apply isSetMethod_shape in E as (r & -> & _).
  destruct r as [|c3 [|c4 [|c5 rest]]]; name_shape.
Qed.

Lemma isGetNthMethod_shape (s : string) :
  isGetNthMethod (Some s) = true ->
  exists rest, s = "GetNth" ++ rest /\ isupper rest@@0 = true.
Proof.
  unfold isGetNthMethod. destruct (isGetMethod (Some s)) eqn:E; [|done].
  apply isGetMethod_shape in E as (r & -> & _).
  destruct r as [|c3 [|c4 [|c5 rest]]]; name_shape.
Qed.

Lemma isRemoveAllMethod_shape (s : string) :
  isRemoveAllMethod (Some s) = true ->
  exists rest, s = "RemoveAll" ++ rest /\ isupper rest@@0 = true.
Proof.
  unfold isRemoveAllMethod. destruct (isRemoveMethod (Some s)) eqn:E; [|done].
  apply isRemoveMethod_shape in E as (r & -> & _).
  destruct r as [|c3 [|c4 [|c5 rest]]]; intros H;
    apply andb_prop in H as [H _]; revert H; name_shape.
Qed.

Lemma isSetNumberOfMethod_shape (s : string) :
  isSetNumberOfMethod (Some s) = true ->
  exists rest, s = "SetNumberOf" ++ rest /\ isupper rest@@0 = true.
Proof.
  unfold isSetNumberOfMethod. destruct (isSetMethod (Some s)) eqn:E; [|done].
  apply isSetMethod_shape in E as (r & -> & _).
  destruct r as [|c3 [|c4 [|c5 [|c6 [|c7 [|c8 [|c9 [|c10 rest]]]]]]]];
    intros H; apply andb_prop in H as [H _]; revert H; name_shape.
Qed.

Lemma isGetNumberOfMethod_shape (s : string) :
  isGetNumberOfMethod (Some s) = true ->
  exists rest, s = "GetNumberOf" ++ rest /\ isupper rest@@0 = true.
Proof.
  unfold isGetNumberOfMethod. destruct (isGetMethod (Some s)) eqn:E; [|done].
  apply isGetMethod_shape in E as (r & -> & _).
  destruct r as [|c3 [|c4 [|c5 [|c6 [|c7 [|c8 [|c9 [|c10 rest]]]]]]]];
    intros H; apply andb_prop in H as [H _]; revert H; name_shape.
Qed.

Ltac in_list := solve [repeat first [by left | right]].

(** The prefixes that [nameWithoutPrefix] removes. *)
Definition strippedPrefixes : list string :=
  ["SetNth"; "GetNth"; "Set"; "Get"; "Add"; "RemoveAll"; "Remove"].

(** What [nameWithoutPrefix] returns for a name that is not null. *)
Lemma nameWithoutPrefix_cases (s : string) :
  (nameWithoutPrefix (Some s) = Some s /\
   isSetMethod (Some s) = false /\ isGetMethod (Some s) = false /\
   isAddMethod (Some s) = false /\ isRemoveMethod (Some s) = false) \/
  (exists pre rest,
     pre ∈ strippedPrefixes /\ s = pre ++ rest /\
     nameWithoutPrefix (Some s) = Some rest /\ isupper rest@@0 = true).
Proof.
  unfold nameWithoutPrefix, strippedPrefixes.
  destruct (isGetNthMethod (Some s)) eqn:Hgn.
  { apply isGetNthMethod_shape in Hgn as (rest & -> & Hup).
    right. exists "GetNth", rest. by split; [in_list|]. }
  destruct (isSetNthMethod (Some s)) eqn:Hsn.
  { apply isSetNthMethod_shape in Hsn as (rest & -> & Hup).
    right. exists "SetNth", rest. by split; [in_list|]. }
  destruct (isGetMethod (Some s)) eqn:Hg.
  { apply isGetMethod_shape in Hg as (rest & -> & Hup).
    right. exists "Get", rest. by split; [in_list|]. }
  destruct (isSetMethod (Some s)) eqn:Hs.
  { apply isSetMethod_shape in Hs as (rest & -> & Hup).
    right. exists "Set", rest. by split; [in_list|]. }
  destruct (isAddMethod (Some s)) eqn:Ha.
  { apply isAddMethod_shape in Ha as (rest & -> & Hup).
    right. exists "Add", rest. by split; [in_list|]. }
  destruct (isRemoveAllMethod (Some s)) eqn:Hra.
  { apply isRemoveAllMethod_shape in Hra as (rest & -> & Hup).
    right. exists "RemoveAll", rest. by split; [in_list|]. }
  destruct (isRemoveMethod (Some s)) eqn:Hr.
  { apply isRemoveMethod_shape in Hr as (rest & -> & Hup).
    right. exists "Remove", rest. by split; [in_list|]. }
  by left.
Qed.

(** X6. [nameWithoutPrefix] returns a null name unchanged.  Of a name
    that is no [Set], [Get], [Add] or [Remove] method name it returns the
    name itself; of any other name it removes exactly one of the prefixes
    [SetNth], [GetNth], [Set], [Get], [Add], [RemoveAll], [Remove], and
    what it returns starts with an upper-case letter. *)
Theorem nameWithoutPrefix_strips (s : string) :
  nameWithoutPrefix None = None /\
  ((nameWithoutPrefix (Some s) = Some s /\
    isSetMethod (Some s) = false /\ isGetMethod (Some s) = false /\
    isAddMethod (Some s) = false /\ isRemoveMethod (Some s) = false) \/
   (exists pre rest,
      pre ∈ strippedPrefixes /\ s = pre ++ rest /\
      nameWithoutPrefix (Some s) = Some rest /\ isupper rest@@0 = true)).
Proof.
  split; [reflexivity|].
  destruct (nameWithoutPrefix_cases s) as [Hsame | Hstripped].
  - by left.
  - by right.
Qed.

Lemma isSetNumberOfMethod_isSet (name : option string) :
  isSetNumberOfMethod name = true -> isSetMethod name = true.
Proof.
  unfold isSetNumberOfMethod. destruct name as [s|]; [|done].
  by destruct (isSetMethod (Some s)).
Qed.

Lemma isGetNumberOfMethod_isGet (name : option string) :
  isGetNumberOfMethod name = true -> isGetMethod name = true.
Proof.
  unfold isGetNumberOfMethod. destruct name as [s|]; [|done].
  by destruct (isGetMethod (Some s)).
Qed.

Lemma prefix_refines (base refined : option string -> bool)
    (name : option string) :
  (refined name = true -> base name = true) ->
  implb (refined name) (base name) = true.
Proof. destruct (refined name); simpl; [by intros -> | done]. Qed.

Lemma isGetMinValueMethod_isGet (name : option string) :
  isGetMinValueMethod name = true -> isGetMethod name = true.
Proof.
  unfold isGetMinValueMethod. destruct name as [s|]; [|done].
  by destruct (isGetMethod (Some s)).
Qed.

Lemma isGetMaxValueMethod_isGet (name : option string) :
  isGetMaxValueMethod name = true -> isGetMethod name = true.
Proof.
  unfold isGetMaxValueMethod. destruct name as [s|]; [|done].
  by destruct (isGetMethod (Some s)).
Qed.

Lemma isAsStringMethod_isGet (name : option string) :
  isAsStringMethod name = true -> isGetMethod name = true.
Proof.
  unfold isAsStringMethod. destruct name as [s|]; [|done].
  by destruct (isGetMethod (Some s)).
Qed.

Lemma isSetNthMethod_isSet (name : option string) :
  isSetNthMethod name = true -> isSetMethod name = true.
Proof.
  unfold isSetNthMethod. destruct name as [s|]; [|done].
  by destruct (isSetMethod (Some s)).
Qed.

Lemma isGetNthMethod_isGet (name : option string) :
  isGetNthMethod name = true -> isGetMethod name = true.
Proof.
  unfold isGetNthMethod. destruct name as [s|]; [|done].
  by destruct (isGetMethod (Some s)).
Qed.

(** Two name predicates that ask for different prefixes. *)
Ltac exclusive_names shape shape' :=
  let H := fresh "H" in
  let H' := fresh "H" in
  match goal with
  | |- ?p && ?q = false =>
      destruct p eqn:H; [|reflexivity];
      destruct q eqn:H'; [|reflexivity];
      apply shape in H as (? & -> & _);
      apply shape' in H' as (? & H' & _);
      discriminate H'
  end.

(** X7. The name predicates are consistent with one another: a name is
    the name of at most one of a [Set], a [Get], an [Add] and a [Remove]
    method; the predicates for [SetNth], [SetNumberOf] and enumerated
    setters hold of [Set] names only, those for [GetNth], [GetNumberOf],
    [AsString], [MinValue] and [MaxValue] of [Get] names only, that for
    [RemoveAll] of [Remove] names only; and no name is both an [Nth] and
    a [NumberOf] name. *)
Theorem name_kinds_exclusive (name : option string) :
  isSetMethod name && isGetMethod name = false /\
  isSetMethod name && isAddMethod name = false /\
  isSetMethod name && isRemoveMethod name = false /\
  isGetMethod name && isAddMethod name = false /\
  isGetMethod name && isRemoveMethod name = false /\
  isAddMethod name && isRemoveMethod name = false /\
  isSetNthMethod name && isSetNumberOfMethod name = false /\
  isGetNthMethod name && isGetNumberOfMethod name = false /\
  implb (isSetNthMethod name) (isSetMethod name) = true /\
  implb (isSetNumberOfMethod name) (isSetMethod name) = true /\
  implb (isEnumeratedMethod name) (isSetMethod name) = true /\
  implb (isGetNthMethod name) (isGetMethod name) = true /\
  implb (isGetNumberOfMethod name) (isGetMethod name) = true /\
  implb (isAsStringMethod name) (isGetMethod name) = true /\
  implb (isGetMinValueMethod name) (isGetMethod name) = true /\
  implb (isGetMaxValueMethod name) (isGetMethod name) = true /\
  implb (isRemoveAllMethod name) (isRemoveMethod name) = true.
Proof.
  destruct name as [s|]; [|by repeat split].
  split; [exclusive_names isSetMethod_shape isGetMethod_shape|].
  split; [exclusive_names isSetMethod_shape isAddMethod_shape|].
  split; [exclusive_names isSetMethod_shape isRemoveMethod_shape|].
  split; [exclusive_names isGetMethod_shape isAddMethod_shape|].
  split; [exclusive_names isGetMethod_shape isRemoveMethod_shape|].
  split; [exclusive_names isAddMethod_shape isRemoveMethod_shape|].
  split; [exclusive_names isSetNthMethod_shape isSetNumberOfMethod_shape|].
  split; [exclusive_names isGetNthMethod_shape isGetNumberOfMethod_shape|].
  split; [apply prefix_refines, isSetNthMethod_isSet|].
  split; [apply prefix_refines, isSetNumberOfMethod_isSet|].
  split; [apply prefix_refines, isEnumeratedMethod_isSet|].
  split; [apply prefix_refines, isGetNthMethod_isGet|].
  split; [apply prefix_refines, isGetNumberOfMethod_isGet|].
  split; [apply prefix_refines, isAsStringMethod_isGet|].
  split; [apply prefix_refines, isGetMinValueMethod_isGet|].
  split; [apply prefix_refines, isGetMaxValueMethod_isGet|].
  apply prefix_refines, isRemoveAllMethod_isRemove.
Qed.

(** ** Names with a suffix *)

Lemma chr_app_r (pre rest : string) (i : nat) :
  (pre ++ rest)@@(strlen pre + i) = rest@@i.
Proof. induction pre as [|c pre IH]; [done | exact IH]. Qed.

Lemma strlen_app (a b : string) :
  strlen (a ++ b) = (strlen a + strlen b)%nat.
Proof.
  induction a as [|c a IH]; [done|]. rewrite append_cons. simpl.
  by rewrite IH.
Qed.

(** The string [s] from the offset [k] starts with the two characters
    [c0] and [c1]. *)
Lemma two_chars_at (s : string) (k : nat) (c0 c1 : ascii) :
  s@@k = c0 -> s@@(k + 1) = c1 ->
  c0 <> Ascii.zero -> c1 <> Ascii.zero ->
  exists pre rest,
    s = pre ++ String c0 (String c1 rest) /\ strlen pre = k /\
    forall i, rest@@i = s@@(k + 2 + i).
Proof.
  intros H0 H1 N0 N1.
  assert (Hlt : (k + 1 < strlen s)%nat).
  { destruct (decide (k + 1 < strlen s)%nat) as [|Hge]; [done|].
    rewrite chr_past_end in H1 by lia. congruence. }
  destruct (str_from_split k s) as (pre & Hlen & Heq); [lia|].
  pose proof (chr_str_from k s 0) as E0.
  pose proof (chr_str_from k s 1) as E1.
  pose proof (fun i => chr_str_from k s (2 + i)) as E2.
  rewrite Nat.add_0_r, H0 in E0. rewrite H1 in E1.
  destruct (str_from k s) as [|d0 [|d1 rest]];
    unfold chr in E0, E1; simpl in E0, E1; try congruence.
  subst d0 d1. exists pre, rest. split; [done|]. split; [done|].
  intros i. rewrite <- Nat.add_assoc. by rewrite <- E2.
Qed.

(** X8. [isEnumeratedMethod] holds of exactly the [Set] method names
    that have, from some offset that is at least 3, ["To"] followed by
    an upper-case letter or a digit and by at least one more character:
    the loop stops three characters before the end of the name, so that
    a constant of one character at the end of the name is not seen.
    [isBooleanMethod] holds of exactly the names that end with ["On"] or
    ["Off"] and are longer than that. *)
Theorem names_with_suffix (s : string) :
  (isEnumeratedMethod (Some s) = true <->
   isSetMethod (Some s) = true /\
   exists pre rest,
     s = pre ++ "To" ++ rest /\ (3 <= strlen pre)%nat /\
     (2 <= strlen rest)%nat /\
     isupper rest@@0 || isdigit rest@@0 = true) /\
  (isBooleanMethod (Some s) = true <->
   exists pre, pre <> "" /\ (s = pre ++ "On" \/ s = pre ++ "Off")).
Proof.
  split.
  - unfold isEnumeratedMethod.
    destruct (isSetMethod (Some s)) eqn:Hset; [|split; [done | by intros []]].
    rewrite existsb_exists. split.
    + intros (i & Hin & Hi). split; [done|].
      apply in_seq in Hin.
      apply andb_prop in Hi as [Hi Hc]. apply andb_prop in Hi as [HT Ho].
      apply Ascii.eqb_eq in HT, Ho.
      destruct (two_chars_at s i "T" "o" HT Ho)
        as (pre & rest & Heq & Hlen & Hrest); [done | done |].
      exists pre, rest. split; [done|]. split; [lia|]. split.
      * apply (f_equal strlen) in Heq. rewrite strlen_app in Heq.
        unfold strlen in *. simpl in Heq. lia.
      * rewrite (Hrest 0%nat), Nat.add_0_r. done.
    + intros (_ & pre & rest & Heq & Hpre & Hrest & Hc).
      exists (strlen pre). split.
      * apply in_seq. apply (f_equal strlen) in Heq.
        rewrite !strlen_app in Heq. unfold strlen in *. simpl in Heq. lia.
      * rewrite Heq.
        change ("To" ++ rest) with (String "T" (String "o" rest)).
        rewrite <- (Nat.add_0_r (strlen pre)) at 1.
        rewrite !chr_app_r, !chr_S, Hc. reflexivity.
  - unfold isBooleanMethod. set (n := strlen s). split.
    + intros [H|H]%orb_prop.
      * apply andb_prop in H as [H Hn]. apply andb_prop in H as [Hlen HO].
        apply Ascii.eqb_eq in HO, Hn. apply Nat.ltb_lt in Hlen.
        replace (n - 1)%nat with (n - 2 + 1)%nat in Hn by lia.
        destruct (two_chars_at s (n - 2) "O" "n" HO Hn)
          as (pre & rest & Heq & Hpre & Hrest); [done | done |].
        assert (rest = "") as ->.
        { apply (f_equal strlen) in Heq. rewrite strlen_app in Heq.
          simpl in Heq. fold n in Heq.
          destruct rest; [done | simpl in Heq; unfold strlen in *; lia]. }
        exists pre. split; [|by left].
        intros ->. simpl in Hpre. lia.
      * apply andb_prop in H as [H Hf2]. apply andb_prop in H as [H Hf1].
        apply andb_prop in H as [Hlen HO].
        apply Ascii.eqb_eq in HO, Hf1, Hf2. apply Nat.ltb_lt in Hlen.
        replace (n - 2)%nat with (n - 3 + 1)%nat in Hf1 by lia.
        destruct (two_chars_at s (n - 3) "O" "f" HO Hf1)
          as (pre & rest & Heq & Hpre & Hrest); [done | done |].
        pose proof (Hrest 0%nat) as Hr0.
        replace (n - 3 + 2 + 0)%nat with (n - 1)%nat in Hr0 by lia.
        rewrite Hf2 in Hr0.
        assert (rest = "f") as ->.
        { apply (f_equal strlen) in Heq. rewrite strlen_app in Heq.
          simpl in Heq. fold n in Heq.
          destruct rest as [|c [|c' rest]]; unfold chr in Hr0; simpl in *;
            [done | by subst | unfold strlen in *; lia]. }
        exists pre. split; [|by right].
        intros ->. simpl in Hpre. lia.
    + intros (pre & Hne & [->| ->]).
      * apply orb_true_intro. left.
        assert (Hn : n = (strlen pre + 2)%nat)
          by (unfold n; by rewrite strlen_app).
        assert (0 < strlen pre)%nat by (destruct pre; [done | simpl; lia]).
        replace (n - 2)%nat with (strlen pre + 0)%nat by lia.
        replace (n - 1)%nat with (strlen pre + 1)%nat by lia.
        rewrite !chr_app_r.
        destruct (Nat.ltb_spec 2 n); [done | lia].
      * apply orb_true_intro. right.
        assert (Hn : n = (strlen pre + 3)%nat)
          by (unfold n; by rewrite strlen_app).
        assert (0 < strlen pre)%nat by (destruct pre; [done | simpl; lia]).
        replace (n - 3)%nat with (strlen pre + 0)%nat by lia.
        replace (n - 2)%nat with (strlen pre + 1)%nat by lia.
        replace (n - 1)%nat with (strlen pre + 2)%nat by lia.
        rewrite !chr_app_r.
        destruct (Nat.ltb_spec 3 n); [done | lia].
Qed.

(** ** Categories and their names *)

(** The category constants, in the order of the [switch] of
    [vtkParseProperties_MethodTypeAsString]. *)
Definition categoryBits : list Z :=
  [ VTK_METHOD_BASIC_GET; VTK_METHOD_BASIC_SET; VTK_METHOD_MULTI_GET;
    VTK_METHOD_MULTI_SET; VTK_METHOD_INDEX_GET; VTK_METHOD_INDEX_SET;
    VTK_METHOD_NTH_GET; VTK_METHOD_NTH_SET; VTK_METHOD_RHS_GET;
    VTK_METHOD_INDEX_RHS_GET; VTK_METHOD_NTH_RHS_GET;
    VTK_METHOD_STRING_GET; VTK_METHOD_ENUM_SET; VTK_METHOD_BOOL_ON;
    VTK_METHOD_BOOL_OFF; VTK_METHOD_MIN_GET; VTK_METHOD_MAX_GET;
    VTK_METHOD_GET_NUM; VTK_METHOD_SET_NUM; VTK_METHOD_BASIC_ADD;
    VTK_METHOD_MULTI_ADD; VTK_METHOD_INDEX_ADD; VTK_METHOD_BASIC_REM;
    VTK_METHOD_INDEX_REM; VTK_METHOD_REMOVEALL ].

Lemma methodCategory_in_table (meth : MethodAttributes) (shortForm : bool) :
  methodCategory meth shortForm = 0 \/
  methodCategory meth shortForm ∈ categoryBits.
Proof.
  unfold methodCategory, categoryBits.
  repeat match goal with
         | |- context [if ?b then _ else _] => destruct b
         end; first [by left | right; in_list].
Qed.

Lemma MethodTypeAsString_table (c : Z) :
  c ∈ categoryBits -> vtkParseProperties_MethodTypeAsString c <> "".
Proof.
  unfold categoryBits. rewrite !elem_of_cons, elem_of_nil.
  intros H. repeat destruct H as [->|H]; done.
Qed.

(** The category that a name of the table stands for. *)
Definition categoryOfName (name : string) : Z :=
  default 0
    (find (fun c =>
             String.eqb (vtkParseProperties_MethodTypeAsString c) name)
          categoryBits).

Lemma categoryOfName_MethodTypeAsString (c : Z) :
  vtkParseProperties_MethodTypeAsString c <> "" ->
  categoryOfName (vtkParseProperties_MethodTypeAsString c) = c.
Proof.
  unfold vtkParseProperties_MethodTypeAsString.
  repeat match goal with
         | |- context [if ?x =? ?y then _ else _] =>
             destruct (Z.eqb_spec x y) as [->|_]; [reflexivity|]
         end.
  done.
Qed.

(** X9. [vtkParseProperties_MethodTypeAsString] gives a non-empty name
    to every value that [methodCategory] can return other than 0, the
    name of 0 is empty, and no two values share a non-empty name. *)
Theorem category_names :
  (forall (meth : MethodAttributes) (shortForm : bool),
      vtkParseProperties_MethodTypeAsString (methodCategory meth shortForm)
      = "" <->
      methodCategory meth shortForm = 0) /\
  (forall c c' : Z,
      vtkParseProperties_MethodTypeAsString c
      = vtkParseProperties_MethodTypeAsString c' ->
      vtkParseProperties_MethodTypeAsString c <> "" ->
      c = c').
Proof.
  split.
  - intros meth sf. split.
    + intros Hname.
      destruct (methodCategory_in_table meth sf) as [H0|Hin]; [done|].
      by apply MethodTypeAsString_table in Hin.
    + by intros ->.
  - intros c c' Heq Hne.
    rewrite <- (categoryOfName_MethodTypeAsString c Hne).
    rewrite <- (categoryOfName_MethodTypeAsString c') by (by rewrite <- Heq).
    by rewrite Heq.
Qed.

(** ** The extractor *)

Lemma accepted_category_nonzero (func : FunctionInfo) (shortForm : bool) :
  (getMethodAttributes func).1 = true ->
  methodCategory (getMethodAttributes func).2 shortForm <> 0.
Proof.
  intros Hacc. apply methodCategory_nonzero, getMethodAttributes_named.
  by rewrite getMethodAttributes_HasProperty.
Qed.

(** X10. Every method that the extractor accepts is classified: its
    category is not 0, with [shortForm] and without, and the category has
    a name. *)
Theorem accepted_method_has_category (func : FunctionInfo) :
  (getMethodAttributes func).1 = true ->
  forall shortForm : bool,
    methodCategory (getMethodAttributes func).2 shortForm <> 0 /\
    vtkParseProperties_MethodTypeAsString
      (methodCategory (getMethodAttributes func).2 shortForm) <> "".
Proof.
  intros Hacc sf.
  pose proof (accepted_category_nonzero func sf Hacc) as Hcat.
  split; [done|].
  destruct (methodCategory_in_table (getMethodAttributes func).2 sf)
    as [H0|Hin]; [done|].
  by apply MethodTypeAsString_table.
Qed.

Lemma accepted_method_has_category_witness :
  methodCategory
    (getMethodAttributes
       (Scenario.method "GetRadius" VTK_PARSE_DOUBLE [])).2 true <> 0.
Proof.
  apply (accepted_method_has_category
           (Scenario.method "GetRadius" VTK_PARSE_DOUBLE [])).
  reflexivity.
Defined.

(** What [indexedMethod] requires. *)
Lemma indexedMethod_true (func : FunctionInfo) :
  indexedMethod func = true ->
  (vtkParse_BaseType (argType func 0) = VTK_PARSE_INT \/
   vtkParse_BaseType (argType func 0) = VTK_PARSE_ID_TYPE) /\
  vtkParse_TypeIsIndirect (argType func 0) = false /\
  ((isVoidType (FI.ReturnType func) = false /\
    FI.NumberOfArguments func = 1%nat) \/
   (isVoidType (FI.ReturnType func) = true /\
    FI.NumberOfArguments func = 2%nat)).
Proof.
  unfold indexedMethod.
  destruct ((0 <? FI.NumberOfArguments func)%nat) eqn:Hn; [|done].
  destruct (vtkParse_TypeIsIndirect (argType func 0)) eqn:Hind;
    [by rewrite andb_false_r|].
  rewrite andb_true_r. simpl.
  destruct (_ || _) eqn:Hbase; [|done].
  apply orb_prop in Hbase. rewrite !Z.eqb_eq in Hbase.
  intros H. split; [done|]. split; [done|].
  destruct (isVoidType (FI.ReturnType func)) eqn:Hvoid; simpl in H.
  - right. split; [done|].
    destruct (Nat.eqb_spec (FI.NumberOfArguments func) 2); [done|].
    discriminate H.
  - left. split; [done|].
    destruct (Nat.eqb_spec (FI.NumberOfArguments func) 1); [done|].
    discriminate H.
Qed.

(** X11. A method is marked indexed only if its first argument is an
    [int] or an id-type passed by value, and it has either one such
    argument and a return that is not [void], or two arguments and a
    [void] return. *)
Theorem indexed_needs_integer_index (func : FunctionInfo) :
  MA.IsIndexed (getMethodAttributes func).2 = true ->
  (vtkParse_BaseType (argType func 0) = VTK_PARSE_INT \/
   vtkParse_BaseType (argType func 0) = VTK_PARSE_ID_TYPE) /\
  vtkParse_TypeIsIndirect (argType func 0) = false /\
  ((isVoidType (FI.ReturnType func) = false /\
    FI.NumberOfArguments func = 1%nat) \/
   (isVoidType (FI.ReturnType func) = true /\
    FI.NumberOfArguments func = 2%nat)).
Proof.
  rewrite getMethodAttributes_IsIndexed.
  destruct (_ || _); [done|]. apply indexedMethod_true.
Qed.

Lemma indexed_needs_integer_index_witness :
  vtkParse_TypeIsIndirect (argType Scenario.setValueAt 0) = false.
Proof.
  apply (indexed_needs_integer_index Scenario.setValueAt). reflexivity.
Defined.

(** An [int] holds the values from [-2^31] to [2^31 - 1] unchanged. *)
Lemma toInt_small (v : Z) :
  -0x80000000 <= v < 0x80000000 -> toInt v = v.
Proof. intros H. unfold toInt. rewrite Z.mod_small; lia. Qed.

(** X12. The shape flags that the extractor sets exclude one another:
    a boolean or enumerated method has the type [void] and the count 0
    and is neither multi-valued, indexed nor hinted, nor both boolean and
    enumerated; a multi-valued method is neither indexed nor hinted, has
    no class name and at least two arguments, and its count is the number
    of its arguments converted to [int]; a hinted method is a [Get]
    method with the parser's hint, and its count is the size of the hint
    converted to [int]: the size itself when it is below [2^31], and its
    low 32 bits in two's complement otherwise. *)
Theorem shape_flags_exclusive (func : FunctionInfo) :
  let attrs := (getMethodAttributes func).2 in
  (MA.IsBoolean attrs || MA.IsEnumerated attrs = true ->
   MA.IsBoolean attrs && MA.IsEnumerated attrs = false /\
   MA.IsMultiValue attrs = false /\ MA.IsIndexed attrs = false /\
   MA.IsHinted attrs = false /\
   MA.Type_ attrs = VTK_PARSE_VOID /\ MA.Count attrs = 0) /\
  (MA.IsMultiValue attrs = true ->
   MA.IsIndexed attrs = false /\ MA.IsHinted attrs = false /\
   MA.ClassName attrs = None /\
   MA.Count attrs = toInt (Z.of_nat (FI.NumberOfArguments func)) /\
   (2 <= FI.NumberOfArguments func)%nat) /\
  (MA.IsHinted attrs = true ->
   FI.HaveHint func = true /\ isGetMethod (FI.Name func) = true /\
   MA.Count attrs = toInt (FI.HintSize func) /\
   (0 <= FI.HintSize func < 0x80000000 ->
    MA.Count attrs = FI.HintSize func)).
Proof.
  simpl.
  assert (Hidx : indexedMethod func = true ->
                 (FI.NumberOfArguments func =? 0)%nat = false).
  { intros (_ & _ & [[_ ->] | [_ ->]])%indexedMethod_true; reflexivity. }
  unfold getMethodAttributes, getterByReturn, byArgument, multiValue,
    noArguments.
  destruct (indexedMethod func) eqn:Hi;
    [specialize (Hidx eq_refl) | clear Hidx];
    repeat match goal with
           | |- context [if ?b then _ else _] => destruct b eqn:?
           end; simpl;
    repeat match goal with
           | H : (_ && _) = true |- _ => apply andb_prop in H as [? ?]
           end;
    (split; [|split]); intros HH; try discriminate HH;
    try congruence; repeat split; try done.
  all: first [ match goal with
               | H : (1 <? _)%nat = true |- _ => apply Nat.ltb_lt in H; lia
               end
             | intros; apply toInt_small; lia ].
Qed.

(** ** The matcher *)

Lemma nameWithoutPrefix_Some (name : option string) (rest : string) :
  nameWithoutPrefix name = Some rest -> exists s, name = Some s.
Proof. destruct name as [s|]; [eauto | done]. Qed.

(** The name that the matcher compares with the name of the property. *)
Lemma longMatchAndName_name
    (meth : MethodAttributes) (name propertyName : string) :
  (longMatchAndName meth name propertyName).2 = name \/
  (isGetNumberOfMethod (MA.Name meth) || isSetNumberOfMethod (MA.Name meth)
   = true /\
   (longMatchAndName meth name propertyName).2
   = str_from 11 (cstr (MA.Name meth))).
Proof.
  unfold longMatchAndName.
  destruct (_ || _) eqn:Hnum.
  - destruct (_ && _); [by left | by right].
  - repeat match goal with
           | |- context [if ?b then _ else _] => destruct b
           end; by left.
Qed.

(** The prefixes before the name of the property in the name of a
    method that matches it. *)
Definition matchedPrefixes : list string :=
  "" :: "SetNumberOf" :: "GetNumberOf" :: strippedPrefixes.

(** X13. If the matcher accepts a method for a property, neither name is
    null, and the name of the method is made of one of the prefixes
    [Set], [Get], [Add], [SetNth], [GetNth], [Remove], [RemoveAll],
    [SetNumberOf], [GetNumberOf] or of no prefix, then the name of the
    property, then a suffix that [isValidSuffix] accepts; and the types
    were found to match. *)
Theorem match_contains_property_name
    (property : PropertyInfo) (meth : MethodAttributes) :
  (methodMatchesProperty property meth).1 = true ->
  exists name propertyName pre suffix,
    MA.Name meth = Some name /\ PI.Name property = Some propertyName /\
    pre ∈ matchedPrefixes /\
    name = pre ++ propertyName ++ suffix /\
    isValidSuffix (Some name) propertyName suffix = true /\
    typesMatch property meth = true.
Proof.
  unfold methodMatchesProperty.
  destruct (nameWithoutPrefix (MA.Name meth)) as [short|] eqn:Hshort;
    [|done].
  destruct (nameWithoutPrefix_Some _ _ Hshort) as [name Hname].
  destruct (PI.Name property) as [propertyName|]; [|done].
  pose proof (longMatchAndName_name meth short propertyName) as Hlm.
  destruct (longMatchAndName meth short propertyName) as [longMatch cmp].
  simpl in Hlm.
  destruct (strncmp_eq cmp propertyName (strlen propertyName)) eqn:Hcmp;
    [|done].
  simpl.
  destruct (isValidSuffix (MA.Name meth) propertyName
              (str_from (strlen propertyName) cmp)) eqn:Hsuffix; [|done].
  simpl. intros Htypes.
  apply strncmp_eq_prefix in Hcmp.
  assert (Hpre : exists pre, pre ∈ matchedPrefixes /\ name = pre ++ cmp).
  { rewrite Hname in Hshort, Hlm. unfold matchedPrefixes, strippedPrefixes.
    destruct Hlm as [-> | [Hnum ->]].
    - destruct (nameWithoutPrefix_cases name)
        as [(Hsame & _) | (pre & rest & Hin & -> & Hrest & _)].
      + exists "". split; [in_list|].
        change ("" ++ short) with short. congruence.
      + exists pre. split; [by do 3 right | congruence].
    - simpl. apply orb_prop in Hnum as [Hget | Hset].
      + apply isGetNumberOfMethod_shape in Hget as (rest & -> & _).
        exists "GetNumberOf". split; [in_list | done].
      + apply isSetNumberOfMethod_shape in Hset as (rest & -> & _).
        exists "SetNumberOf". split; [in_list | done]. }
  destruct Hpre as (pre & Hin & Heq).
  exists name, propertyName, pre, (str_from (strlen propertyName) cmp).
  rewrite <- Hname, <- Hcmp. done.
Qed.

Lemma match_contains_property_name_witness :
  exists name propertyName pre suffix,
    MA.Name Scenario.modeOn = Some name /\
    PI.Name Scenario.modeProperty = Some propertyName /\
    pre ∈ matchedPrefixes /\
    name = pre ++ propertyName ++ suffix /\
    isValidSuffix (Some name) propertyName suffix = true /\
    typesMatch Scenario.modeProperty Scenario.modeOn = true.
Proof.
  apply (match_contains_property_name Scenario.modeProperty Scenario.modeOn).
  reflexivity.
Defined.

(** The matcher returns 1 only after the type tests. *)
Lemma methodMatchesProperty_typesMatch
    (property : PropertyInfo) (meth : MethodAttributes) :
  (methodMatchesProperty property meth).1 = true ->
  typesMatch property meth = true.
Proof.
  unfold methodMatchesProperty.
  destruct (nameWithoutPrefix (MA.Name meth)); [|done].
  destruct (PI.Name property); [|done].
  destruct (longMatchAndName meth _ _).
  repeat match goal with
         | |- context [if ?b then _ else _] => destruct b
         end; done.
Qed.

(** X14. If the matcher accepts a method that is no [RemoveAll],
    [GetNumberOf] or [SetNumberOf] method, then the type of the method,
    once its qualifiers and its reference are removed, the pointer of a
    multi-valued method is added and the type is promoted, is the type of
    the property, and the counts are equal; if the type is a vtkObject,
    it is a plain pointer, the method is not multi-valued, the count is
    0, and the two class names are given and equal. *)
Theorem match_types_agree
    (property : PropertyInfo) (meth : MethodAttributes) :
  (methodMatchesProperty property meth).1 = true ->
  isRemoveAllMethod (MA.Name meth) = false ->
  isGetNumberOfMethod (MA.Name meth) = false ->
  isSetNumberOfMethod (MA.Name meth) = false ->
  exists methType,
    multiValueType meth (removeRef (stripQualifiers (MA.Type_ meth)))
    = Some methType /\
    promoteType meth methType (PI.Type_ property) = PI.Type_ property /\
    MA.Count meth = PI.Count property /\
    (vtkParse_BaseType (PI.Type_ property) = VTK_PARSE_VTK_OBJECT ->
     vtkParse_TypeIsPointer (PI.Type_ property) = true /\
     MA.IsMultiValue meth = false /\ MA.Count meth = 0 /\
     exists className,
       MA.ClassName meth = Some className /\
       PI.ClassName property = Some className).
Proof.
  intros Htypes%methodMatchesProperty_typesMatch Hra Hgn Hsn.
  unfold typesMatch in Htypes. rewrite Hra, Hgn, Hsn in Htypes.
  simpl in Htypes.
  destruct (multiValueType meth _) as [methType|]; [|done].
  exists methType. split; [done|].
  unfold typeAndCountMatch in Htypes.
  destruct (Z.eqb_spec (promoteType meth methType (PI.Type_ property))
              (PI.Type_ property)) as [Hty|]; [|done].
  destruct (Z.eqb_spec (MA.Count meth) (PI.Count property)) as [Hcnt|];
    [|done].
  simpl in Htypes. split; [done|]. split; [done|].
  rewrite Hty in Htypes. intros Hobj. rewrite Hobj in Htypes.
  simpl in Htypes.
  destruct (MA.IsMultiValue meth); [done|].
  destruct (vtkParse_TypeIsPointer (PI.Type_ property)); [|done].
  destruct (Z.eqb_spec (MA.Count meth) 0); [|done]. simpl in Htypes.
  destruct (MA.ClassName meth) as [c|]; [|done].
  destruct (PI.ClassName property) as [d|]; [|done].
  unfold strcmp_eq in Htypes.
  destruct (String.eqb_spec c d) as [->|]; [|done].
  eauto 10.
Qed.

Lemma match_types_agree_witness :
  exists methType,
    multiValueType Scenario.modeOn
      (removeRef (stripQualifiers (MA.Type_ Scenario.modeOn)))
    = Some methType /\
    promoteType Scenario.modeOn methType (PI.Type_ Scenario.modeProperty)
    = PI.Type_ Scenario.modeProperty /\
    MA.Count Scenario.modeOn = PI.Count Scenario.modeProperty /\
    (vtkParse_BaseType (PI.Type_ Scenario.modeProperty)
     = VTK_PARSE_VTK_OBJECT ->
     vtkParse_TypeIsPointer (PI.Type_ Scenario.modeProperty) = true /\
     MA.IsMultiValue Scenario.modeOn = false /\
     MA.Count Scenario.modeOn = 0 /\
     exists className,
       MA.ClassName Scenario.modeOn = Some className /\
       PI.ClassName Scenario.modeProperty = Some className).
Proof.
  apply (match_types_agree Scenario.modeProperty Scenario.modeOn);
    reflexivity.
Defined.

(** ** The type of a new property *)

Lemma byte_forall (check : Z -> bool) :
  forallb check (map Z.of_nat (seq 0 256)) = true ->
  forall b, 0 <= b < 256 -> check b = true.
Proof.
  intros H b Hb. rewrite forallb_forall in H. apply H.
  apply in_map_iff. exists (Z.to_nat b). split; [lia|].
  apply in_seq. lia.
Qed.

Lemma vtkParse_BaseType_range (t : Z) : 0 <= vtkParse_BaseType t < 256.
Proof.
  unfold vtkParse_BaseType, VTK_PARSE_BASE_TYPE.
  change 255 with (Z.ones 8). rewrite Z.land_ones by lia.
  apply Z.mod_pos_bound. lia.
Qed.

(** A base type with one of the indirections that
    [initializePropertyInfo] adds. *)
Definition normalizedWith (ind b : Z) : bool :=
  (vtkParse_BaseType (Z.lor b ind) =? b) &&
  (vtkParse_TypeIndirection (Z.lor b ind) =? ind) &&
  negb (vtkParse_TypeHasQualifier (Z.lor b ind)).

Lemma normalizedWith_base (ind t : Z) :
  forallb (normalizedWith ind) (map Z.of_nat (seq 0 256)) = true ->
  vtkParse_BaseType (Z.lor (vtkParse_BaseType t) ind) = vtkParse_BaseType t /\
  vtkParse_TypeIndirection (Z.lor (vtkParse_BaseType t) ind) = ind /\
  vtkParse_TypeHasQualifier (Z.lor (vtkParse_BaseType t) ind) = false.
Proof.
  intros H.
  pose proof (byte_forall _ H _ (vtkParse_BaseType_range t)) as Hb.
  unfold normalizedWith in Hb.
  apply andb_prop in Hb as [Hb Hq]. apply andb_prop in Hb as [Hb Hi].
  apply Z.eqb_eq in Hb, Hi. apply negb_true_iff in Hq. done.
Qed.

(** X15. The type that [initializePropertyInfo] gives to a property has
    the base type of the seed (of [int] for a boolean or enumerated
    seed), carries no qualifier and is no reference: its indirection is
    none, [POINTER], [CONST_POINTER] or [POINTER_POINTER]. *)
Theorem property_type_normalized
    (meth : MethodAttributes) (methodBit : Z) :
  let type := if MA.IsBoolean meth || MA.IsEnumerated meth
              then VTK_PARSE_INT else MA.Type_ meth in
  let property := initializePropertyInfo meth methodBit in
  vtkParse_BaseType (PI.Type_ property) = vtkParse_BaseType type /\
  vtkParse_TypeIndirection (PI.Type_ property)
  ∈ [0; VTK_PARSE_POINTER; VTK_PARSE_CONST_POINTER;
     VTK_PARSE_POINTER_POINTER] /\
  vtkParse_TypeHasQualifier (PI.Type_ property) = false.
Proof.
  simpl. unfold initialPropertyType.
  set (type := if MA.IsBoolean meth || MA.IsEnumerated meth
               then VTK_PARSE_INT else MA.Type_ meth).
  destruct (normalizedWith_base VTK_PARSE_POINTER type)
    as (B1 & I1 & Q1); [by vm_compute|].
  destruct (normalizedWith_base VTK_PARSE_CONST_POINTER type)
    as (B2 & I2 & Q2); [by vm_compute|].
  destruct (normalizedWith_base VTK_PARSE_POINTER_POINTER type)
    as (B3 & I3 & Q3); [by vm_compute|].
  destruct (normalizedWith_base 0 type) as (B0 & I0 & Q0); [by vm_compute|].
  rewrite Z.lor_0_r in B0, I0, Q0.
  repeat match goal with
         | |- context [if ?b then _ else _] => destruct b
         end;
    rewrite ?B1, ?I1, ?Q1, ?B2, ?I2, ?Q2, ?B3, ?I3, ?Q3, ?B0, ?I0, ?Q0;
    (split; [done|]); (split; [in_list | done]).
Qed.

(** ** Bitfields that grow *)

Definition bitsIncluded (a b : Z) : Prop := Z.lor a b = b.

Lemma bitsIncluded_refl (a : Z) : bitsIncluded a a.
Proof. apply Z.lor_diag. Qed.

Lemma bitsIncluded_trans (a b c : Z) :
  bitsIncluded a b -> bitsIncluded b c -> bitsIncluded a c.
Proof.
  unfold bitsIncluded. intros Hab Hbc.
  by rewrite <- Hbc, Z.lor_assoc, Hab.
Qed.

Lemma bitsIncluded_lor (a b : Z) : bitsIncluded a (Z.lor a b).
Proof. unfold bitsIncluded. by rewrite Z.lor_assoc, Z.lor_diag. Qed.

Lemma bitsIncluded_land (a b mask : Z) :
  bitsIncluded a b -> Z.land a mask <> 0 -> Z.land b mask <> 0.
Proof.
  unfold bitsIncluded. intros <- Ha.
  rewrite Z.land_lor_distr_l, Z.lor_eq_0_iff. tauto.
Qed.

(** [p'] is [p] after more methods were folded in: the name, the type,
    the count, the class and the comment are those of [p], and the
    bitfields have the bits of [p] and more. *)
Record extends (p p' : PropertyInfo) : Prop := mkExtends {
  ext_name : PI.Name p' = PI.Name p;
  ext_type : PI.Type_ p' = PI.Type_ p;
  ext_count : PI.Count p' = PI.Count p;
  ext_class : PI.ClassName p' = PI.ClassName p;
  ext_comment : PI.Comment p' = PI.Comment p;
  ext_public : bitsIncluded (PI.PublicMethods p) (PI.PublicMethods p');
  ext_protected :
    bitsIncluded (PI.ProtectedMethods p) (PI.ProtectedMethods p');
  ext_private : bitsIncluded (PI.PrivateMethods p) (PI.PrivateMethods p');
  ext_legacy : bitsIncluded (PI.LegacyMethods p) (PI.LegacyMethods p')
}.

Lemma extends_refl (p : PropertyInfo) : extends p p.
Proof. constructor; try done; apply bitsIncluded_refl. Qed.

Lemma extends_trans (p q r : PropertyInfo) :
  extends p q -> extends q r -> extends p r.
Proof.
  intros [] []. constructor; try congruence;
    eapply bitsIncluded_trans; eassumption.
Qed.

Lemma addMethodBit_extends (meth : MethodAttributes) (bit : Z)
    (p : PropertyInfo) :
  extends p (addMethodBit meth bit p).
Proof.
  unfold addMethodBit.
  destruct (MA.IsPublic meth), (MA.IsProtected meth), (MA.IsLegacy meth);
    constructor; simpl; try done;
    first [apply bitsIncluded_refl | apply bitsIncluded_lor].
Qed.

Lemma withStatic_extends (p : PropertyInfo) : extends p (PI.withStatic p).
Proof. constructor; simpl; try done; apply bitsIncluded_refl. Qed.

(** [collectEnumConstant] writes [EnumConstantNames] only. *)
Lemma collectEnumConstant_fields
    (meth : MethodAttributes) (p p' : PropertyInfo) :
  collectEnumConstant meth p = Some p' ->
  exists names, p' = PI.withEnumConstantNames names p.
Proof.
  unfold collectEnumConstant.
  assert (Hsame : Some p = Some p' ->
                  exists names, p' = PI.withEnumConstantNames names p).
  { intros [= <-]. exists (PI.EnumConstantNames p). by destruct p. }
  destruct (MA.IsEnumerated meth); [|done].
  destruct (enumConstantOf (PI.Name p) meth) as [constant|]; [|done].
  destruct (appendEnumConstant _ _) as [names|]; simpl; [|done].
  intros [= <-]. eauto.
Qed.

Lemma withEnumConstantNames_extends
    (names : option (list slot)) (p : PropertyInfo) :
  extends p (PI.withEnumConstantNames names p).
Proof. constructor; simpl; try done; apply bitsIncluded_refl. Qed.

(** *** The matcher and a property that grows *)

Lemma accessBitfield_extends
    (p p' : PropertyInfo) (meth : MethodAttributes) :
  extends p p' ->
  bitsIncluded (accessBitfield p meth) (accessBitfield p' meth).
Proof.
  intros []. unfold accessBitfield.
  by destruct (MA.IsPublic meth), (MA.IsProtected meth).
Qed.

Lemma typeAndCountMatch_extends
    (p p' : PropertyInfo) (meth : MethodAttributes) (methType : Z) :
  extends p p' ->
  typeAndCountMatch p' meth methType = typeAndCountMatch p meth methType.
Proof.
  intros []. unfold typeAndCountMatch.
  by rewrite ext_type0, ext_count0, ext_class0.
Qed.

Lemma typesMatch_extends (p p' : PropertyInfo) (meth : MethodAttributes) :
  extends p p' -> typesMatch p meth = true -> typesMatch p' meth = true.
Proof.
  intros Hext. pose proof (accessBitfield_extends p p' meth Hext) as Hacc.
  assert (Hmask : forall (c : bool) (mask : Z),
             c && negb (Z.land (accessBitfield p' meth) mask =? 0) = false ->
             c && negb (Z.land (accessBitfield p meth) mask =? 0) = false).
  { intros c mask. destruct c; [simpl | done].
    rewrite !negb_false_iff, !Z.eqb_eq. intros H'.
    destruct (Z.eq_dec (Z.land (accessBitfield p meth) mask) 0) as [|Hne];
      [done|].
    by apply (bitsIncluded_land _ _ mask Hacc) in Hne. }
  unfold typesMatch.
  rewrite (ext_type _ _ Hext).
  destruct (_ && negb (Z.land (accessBitfield p' meth) _ =? 0)) eqn:T1;
    [done|].
  apply Hmask in T1. rewrite T1.
  destruct (_ && negb (Z.land (accessBitfield p' meth) _ =? 0)) eqn:T2;
    [done|].
  apply Hmask in T2. rewrite T2.
  destruct (_ && negb (Z.land (accessBitfield p' meth) _ =? 0)) eqn:T3;
    [done|].
  apply Hmask in T3. rewrite T3.
  destruct (multiValueType meth _); [|done].
  by rewrite (typeAndCountMatch_extends p p').
Qed.

(** [*longMatch] depends on the two names only. *)
Lemma longMatch_name (p p' : PropertyInfo) (meth : MethodAttributes) :
  PI.Name p' = PI.Name p ->
  (methodMatchesProperty p' meth).2 = (methodMatchesProperty p meth).2.
Proof.
  intros Hname. unfold methodMatchesProperty. rewrite Hname.
  destruct (nameWithoutPrefix (MA.Name meth)); [|done].
  destruct (PI.Name p); [|done].
  destruct (longMatchAndName meth _ _).
  repeat match goal with
         | |- context [if ?b then _ else _] => destruct b
         end; done.
Qed.

(** A method that matches a property still matches it after more
    methods were folded into the property. *)
Lemma methodMatchesProperty_extends
    (p p' : PropertyInfo) (meth : MethodAttributes) :
  extends p p' ->
  (methodMatchesProperty p meth).1 = true ->
  (methodMatchesProperty p' meth).1 = true.
Proof.
  intros Hext. pose proof (typesMatch_extends p p' meth Hext) as Htypes.
  unfold methodMatchesProperty. rewrite (ext_name _ _ Hext).
  destruct (nameWithoutPrefix (MA.Name meth)); [|done].
  destruct (PI.Name p); [|done].
  destruct (longMatchAndName meth _ _).
  repeat match goal with
         | |- context [if ?b then _ else _] => destruct b
         end; done.
Qed.

(** ** The constant of an enumerated setter *)

(** X16. The constant that [findAllMatches] stores for an enumerated
    setter is a part of the name of the setter: the name is made of as
    many characters as [Set] and the name of the property have, then
    ["To"], then the constant, and the constant starts with a digit or
    an upper-case letter.  The pointer that is stored points into the
    name, before its terminator. *)
Theorem enum_constant_in_name
    (propertyName : option string) (meth : MethodAttributes)
    (constant : string) :
  enumConstantOf propertyName meth = Some constant ->
  exists pre,
    cstr (MA.Name meth) = pre ++ "To" ++ constant /\
    strlen pre = (3 + strlen (cstr propertyName))%nat /\
    isdigit constant@@0 || isupper constant@@0 = true.
Proof.
  unfold enumConstantOf.
  set (m := strlen (cstr propertyName)). set (name := cstr (MA.Name meth)).
  destruct (_ && _) eqn:Hcond; [|done]. intros [= <-].
  apply andb_prop in Hcond as [Hcond Hc]. apply andb_prop in Hcond as [HT Ho].
  apply Ascii.eqb_eq in HT, Ho.
  assert (Hlt : (5 + m < strlen name)%nat).
  { apply orb_prop in Hc as [Hc|Hc];
      [by apply isdigit_in_string | by apply isupper_in_string]. }
  destruct (str_from_split (3 + m) name) as (pre & Hlen & Heq); [lia|].
  exists pre. split; [|split; [done|]].
  - etrans; [exact Heq|]. apply (f_equal (String.append pre)).
    pose proof (chr_str_from (3 + m) name 0) as H0.
    pose proof (chr_str_from (3 + m) name 1) as H1.
    pose proof (str_from_add (3 + m) 2 name) as H2.
    replace (3 + m + 0)%nat with (3 + m)%nat in H0 by lia.
    replace (3 + m + 1)%nat with (4 + m)%nat in H1 by lia.
    replace (3 + m + 2)%nat with (5 + m)%nat in H2 by lia.
    rewrite HT in H0. rewrite Ho in H1.
    change (str_from (3 + m) name = "To" ++ str_from (5 + m) name).
    rewrite <- H2.
    destruct (str_from (3 + m) name) as [|c0 [|c1 rest]];
      unfold chr in H0, H1; simpl in H0, H1; try done.
    by subst.
  - change (isdigit (str_from (5 + m) name)@@0
            || isupper (str_from (5 + m) name)@@0 = true).
    rewrite chr_str_from. by rewrite Nat.add_0_r.
Qed.

Lemma enum_constant_in_name_witness :
  exists pre,
    cstr (MA.Name Scenario.setModeToFast) = pre ++ "To" ++ "Fast" /\
    strlen pre = (3 + strlen (cstr (Some "Mode")))%nat /\
    isdigit "Fast"@@0 || isupper "Fast"@@0 = true.
Proof.
  apply (enum_constant_in_name (Some "Mode") Scenario.setModeToFast "Fast").
  reflexivity.
Defined.

(** ** What [findAllMatches] folds into a property *)

(** The attributes of the methods with [IsRepeat] set everywhere: what
    is left when the one field that changes during the synthesis is
    masked. *)
Definition normalized (facts : list MethodAttributes)
    : list MethodAttributes :=
  map MA.withRepeat facts.

Lemma methodMatchesProperty_withRepeat
    (p : PropertyInfo) (m : MethodAttributes) :
  methodMatchesProperty p (MA.withRepeat m) = methodMatchesProperty p m.
Proof. reflexivity. Qed.

Definition orBits (l : list Z) : Z := fold_right Z.lor 0 l.

Lemma orBits_snoc (l : list Z) (x : Z) :
  orBits (l ++ [x]) = Z.lor (orBits l) x.
Proof.
  induction l as [|y l IH]; simpl.
  - by rewrite Z.lor_0_r.
  - by rewrite IH, Z.lor_assoc.
Qed.

(** The access level of a method, as the builder reads it. *)
Definition publicAccess (m : MethodAttributes) : bool := MA.IsPublic m.

Definition protectedAccess (m : MethodAttributes) : bool :=
  negb (MA.IsPublic m) && MA.IsProtected m.

Definition privateAccess (m : MethodAttributes) : bool :=
  negb (MA.IsPublic m) && negb (MA.IsProtected m).

(** The bit that a seed, and a method folded into a property, adds to
    the bitfields of the property. *)
Definition seedBit (m : MethodAttributes) : Z := methodCategory m false.

Definition foldedBit (p : PropertyInfo) (m : MethodAttributes) : Z :=
  methodCategory m (negb (methodMatchesProperty p m).2).

Definition bitOf (select : MethodAttributes -> bool)
    (bit : MethodAttributes -> Z) (nf : list MethodAttributes) (j : nat)
    : Z :=
  match nf !! j with
  | Some m => if select m then bit m else 0
  | None => 0
  end.

Lemma addMethodBit_bits (meth : MethodAttributes) (bit : Z)
    (p : PropertyInfo) :
  PI.PublicMethods (addMethodBit meth bit p)
  = Z.lor (PI.PublicMethods p) (if publicAccess meth then bit else 0) /\
  PI.ProtectedMethods (addMethodBit meth bit p)
  = Z.lor (PI.ProtectedMethods p) (if protectedAccess meth then bit else 0) /\
  PI.PrivateMethods (addMethodBit meth bit p)
  = Z.lor (PI.PrivateMethods p) (if privateAccess meth then bit else 0) /\
  PI.LegacyMethods (addMethodBit meth bit p)
  = Z.lor (PI.LegacyMethods p) (if MA.IsLegacy meth then bit else 0).
Proof.
  unfold addMethodBit, publicAccess, protectedAccess, privateAccess.
  destruct (MA.IsPublic meth), (MA.IsProtected meth), (MA.IsLegacy meth);
    simpl; by rewrite ?Z.lor_0_r.
Qed.

Section Folding.

Variable nf : list MethodAttributes.
Variable methods : list MethodAttributes.
Hypothesis methods_nf : map MA.withRepeat methods = nf.

(** The property as [initializePropertyInfo] left it, and
    [matchedMethods] as [addProperty] passed it. *)
Variable p0 : PropertyInfo.
Variable M0 : list bool.
Variable propertyId : Z.

Record Folding (fs : FindState) : Prop := mkFolding {
  fold_extends : extends p0 (fs_property fs);
  fold_length : length (fs_matched fs) = length M0;
  fold_matched :
    forall j, fs_matched fs !! j = Some true <->
              M0 !! j = Some true \/ j ∈ fs_folded fs;
  fold_members :
    forall j, j ∈ fs_folded fs ->
      exists m, nf !! j = Some m /\
                (methodMatchesProperty (fs_property fs) m).1 = true;
  fold_public :
    PI.PublicMethods (fs_property fs)
    = Z.lor (PI.PublicMethods p0)
        (orBits (map (bitOf publicAccess (foldedBit p0) nf)
                     (fs_folded fs)));
  fold_protected :
    PI.ProtectedMethods (fs_property fs)
    = Z.lor (PI.ProtectedMethods p0)
        (orBits (map (bitOf protectedAccess (foldedBit p0) nf)
                     (fs_folded fs)));
  fold_private :
    PI.PrivateMethods (fs_property fs)
    = Z.lor (PI.PrivateMethods p0)
        (orBits (map (bitOf privateAccess (foldedBit p0) nf)
                     (fs_folded fs)));
  fold_legacy :
    PI.LegacyMethods (fs_property fs)
    = Z.lor (PI.LegacyMethods p0)
        (orBits (map (bitOf MA.IsLegacy (foldedBit p0) nf)
                     (fs_folded fs)))
}.

Lemma lookup_nf (i : nat) (meth : MethodAttributes) :
  methods !! i = Some meth -> nf !! i = Some (MA.withRepeat meth).
Proof using methods_nf.
  intros H. by rewrite <- methods_nf, lookup_map, H.
Qed.

Lemma foldMethod_folding (fs fs' : FindState) (i : nat) :
  Folding fs -> foldMethod propertyId methods fs i = Some fs' ->
  Folding fs'.
Proof using methods_nf.
  intros Hf. unfold foldMethod.
  destruct (fs_matched fs !! i) as [[]|] eqn:Hm;
    [by intros [= <-] | | by intros [= <-]].
  destruct (methods !! i) as [meth|] eqn:Hmeth; [|by intros [= <-]].
  destruct (methodMatchesProperty (fs_property fs) meth)
    as [[] longMatch] eqn:Hmatch; [|by intros [= <-]].
  set (p1 := if MA.IsStatic meth then PI.withStatic (fs_property fs)
             else fs_property fs).
  set (bit := methodCategory meth (negb longMatch)).
  destruct (collectEnumConstant meth (addMethodBit meth bit p1))
    as [p'|] eqn:Hc; simpl; [|done].
  intros [= <-].
  apply collectEnumConstant_fields in Hc as [names ->].
  assert (Hp1 : extends (fs_property fs) p1).
  { unfold p1. destruct (MA.IsStatic meth);
      [apply withStatic_extends | apply extends_refl]. }
  assert (Hext : extends (fs_property fs)
                   (PI.withEnumConstantNames names
                      (addMethodBit meth bit p1))).
  { eapply extends_trans; [exact Hp1|].
    eapply extends_trans; [apply addMethodBit_extends|].
    apply withEnumConstantNames_extends. }
  pose proof (lookup_nf i meth Hmeth) as Hnf.
  assert (Hlt : (i < length (fs_matched fs))%nat)
    by (by eapply lookup_lt_Some).
  assert (Hbit : foldedBit p0 (MA.withRepeat meth) = bit).
  { unfold foldedBit, bit.
    rewrite methodMatchesProperty_withRepeat.
    rewrite <- (longMatch_name p0 (fs_property fs) meth
                  (ext_name _ _ (fold_extends _ Hf))).
    by rewrite Hmatch. }
  assert (Hbits : forall select : MethodAttributes -> bool,
             (forall m, select (MA.withRepeat m) = select m) ->
             orBits (map (bitOf select (foldedBit p0) nf)
                         (fs_folded fs ++ [i]))
             = Z.lor (orBits (map (bitOf select (foldedBit p0) nf)
                                  (fs_folded fs)))
                     (if select meth then bit else 0)).
  { intros select Hsel. rewrite map_app. cbn [map]. rewrite orBits_snoc.
    f_equal.
    unfold bitOf. by rewrite Hnf, Hsel, Hbit. }
  destruct (addMethodBit_bits meth bit p1) as (Bpub & Bpro & Bpri & Bleg).
  assert (Hsame : PI.PublicMethods p1 = PI.PublicMethods (fs_property fs) /\
                  PI.ProtectedMethods p1
                  = PI.ProtectedMethods (fs_property fs) /\
                  PI.PrivateMethods p1 = PI.PrivateMethods (fs_property fs) /\
                  PI.LegacyMethods p1 = PI.LegacyMethods (fs_property fs)).
  { unfold p1. by destruct (MA.IsStatic meth). }
  destruct Hsame as (Spub & Spro & Spri & Sleg).
  constructor; simpl.
  - eapply extends_trans; [apply (fold_extends _ Hf) | exact Hext].
  - rewrite length_insert. apply (fold_length _ Hf).
  - intros j. rewrite elem_of_app, list_elem_of_singleton.
    destruct (decide (i = j)) as [<-|Hne].
    + rewrite list_lookup_insert_eq by done. tauto.
    + rewrite list_lookup_insert_ne by done.
      rewrite (fold_matched _ Hf j).
      split; [tauto | intros [H|[H|H]]; [tauto | tauto | congruence]].
  - intros j [Hj| ->%list_elem_of_singleton]%elem_of_app.
    + destruct (fold_members _ Hf j Hj) as (m & Hmj & Hmm).
      exists m. split; [done|].
      by apply (methodMatchesProperty_extends (fs_property fs)).
    + exists (MA.withRepeat meth). split; [done|].
      rewrite methodMatchesProperty_withRepeat.
      apply (methodMatchesProperty_extends (fs_property fs)); [done|].
      by rewrite Hmatch.
  - rewrite Bpub, Spub, (fold_public _ Hf), (Hbits publicAccess) by done.
    by rewrite Z.lor_assoc.
  - rewrite Bpro, Spro, (fold_protected _ Hf), (Hbits protectedAccess)
      by done.
    by rewrite Z.lor_assoc.
  - rewrite Bpri, Spri, (fold_private _ Hf), (Hbits privateAccess) by done.
    by rewrite Z.lor_assoc.
  - rewrite Bleg, Sleg, (fold_legacy _ Hf), (Hbits MA.IsLegacy) by done.
    by rewrite Z.lor_assoc.
Qed.

Lemma foldlM_preserved {A B : Type} (Q : A -> Prop)
    (f : A -> B -> option A) :
  (forall a x a', Q a -> f a x = Some a' -> Q a') ->
  forall l a a', Q a -> foldlM f a l = Some a' -> Q a'.
Proof.
  intros Hstep l. induction l as [|x l IH]; intros a a' Ha; simpl.
  - by intros [= <-].
  - destruct (f a x) as [a1|] eqn:Hf; simpl; [|done].
    apply IH. by eapply Hstep.
Qed.

Lemma scanMethods_folding (fs fs' : FindState) :
  Folding fs -> scanMethods propertyId methods fs = Some fs' -> Folding fs'.
Proof using methods_nf.
  intros Hf. unfold scanMethods.
  apply (foldlM_preserved Folding).
  - intros a x a' Ha. by apply foldMethod_folding.
  - by destruct Hf.
Qed.

Lemma findAllMatches_loop_folding (fuel : nat) (fs fs' : FindState) :
  Folding fs ->
  findAllMatches_loop fuel propertyId methods fs = Some fs' -> Folding fs'.
Proof using methods_nf.
  revert fs. induction fuel as [|fuel IH]; intros fs Hf; simpl; [done|].
  destruct (scanMethods propertyId methods fs) as [fs1|] eqn:Hscan;
    simpl; [|done].
  pose proof (scanMethods_folding fs fs1 Hf Hscan) as Hf1.
  destruct (fs_foundNoMatches fs1); [by intros [= <-] | by apply IH].
Qed.

(** *** The loop stops at a fixed point *)

(** No method still under consideration matches the property. *)
Definition noMatchLeft (p : PropertyInfo) (matched : list bool) : Prop :=
  forall j m, matched !! j = Some false -> nf !! j = Some m ->
              (methodMatchesProperty p m).1 = false.

Lemma foldMethod_found (fs fs' : FindState) (i : nat) :
  foldMethod propertyId methods fs i = Some fs' ->
  fs_foundNoMatches fs' = false \/
  (fs' = fs /\
   forall m, fs_matched fs !! i = Some false -> methods !! i = Some m ->
             (methodMatchesProperty (fs_property fs) m).1 = false).
Proof.
  unfold foldMethod.
  destruct (fs_matched fs !! i) as [[]|];
    [intros [= <-]; by right | | intros [= <-]; by right].
  destruct (methods !! i) as [meth|]; [|intros [= <-]; by right].
  destruct (methodMatchesProperty (fs_property fs) meth)
    as [[] longMatch] eqn:Hmatch.
  - destruct (collectEnumConstant _ _); simpl; [|done].
    intros [= <-]. by left.
  - intros [= <-]. right. split; [done|]. intros m _ [= <-].
    by rewrite Hmatch.
Qed.

Lemma foldlM_found_false (l : list nat) (fs fs' : FindState) :
  foldlM (foldMethod propertyId methods) fs l = Some fs' ->
  fs_foundNoMatches fs = false -> fs_foundNoMatches fs' = false.
Proof.
  revert fs. induction l as [|i l IH]; intros fs; simpl.
  - by intros [= <-].
  - destruct (foldMethod propertyId methods fs i) as [fs1|] eqn:Hstep;
      simpl; [|done].
    intros Hrun Hfalse. apply (IH fs1 Hrun).
    destruct (foldMethod_found fs fs1 i Hstep) as [H|[-> _]]; done.
Qed.

Lemma foldlM_found_true (l : list nat) (fs fs' : FindState) :
  foldlM (foldMethod propertyId methods) fs l = Some fs' ->
  fs_foundNoMatches fs' = true ->
  fs' = fs /\
  forall i m, i ∈ l -> fs_matched fs !! i = Some false ->
              methods !! i = Some m ->
              (methodMatchesProperty (fs_property fs) m).1 = false.
Proof.
  revert fs. induction l as [|i l IH]; intros fs; simpl.
  - intros [= <-] _. split; [done|]. intros i m Hi. by apply elem_of_nil in Hi.
  - destruct (foldMethod propertyId methods fs i) as [fs1|] eqn:Hstep;
      simpl; [|done].
    intros Hrun Htrue.
    destruct (foldMethod_found fs fs1 i Hstep) as [Hfalse|[-> Hi]].
    + by rewrite (foldlM_found_false l fs1 fs' Hrun Hfalse) in Htrue.
    + destruct (IH fs Hrun Htrue) as [-> Hl]. split; [done|].
      intros j m [->|Hj]%elem_of_cons; [apply Hi | by apply Hl].
Qed.

Lemma findAllMatches_loop_fixed_point
    (fuel : nat) (fs fs' : FindState) :
  findAllMatches_loop fuel propertyId methods fs = Some fs' ->
  noMatchLeft (fs_property fs') (fs_matched fs').
Proof using methods_nf.
  revert fs. induction fuel as [|fuel IH]; intros fs; simpl; [done|].
  destruct (scanMethods propertyId methods fs) as [fs1|] eqn:Hscan;
    simpl; [|done].
  destruct (fs_foundNoMatches fs1) eqn:Hfound; [|by apply IH].
  intros [= <-]. unfold scanMethods in Hscan.
  destruct (foldlM_found_true _ _ _ Hscan Hfound) as [-> Hno].
  simpl in *. intros j m Hj Hm.
  rewrite <- methods_nf, lookup_map in Hm.
  destruct (methods !! j) as [meth|] eqn:Hmeth; [|done].
  injection Hm as <-. rewrite methodMatchesProperty_withRepeat.
  apply (Hno j); [|done..].
  apply elem_of_seq. apply lookup_lt_Some in Hmeth. lia.
Qed.

End Folding.

(** ** The members of the properties *)

Lemma bitOf_ext (select : MethodAttributes -> bool)
    (bit bit' : MethodAttributes -> Z) (nf : list MethodAttributes)
    (l : list nat) :
  (forall m, bit m = bit' m) ->
  map (bitOf select bit nf) l = map (bitOf select bit' nf) l.
Proof.
  intros H. apply map_ext. intros j. unfold bitOf.
  destruct (nf !! j) as [m|]; [|done]. by rewrite H.
Qed.

Section Members.

(** The normalized attributes of the methods, and [matchedMethods] as
    [categorizeProperties] initializes it. *)
Variable nf : list MethodAttributes.
Variable init : list bool.

(** A property and its members: the property was initialized from the
    seed, a method under consideration at the start; its bitfields are
    made of the bits of the members; and the matcher accepts every other
    member for the property. *)
Definition madeOf (p : PropertyInfo) (members : list nat) : Prop :=
  exists seed folded m,
    members = seed :: folded /\
    nf !! seed = Some m /\
    init !! seed = Some false /\
    extends (initializePropertyInfo m (seedBit m)) p /\
    PI.PublicMethods p
    = Z.lor (bitOf publicAccess seedBit nf seed)
        (orBits (map (bitOf publicAccess (foldedBit p) nf) folded)) /\
    PI.ProtectedMethods p
    = Z.lor (bitOf protectedAccess seedBit nf seed)
        (orBits (map (bitOf protectedAccess (foldedBit p) nf) folded)) /\
    PI.PrivateMethods p
    = Z.lor (bitOf privateAccess seedBit nf seed)
        (orBits (map (bitOf privateAccess (foldedBit p) nf) folded)) /\
    PI.LegacyMethods p
    = Z.lor (bitOf MA.IsLegacy seedBit nf seed)
        (orBits (map (bitOf MA.IsLegacy (foldedBit p) nf) folded)) /\
    (forall j, j ∈ folded ->
       exists mj, nf !! j = Some mj /\
                  (methodMatchesProperty p mj).1 = true).

Record BInv2 (st : Builder) : Prop := mkBInv2 {
  b2_facts : map MA.withRepeat (b_methods st) = nf;
  b2_made : Forall2 madeOf (CP.Properties (b_properties st)) (b_members st);
  b2_length : length (b_matched st) = length init;
  b2_matched :
    forall j, b_matched st !! j = Some true <->
              init !! j = Some true \/ j ∈ concat (b_members st);
  b2_fixed :
    Forall (fun p => noMatchLeft nf p (b_matched st))
           (CP.Properties (b_properties st))
}.

(** A method still under consideration was so at the start. *)
Lemma b2_unmatched (st : Builder) (j : nat) :
  BInv2 st -> b_matched st !! j = Some false ->
  init !! j = Some false /\ j ∉ concat (b_members st).
Proof.
  intros Hinv Hj. pose proof (b2_matched _ Hinv j) as Hiff.
  split.
  - assert (Hlt : (j < length init)%nat).
    { rewrite <- (b2_length _ Hinv). by eapply lookup_lt_Some. }
    destruct (lookup_lt_is_Some_2 _ _ Hlt) as [[] Hb]; [|done].
    assert (b_matched st !! j = Some true) by tauto. congruence.
  - intros Hin. assert (b_matched st !! j = Some true) by tauto. congruence.
Qed.

Lemma addProperty_inv2 (st st' : Builder) (i : nat)
    (meth : MethodAttributes) :
  BInv2 st -> b_matched st !! i = Some false ->
  b_methods st !! i = Some meth ->
  addProperty st i = Some st' ->
  BInv2 st' /\
  exists folded, b_members st' = (b_members st ++ [i :: folded])%list.
Proof.
  intros Hinv Hi Hmeth. unfold addProperty. rewrite Hmeth.
  set (category := methodCategory meth false).
  set (cp1 := CP.mk _ _ _).
  pose proof (searchForRepeatedMethods_keeps (Some cp1) (b_methods st) i)
    as [Hfacts Hkeeps].
  destruct (searchForRepeatedMethods (Some cp1) (b_methods st) i)
    as [[methods' searched] r]. simpl in Hfacts, Hkeeps.
  destruct Hkeeps as [Hshape Hfields].
  destruct (proj1 Hshape) as [cp2 ->]; [by eexists|]. simpl.
  destruct (Hfields _ cp2 eq_refl eq_refl) as (Hprops & _).
  clear Hfields Hshape. simpl in Hprops.
  rewrite (b2_facts _ Hinv) in Hfacts.
  set (p0 := initializePropertyInfo meth category).
  set (M0 := <[i := true]> (b_matched st)).
  unfold findAllMatches.
  destruct (findAllMatches_loop _ _ _ _) as [fs|] eqn:Hrun; simpl; [|done].
  intros [= <-].
  assert (H0 : Folding nf p0 M0
                 (mkFind p0 M0 (CP.MethodTypes cp2)
                         (CP.MethodProperties cp2) false [])).
  { constructor; simpl; try done; try (by rewrite Z.lor_0_r).
    - apply extends_refl.
    - intros j. rewrite elem_of_nil. tauto.
    - intros j Hj. by apply elem_of_nil in Hj. }
  pose proof (findAllMatches_loop_folding nf methods' Hfacts p0 M0 _ _ _ _
                H0 Hrun) as Hf.
  pose proof (findAllMatches_loop_fixed_point nf methods' Hfacts _ _ _ _
                Hrun) as Hfix.
  assert (Hnf : nf !! i = Some (MA.withRepeat meth)).
  { by rewrite <- (b2_facts _ Hinv), lookup_map, Hmeth. }
  assert (Hlt : (i < length (b_matched st))%nat)
    by (by eapply lookup_lt_Some).
  assert (HM0 : forall j, M0 !! j = Some true <->
                          j = i \/ b_matched st !! j = Some true).
  { intros j. unfold M0. destruct (decide (i = j)) as [<-|Hne].
    - rewrite list_lookup_insert_eq by done. tauto.
    - rewrite list_lookup_insert_ne by done.
      split; [tauto | intros [->|H]; done]. }
  assert (Hmono : forall j, fs_matched fs !! j = Some false ->
                            b_matched st !! j = Some false).
  { intros j Hj.
    assert (Hjlt : (j < length (b_matched st))%nat).
    { apply lookup_lt_Some in Hj.
      rewrite (fold_length _ _ _ _ Hf) in Hj. unfold M0 in Hj.
      by rewrite length_insert in Hj. }
    destruct (lookup_lt_is_Some_2 _ _ Hjlt) as [[] Hb]; [|done].
    assert (fs_matched fs !! j = Some true).
    { apply (fold_matched _ _ _ _ Hf). left. apply HM0. by right. }
    congruence. }
  split; [|by eexists].
  constructor; simpl.
  - done.
  - rewrite Hprops. apply Forall2_app; [apply (b2_made _ Hinv)|].
    constructor; [|done].
    pose proof (ext_name _ _ (fold_extends _ _ _ _ Hf)) as Hname.
    assert (Hbit : forall m, foldedBit p0 m = foldedBit (fs_property fs) m).
    { intros m. unfold foldedBit.
      by rewrite (longMatch_name p0 (fs_property fs) m Hname). }
    exists i, (fs_folded fs), (MA.withRepeat meth).
    split; [done|]. split; [done|].
    split; [apply (b2_unmatched st i Hinv Hi)|].
    split; [apply (fold_extends _ _ _ _ Hf)|].
    unfold bitOf at 1 3 5 7. rewrite Hnf.
    rewrite <- (bitOf_ext publicAccess _ _ nf (fs_folded fs) Hbit),
      <- (bitOf_ext protectedAccess _ _ nf (fs_folded fs) Hbit),
      <- (bitOf_ext privateAccess _ _ nf (fs_folded fs) Hbit),
      <- (bitOf_ext MA.IsLegacy _ _ nf (fs_folded fs) Hbit).
    rewrite (fold_public _ _ _ _ Hf), (fold_protected _ _ _ _ Hf),
      (fold_private _ _ _ _ Hf), (fold_legacy _ _ _ _ Hf).
    unfold p0, publicAccess, protectedAccess, privateAccess. simpl.
    split; [done|].
    split; [by destruct (MA.IsPublic meth), (MA.IsProtected meth)|].
    split; [by destruct (MA.IsPublic meth), (MA.IsProtected meth)|].
    split; [done|].
    apply (fold_members _ _ _ _ Hf).
  - rewrite (fold_length _ _ _ _ Hf). unfold M0.
    rewrite length_insert. apply (b2_length _ Hinv).
  - intros j. rewrite (fold_matched _ _ _ _ Hf j), HM0.
    rewrite (b2_matched _ Hinv j), concat_app, elem_of_app. simpl.
    rewrite app_nil_r, elem_of_cons. tauto.
  - rewrite Hprops. apply Forall_app. split.
    + eapply Forall_impl; [apply (b2_fixed _ Hinv)|].
      intros p Hp j m Hj Hm. apply (Hp j m); [by apply Hmono | done].
    + by constructor.
Qed.

(** One sweep: the members grow, and every method of the range that is
    still under consideration after the sweep was refused by the test of
    the sweep. *)
Lemma sweep_from_inv2 (select : MethodAttributes -> bool)
    (k a : nat) (st st' : Builder) :
  (forall m, select (MA.withRepeat m) = select m) ->
  BInv2 st ->
  foldlM (sweepStep select) st (seq a k) = Some st' ->
  BInv2 st' /\
  (exists new, b_members st' = (b_members st ++ new)%list) /\
  (forall i m, (a <= i < a + k)%nat ->
     b_matched st' !! i = Some false -> nf !! i = Some m ->
     select m = false).
Proof.
  intros Hsel. revert a st. induction k as [|k IH]; intros a st Hinv; simpl.
  - intros [= <-]. split; [done|]. split; [exists []; by rewrite app_nil_r|].
    intros i m Hi. lia.
  - destruct (sweepStep select st a) as [st1|] eqn:Hstep; simpl; [|done].
    intros Hrun.
    assert (H1 : BInv2 st1 /\
                 (exists new, b_members st1 = (b_members st ++ new)%list) /\
                 (forall m, b_matched st1 !! a = Some false ->
                            nf !! a = Some m -> select m = false)).
    { unfold sweepStep in Hstep.
      assert (Hsame : Some st = Some st1 ->
                BInv2 st1 /\
                (exists new, b_members st1 = (b_members st ++ new)%list) /\
                (b_matched st1 !! a = b_matched st !! a /\
                 b_methods st1 !! a = b_methods st !! a)).
      { intros [= <-]. split; [done|].
        split; [exists []; by rewrite app_nil_r | done]. }
      destruct (b_matched st !! a) as [[]|] eqn:Hm.
      - destruct (Hsame Hstep) as (? & ? & Heq & _).
        split; [done|]. split; [done|]. intros m. rewrite Heq. done.
      - destruct (b_methods st !! a) as [meth|] eqn:Hmeth.
        + destruct (select meth) eqn:Hs.
          * destruct (addProperty_inv2 st st1 a meth Hinv Hm Hmeth Hstep)
              as [Hinv1 [folded Hmem]].
            split; [done|]. split; [by eexists|].
            intros m Hfalse _.
            assert (b_matched st1 !! a = Some true).
            { apply (b2_matched _ Hinv1). right.
              rewrite Hmem, concat_app, elem_of_app. right. simpl. by left. }
            congruence.
          * destruct (Hsame Hstep) as (? & ? & _).
            split; [done|]. split; [done|]. intros m _ Hm'.
            rewrite <- (b2_facts _ Hinv), lookup_map, Hmeth in Hm'.
            injection Hm' as <-. by rewrite Hsel.
        + destruct (Hsame Hstep) as (? & ? & _).
          split; [done|]. split; [done|]. intros m _ Hm'.
          by rewrite <- (b2_facts _ Hinv), lookup_map, Hmeth in Hm'.
      - destruct (Hsame Hstep) as (? & ? & Heq & _).
        split; [done|]. split; [done|]. intros m. rewrite Heq. done. }
    destruct H1 as (Hinv1 & [new1 Hnew1] & Ha).
    destruct (IH (S a) st1 Hinv1 Hrun) as (Hinv' & [new Hnew] & Hrest).
    split; [done|].
    split; [exists (new1 ++ new)%list; by rewrite Hnew, Hnew1, app_assoc|].
    intros i m Hi Hfalse Hm.
    destruct (decide (i = a)) as [->|Hne]; [|apply (Hrest i m); [lia|done..]].
    apply (Ha m); [|done].
    destruct (b2_unmatched st' a Hinv' Hfalse) as [Hinit Hnot].
    assert (Hlt : (a < length (b_matched st1))%nat).
    { rewrite (b2_length _ Hinv1). by eapply lookup_lt_Some. }
    destruct (lookup_lt_is_Some_2 _ _ Hlt) as [[] Hb]; [|done].
    apply (b2_matched _ Hinv1) in Hb as [Hb|Hb]; [congruence|].
    exfalso. apply Hnot. rewrite Hnew, concat_app, elem_of_app. by left.
Qed.

Lemma sweep_inv2 (select : MethodAttributes -> bool) (st st' : Builder) :
  (forall m, select (MA.withRepeat m) = select m) ->
  BInv2 st -> sweep select st = Some st' ->
  BInv2 st' /\
  (exists new, b_members st' = (b_members st ++ new)%list) /\
  (forall i m, b_matched st' !! i = Some false -> nf !! i = Some m ->
               select m = false).
Proof.
  intros Hsel Hinv Hrun.
  destruct (sweep_from_inv2 select _ 0 st st' Hsel Hinv Hrun)
    as (Hinv' & Hnew & Hleft).
  split; [done|]. split; [done|]. intros i m Hfalse Hm.
  apply (Hleft i m); [|done..].
  apply lookup_lt_Some in Hm.
  rewrite <- (b2_facts _ Hinv), length_map in Hm. lia.
Qed.

(** What is left under consideration after the five sweeps. *)
Definition leftOver (st : Builder) : Prop :=
  forall i m, b_matched st !! i = Some false -> nf !! i = Some m ->
    selectSet m = false /\ selectSetNumberOf m = false /\
    selectGet m = false /\ selectGetNumberOf m = false /\
    selectAdd m = false.

(** A method under consideration later was under consideration
    earlier. *)
Lemma unmatched_earlier (st st' : Builder) (new : list (list nat))
    (i : nat) :
  BInv2 st -> BInv2 st' -> b_members st' = (b_members st ++ new)%list ->
  b_matched st' !! i = Some false -> b_matched st !! i = Some false.
Proof.
  intros Hinv Hinv' Hnew Hfalse.
  destruct (b2_unmatched st' i Hinv' Hfalse) as [Hinit Hnot].
  assert (Hlt : (i < length (b_matched st))%nat).
  { rewrite (b2_length _ Hinv). by eapply lookup_lt_Some. }
  destruct (lookup_lt_is_Some_2 _ _ Hlt) as [[] Hb]; [|done].
  apply (b2_matched _ Hinv) in Hb as [Hb|Hb]; [congruence|].
  exfalso. apply Hnot. rewrite Hnew, concat_app, elem_of_app. by left.
Qed.

End Members.

Lemma categorizeProperties_inv2
    (methods : list MethodAttributes) (properties : ClassProperties)
    (st : Builder) :
  categorizeProperties methods properties = Some st ->
  BInv2 (normalized methods) (initialMatched methods) st /\
  leftOver (normalized methods) st.
Proof.
  unfold categorizeProperties.
  set (nf := normalized methods). set (init := initialMatched methods).
  set (st0 := mkBuilder _ _ _ _).
  assert (H0 : BInv2 nf init st0).
  { constructor; simpl; try done.
    intros j. rewrite elem_of_nil. tauto. }
  destruct select_withRepeat as (S1 & S2 & S3 & S4 & S5).
  destruct (sweep selectSet st0) as [st1|] eqn:R1; simpl; [|done].
  destruct (sweep selectSetNumberOf st1) as [st2|] eqn:R2; simpl; [|done].
  destruct (sweep selectGet st2) as [st3|] eqn:R3; simpl; [|done].
  destruct (sweep selectGetNumberOf st3) as [st4|] eqn:R4; simpl; [|done].
  intros R5.
  destruct (sweep_inv2 nf init _ st0 st1 S1 H0 R1) as (H1 & [n1 N1] & L1).
  destruct (sweep_inv2 nf init _ st1 st2 S2 H1 R2) as (H2 & [n2 N2] & L2).
  destruct (sweep_inv2 nf init _ st2 st3 S3 H2 R3) as (H3 & [n3 N3] & L3).
  destruct (sweep_inv2 nf init _ st3 st4 S4 H3 R4) as (H4 & [n4 N4] & L4).
  destruct (sweep_inv2 nf init _ st4 st S5 H4 R5) as (H5 & [n5 N5] & L5).
  split; [done|]. intros i m Hfalse Hm.
  pose proof (unmatched_earlier nf init st4 st n5 i H4 H5 N5 Hfalse) as F4.
  pose proof (unmatched_earlier nf init st3 st4 n4 i H3 H4 N4 F4) as F3.
  pose proof (unmatched_earlier nf init st2 st3 n3 i H2 H3 N3 F3) as F2.
  pose proof (unmatched_earlier nf init st1 st2 n2 i H1 H2 N2 F2) as F1.
  split; [by apply (L1 i m)|]. split; [by apply (L2 i m)|].
  split; [by apply (L3 i m)|]. split; [by apply (L4 i m)|].
  by apply (L5 i m).
Qed.

(** The synthesizer returns a result for every class; the result
    satisfies the two invariants of the builder, its properties are in
    the order of the sweeps, and what is left was refused by every
    sweep. *)
Lemma synthesize_members (data : ClassInfo) :
  exists st,
    synthesize data = Some st /\ BInv (extracted data) st /\
    sweepOrder (extracted data) st /\
    BInv2 (normalized (extracted data))
          (initialMatched (categorizePropertyMethods data)) st /\
    leftOver (normalized (extracted data)) st.
Proof.
  destruct (synthesize_inv data) as (st & Hrun & Hinv & Horder).
  exists st. split; [done|]. split; [done|]. split; [done|].
  unfold synthesize in Hrun.
  apply categorizeProperties_inv2 in Hrun.
  unfold normalized in *.
  by rewrite categorizePropertyMethods_facts in Hrun.
Qed.

(** ** Properties of the result *)

Lemma getMethodAttributes_Name (func : FunctionInfo) :
  MA.Name (getMethodAttributes func).2 = FI.Name func /\
  MA.Comment (getMethodAttributes func).2 = FI.Comment func.
Proof.
  unfold getMethodAttributes, getterByReturn, byArgument, multiValue,
    noArguments.
  repeat match goal with
         | |- context [if ?b then _ else _] => destruct b eqn:?
         end; by split.
Qed.

Lemma lookup_normalized_extracted (data : ClassInfo) (j : nat)
    (m : MethodAttributes) :
  normalized (extracted data) !! j = Some m ->
  exists func, data !! j = Some func /\
               m = MA.withRepeat (getMethodAttributes func).2.
Proof.
  unfold normalized, extracted. rewrite !lookup_map.
  destruct (data !! j) as [func|]; simpl; [|done].
  intros [= <-]. eauto.
Qed.

Lemma normalized_categorized (data : ClassInfo) :
  normalized (extracted data) = normalized (categorizePropertyMethods data).
Proof. symmetry. apply categorizePropertyMethods_facts. Qed.

Lemma elem_of_concat {A : Type} (x : A) (ls : list (list A)) :
  x ∈ concat ls <-> exists l, l ∈ ls /\ x ∈ l.
Proof.
  induction ls as [|l ls IH]; simpl.
  - rewrite elem_of_nil. split; [done|]. intros (l & Hl & _).
    by apply elem_of_nil in Hl.
  - rewrite elem_of_app, IH. split.
    + intros [H|(l' & Hl' & H)]; [exists l | exists l'];
        (split; [|done]); [by left | by right].
    + intros (l' & [->|Hl']%elem_of_cons & H); [by left | right; eauto].
Qed.

(** A member list of a property is not empty. *)
Lemma members_nonempty (nf : list MethodAttributes) (init : list bool)
    (ps : list PropertyInfo) (ms : list (list nat)) :
  Forall2 (madeOf nf init) ps ms -> (length ms <= length (concat ms))%nat.
Proof.
  induction 1 as [|p members ps ms (seed & folded & m & -> & _) _ IH]; simpl.
  - lia.
  - rewrite length_app. simpl. lia.
Qed.

Lemma NoDup_below (l : list nat) (n : nat) :
  NoDup l -> (forall x, x ∈ l -> (x < n)%nat) -> (length l <= n)%nat.
Proof.
  intros Hnd Hlt.
  assert (Hseq : length (seq 0 n) = n) by apply length_seq.
  assert (Hle : (length l <= length (seq 0 n))%nat); [|lia].
  apply submseteq_length, NoDup_submseteq; [done|].
  intros x Hx. apply elem_of_seq. specialize (Hlt x Hx). lia.
Qed.

(** X17. The synthesizer allocates [Properties] with one slot per method
    and never writes past it: for every class the result has one
    [MethodTypes] entry per method of the class, and at most as many
    properties as methods. *)
Theorem properties_fit_allocation (data : ClassInfo) :
  exists cp,
    vtkParseProperties_Create data = Some cp /\
    CP.NumberOfMethods cp = length data /\
    (CP.NumberOfProperties cp <= CP.NumberOfMethods cp)%nat.
Proof.
  destruct (synthesize_members data)
    as (st & Hrun & Hinv & Horder & Hinv2 & Hleft).
  exists (b_properties st). split.
  { unfold vtkParseProperties_Create. by rewrite Hrun. }
  assert (Hn : CP.NumberOfMethods (b_properties st) = length data).
  { unfold CP.NumberOfMethods. rewrite (binv_types _ _ Hinv).
    rewrite (facts_length _ _ (binv_facts _ _ Hinv)).
    apply extracted_length. }
  split; [done|]. rewrite Hn.
  unfold CP.NumberOfProperties. rewrite <- (binv_members _ _ Hinv).
  etrans; [apply (members_nonempty _ _ _ _ (b2_made _ _ _ Hinv2))|].
  apply NoDup_below; [apply (binv_nodup _ _ Hinv)|].
  intros j Hj. destruct (binv_taken _ _ Hinv j Hj) as [Hm _].
  apply lookup_lt_Some in Hm.
  rewrite (binv_matched _ _ Hinv) in Hm.
  rewrite (facts_length _ _ (binv_facts _ _ Hinv)) in Hm.
  by rewrite extracted_length in Hm.
Qed.

(** The names that the five sweeps accept. *)
Definition seedName (name : option string) : bool :=
  isSetMethod name || isGetMethod name || isAddMethod name.

Lemma sweepSegment_seedName (facts : list MethodAttributes)
    (select : MethodAttributes -> bool) (s : list nat) (seed : nat) :
  (forall m, select m = true -> seedName (MA.Name m) = true) ->
  sweepSegment facts select 0 s -> seed ∈ s ->
  exists m, facts !! seed = Some m /\ seedName (MA.Name m) = true.
Proof.
  intros Hsel [_ Hall] Hin.
  rewrite Forall_forall in Hall.
  destruct (Hall seed Hin) as [_ (m & Hm & Hs)]. eauto.
Qed.

Lemma sweepOrder_seedName (facts : list MethodAttributes) (st : Builder)
    (seed : nat) :
  sweepOrder facts st -> seed ∈ seeds st ->
  exists m, facts !! seed = Some m /\ seedName (MA.Name m) = true.
Proof.
  intros (s1 & s2 & s3 & s4 & s5 & -> & G1 & G2 & G3 & G4 & G5).
  rewrite !elem_of_app. unfold seedName.
  intros [H|[H|[H|[H|H]]]];
    [eapply (sweepSegment_seedName _ selectSet)
    |eapply (sweepSegment_seedName _ selectSetNumberOf)
    |eapply (sweepSegment_seedName _ selectGet)
    |eapply (sweepSegment_seedName _ selectGetNumberOf)
    |eapply (sweepSegment_seedName _ selectAdd)]; try eassumption;
    intros m; unfold seedName, selectSet, selectSetNumberOf, selectGet,
      selectGetNumberOf, selectAdd; intros Hs.
  - apply andb_prop in Hs as [Hs _]. apply andb_prop in Hs as [-> _]. done.
  - apply isSetNumberOfMethod_isSet in Hs as ->. done.
  - apply andb_prop in Hs as [Hs _]. apply andb_prop in Hs as [-> _].
    by rewrite orb_true_r.
  - apply isGetNumberOfMethod_isGet in Hs as ->. by rewrite orb_true_r.
  - rewrite Hs. by rewrite orb_true_r.
Qed.

(** X18. Every property comes from its seed, the first of its members:
    a method of the class that the extractor accepts and whose name is a
    [Set], [Get] or [Add] method name.  The name of the property is the
    name of the seed without its prefix, it is not null and starts with
    an upper-case letter; the type is the normalized type of the seed;
    the count, the class name and the comment are those of the seed.
    [findAllMatches] changes none of them. *)
Theorem property_from_seed (data : ClassInfo) :
  exists st,
    synthesize data = Some st /\
    Forall2
      (fun property members =>
         exists seed folded func,
           members = seed :: folded /\ data !! seed = Some func /\
           (getMethodAttributes func).1 = true /\
           seedName (FI.Name func) = true /\
           PI.Name property = nameWithoutPrefix (FI.Name func) /\
           (exists name, PI.Name property = Some name /\
                         isupper name@@0 = true) /\
           PI.Type_ property
           = initialPropertyType (getMethodAttributes func).2 /\
           PI.Count property = MA.Count (getMethodAttributes func).2 /\
           PI.ClassName property
           = MA.ClassName (getMethodAttributes func).2 /\
           PI.Comment property = FI.Comment func)
      (CP.Properties (b_properties st)) (b_members st).
Proof.
  destruct (synthesize_members data)
    as (st & Hrun & Hinv & Horder & Hinv2 & Hleft).
  exists st. split; [done|].
  apply Forall2_same_length_lookup_2.
  { symmetry. apply (binv_members _ _ Hinv). }
  intros k p members Hp Hmem.
  pose proof (Forall2_lookup_lr _ _ _ _ _ _ (b2_made _ _ _ Hinv2) Hp Hmem)
    as (seed & folded & m & -> & Hm & Hinit & Hext & _).
  apply lookup_normalized_extracted in Hm as (func & Hfunc & ->).
  destruct (getMethodAttributes_Name func) as [Hname Hcomment].
  assert (Hseed : seed ∈ seeds st).
  { unfold seeds. apply list_elem_of_lookup. exists k.
    by rewrite lookup_map, Hmem. }
  destruct (sweepOrder_seedName _ _ _ Horder Hseed) as (m' & Hm' & Hsn).
  unfold extracted in Hm'. rewrite lookup_map, Hfunc in Hm'.
  injection Hm' as <-. rewrite Hname in Hsn.
  destruct Hext as [En Et Ec Ecl Eco _ _ _ _]. simpl in *.
  exists seed, folded, func. split; [done|]. split; [done|]. split.
  { rewrite <- getMethodAttributes_HasProperty.
    destruct (binv_taken _ _ Hinv seed) as [_ Hhas].
    - apply elem_of_concat. exists (seed :: folded).
      split; [by eapply list_elem_of_lookup_2 | by left].
    - unfold hasPropertyAt, extracted in Hhas.
      by rewrite lookup_map, Hfunc in Hhas. }
  split; [done|]. split; [by rewrite En, Hname|]. split.
  { rewrite En, Hname.
    destruct (FI.Name func) as [s|] eqn:Hs; [|done].
    destruct (nameWithoutPrefix_cases s)
      as [(_ & H1 & H2 & H3 & _) | (pre & rest & _ & _ & -> & Hup)].
    - unfold seedName in Hsn. by rewrite H1, H2, H3 in Hsn.
    - eauto. }
  split; [done|]. split; [done|]. split; [done|]. congruence.
Qed.

(** X19. Every method that [findAllMatches] folded into a property is
    accepted by the matcher for the finished property: what the matcher
    tests (theorems X13 and X14 above) holds between every member but the
    seed and the property as the synthesizer returns it. *)
Theorem members_match_property (data : ClassInfo) :
  exists st,
    synthesize data = Some st /\
    Forall2
      (fun property members =>
         forall j, j ∈ tl members ->
           exists func,
             data !! j = Some func /\
             (methodMatchesProperty property
                (getMethodAttributes func).2).1 = true)
      (CP.Properties (b_properties st)) (b_members st).
Proof.
  destruct (synthesize_members data)
    as (st & Hrun & Hinv & Horder & Hinv2 & Hleft).
  exists st. split; [done|].
  eapply Forall2_impl; [apply (b2_made _ _ _ Hinv2)|].
  intros p members (seed & folded & m & -> & _ & _ & _ & _ & _ & _ & _ & Hf).
  simpl. intros j Hj. destruct (Hf j Hj) as (mj & Hmj & Hmatch).
  apply lookup_normalized_extracted in Hmj as (func & Hfunc & ->).
  exists func. split; [done|].
  by rewrite methodMatchesProperty_withRepeat in Hmatch.
Qed.

(** *** The bitfields *)

(** The bits of the members of a property whose access level, or legacy
    flag, is [select]: [methodCategory(meth, 0)] for the seed, and
    [methodCategory(meth, !longMatch)] for every other member, with the
    [longMatch] that the matcher reports for it. *)
Definition memberBits (facts : list MethodAttributes) (p : PropertyInfo)
    (members : list nat) (select : MethodAttributes -> bool) : Z :=
  Z.lor (bitOf select seedBit facts (hd 0%nat members))
        (orBits (map (bitOf select (foldedBit p) facts) (tl members))).

Lemma bitOf_normalized (select : MethodAttributes -> bool)
    (bit : MethodAttributes -> Z) (facts : list MethodAttributes) (j : nat) :
  (forall m, select (MA.withRepeat m) = select m) ->
  (forall m, bit (MA.withRepeat m) = bit m) ->
  bitOf select bit (normalized facts) j = bitOf select bit facts j.
Proof.
  intros Hs Hb. unfold bitOf, normalized. rewrite lookup_map.
  destruct (facts !! j) as [m|]; simpl; [|done]. by rewrite Hs, Hb.
Qed.

Lemma memberBits_normalized (facts : list MethodAttributes)
    (p : PropertyInfo) (seed : nat) (folded : list nat)
    (select : MethodAttributes -> bool) :
  (forall m, select (MA.withRepeat m) = select m) ->
  Z.lor (bitOf select seedBit (normalized facts) seed)
        (orBits (map (bitOf select (foldedBit p) (normalized facts)) folded))
  = memberBits facts p (seed :: folded) select.
Proof.
  intros Hs. unfold memberBits. simpl.
  rewrite (bitOf_normalized select seedBit) by done. do 2 f_equal.
  apply map_ext. intros j. by apply bitOf_normalized.
Qed.

(** X20. Every bitfield of a property is the union of the bits of its
    members: [PublicMethods], [ProtectedMethods] and [PrivateMethods]
    hold the category bits of the members of that access level, and
    [LegacyMethods] those of the legacy members.  The bit of the seed is
    [methodCategory(meth, 0)]; the bit of any other member is
    [methodCategory(meth, !longMatch)], with the [longMatch] that the
    matcher reports for it. *)
Theorem bitfields_are_member_bits (data : ClassInfo) :
  exists st,
    synthesize data = Some st /\
    Forall2
      (fun property members =>
         PI.PublicMethods property
         = memberBits (extracted data) property members publicAccess /\
         PI.ProtectedMethods property
         = memberBits (extracted data) property members protectedAccess /\
         PI.PrivateMethods property
         = memberBits (extracted data) property members privateAccess /\
         PI.LegacyMethods property
         = memberBits (extracted data) property members MA.IsLegacy)
      (CP.Properties (b_properties st)) (b_members st).
Proof.
  destruct (synthesize_members data)
    as (st & Hrun & Hinv & Horder & Hinv2 & Hleft).
  exists st. split; [done|].
  eapply Forall2_impl; [apply (b2_made _ _ _ Hinv2)|].
  intros p members
    (seed & folded & m & -> & _ & _ & _ & Hpub & Hpro & Hpri & Hleg & _).
  rewrite Hpub, Hpro, Hpri, Hleg.
  by rewrite !memberBits_normalized.
Qed.

(** Reasoning bit by bit. *)
Ltac bitwise :=
  apply Z.bits_inj'; intros ?n ?Hn;
  repeat match goal with
         | H : @eq Z _ _ |- _ =>
             apply (f_equal (fun x => Z.testbit x n)) in H;
             rewrite ?Z.lor_spec, ?Z.land_spec, ?Z.bits_0 in H;
             revert H
         end;
  rewrite ?Z.lor_spec, ?Z.land_spec, ?Z.bits_0;
  repeat match goal with
         | |- context [Z.testbit ?x ?n] => destruct (Z.testbit x n)
         end;
  simpl; congruence.

Lemma bitsIncluded_land_eq (a b : Z) : bitsIncluded a b -> Z.land a b = a.
Proof. unfold bitsIncluded. intros H. bitwise. Qed.

Lemma bitsIncluded_union (l a b c l' a' b' c' : Z) :
  bitsIncluded l (Z.lor a (Z.lor b c)) ->
  bitsIncluded l' (Z.lor a' (Z.lor b' c')) ->
  bitsIncluded (Z.lor l l')
    (Z.lor (Z.lor a a') (Z.lor (Z.lor b b') (Z.lor c c'))).
Proof. unfold bitsIncluded. intros H H'. bitwise. Qed.

(** The bit of a method is in the bitfield of exactly one access
    level. *)
Lemma bitOf_access (bit : MethodAttributes -> Z)
    (facts : list MethodAttributes) (j : nat) :
  Z.lor (bitOf publicAccess bit facts j)
        (Z.lor (bitOf protectedAccess bit facts j)
               (bitOf privateAccess bit facts j))
  = bitOf (fun _ => true) bit facts j /\
  bitsIncluded (bitOf MA.IsLegacy bit facts j)
               (bitOf (fun _ => true) bit facts j).
Proof.
  unfold bitOf, publicAccess, protectedAccess, privateAccess, bitsIncluded.
  destruct (facts !! j) as [m|]; [|done].
  destruct (MA.IsPublic m), (MA.IsProtected m), (MA.IsLegacy m); simpl;
    by rewrite ?Z.lor_0_r, ?Z.lor_diag.
Qed.

Lemma orBits_access (bit : MethodAttributes -> Z)
    (facts : list MethodAttributes) (l : list nat) :
  bitsIncluded (orBits (map (bitOf MA.IsLegacy bit facts) l))
    (Z.lor (orBits (map (bitOf publicAccess bit facts) l))
       (Z.lor (orBits (map (bitOf protectedAccess bit facts) l))
              (orBits (map (bitOf privateAccess bit facts) l)))).
Proof.
  induction l as [|j l IH]; simpl; [done|].
  apply bitsIncluded_union; [|done].
  destruct (bitOf_access bit facts j) as [-> Hleg]. done.
Qed.

(** The seed and the bitfields of every property. *)
Lemma seed_and_bits (data : ClassInfo) :
  exists st,
    synthesize data = Some st /\
    Forall2
      (fun property members =>
         exists seed func,
           hd 0%nat members = seed /\ data !! seed = Some func /\
           (getMethodAttributes func).1 = true /\
           PI.PublicMethods property
           = memberBits (extracted data) property members publicAccess /\
           PI.ProtectedMethods property
           = memberBits (extracted data) property members protectedAccess /\
           PI.PrivateMethods property
           = memberBits (extracted data) property members privateAccess /\
           PI.LegacyMethods property
           = memberBits (extracted data) property members MA.IsLegacy)
      (CP.Properties (b_properties st)) (b_members st).
Proof.
  destruct (synthesize_members data)
    as (st & Hrun & Hinv & Horder & Hinv2 & Hleft).
  exists st. split; [done|].
  apply Forall2_same_length_lookup_2.
  { symmetry. apply (binv_members _ _ Hinv). }
  intros k p members Hp Hmem.
  pose proof (Forall2_lookup_lr _ _ _ _ _ _ (b2_made _ _ _ Hinv2) Hp Hmem)
    as (seed & folded & m & -> & Hm & _ & _ & Hpub & Hpro & Hpri & Hleg & _).
  apply lookup_normalized_extracted in Hm as (func & Hfunc & ->).
  exists seed, func. split; [done|]. split; [done|]. split.
  { rewrite <- getMethodAttributes_HasProperty.
    destruct (binv_taken _ _ Hinv seed) as [_ Hhas].
    - apply elem_of_concat. exists (seed :: folded).
      split; [by eapply list_elem_of_lookup_2 | by left].
    - unfold hasPropertyAt, extracted in Hhas.
      by rewrite lookup_map, Hfunc in Hhas. }
  rewrite Hpub, Hpro, Hpri, Hleg.
  by rewrite !memberBits_normalized.
Qed.

(** X21. In every property at least one of [PublicMethods],
    [ProtectedMethods] and [PrivateMethods] is not 0, and every bit of
    [LegacyMethods] is a bit of one of the three. *)
Theorem property_bitfields_consistent (data : ClassInfo) :
  exists cp,
    vtkParseProperties_Create data = Some cp /\
    Forall
      (fun property =>
         let access :=
           Z.lor (PI.PublicMethods property)
                 (Z.lor (PI.ProtectedMethods property)
                        (PI.PrivateMethods property)) in
         access <> 0 /\
         Z.land (PI.LegacyMethods property) access
         = PI.LegacyMethods property)
      (CP.Properties cp).
Proof.
  destruct (seed_and_bits data) as (st & Hrun & Hbits).
  exists (b_properties st). split.
  { unfold vtkParseProperties_Create. by rewrite Hrun. }
  apply Forall_forall. intros p Hp.
  apply list_elem_of_lookup in Hp as [k Hk].
  destruct (Forall2_lookup_l _ _ _ _ _ Hbits Hk) as (members & _ & Hm).
  destruct Hm as (seed & func & Hhd & Hseed & Hacc & -> & -> & -> & ->).
  unfold memberBits. rewrite Hhd. simpl. split.
  - intros H0.
    apply Z.lor_eq_0_iff in H0 as [H1 H0].
    apply Z.lor_eq_0_iff in H0 as [H2 H3].
    apply Z.lor_eq_0_iff in H1 as [H1 _].
    apply Z.lor_eq_0_iff in H2 as [H2 _].
    apply Z.lor_eq_0_iff in H3 as [H3 _].
    destruct (bitOf_access seedBit (extracted data) seed) as [Hall _].
    rewrite H1, H2, H3 in Hall. simpl in Hall.
    unfold bitOf, extracted in Hall.
    rewrite lookup_map, Hseed in Hall. simpl in Hall.
    symmetry in Hall. revert Hall.
    by apply (accepted_category_nonzero func false).
  - apply bitsIncluded_land_eq, bitsIncluded_union.
    + destruct (bitOf_access seedBit (extracted data) seed)
        as [-> Hleg]. done.
    + apply orBits_access.
Qed.

(** *** The methods that are left over *)

(** A method that the extractor accepted, that the resolver did not
    mark, and that is a member of no property is still under
    consideration at the end. *)
Lemma left_under_consideration (data : ClassInfo) (st : Builder)
    (j : nat) (attrs : MethodAttributes) :
  BInv2 (normalized (extracted data))
        (initialMatched (categorizePropertyMethods data)) st ->
  categorizePropertyMethods data !! j = Some attrs ->
  MA.HasProperty attrs = true -> MA.IsRepeat attrs = false ->
  j ∉ concat (b_members st) ->
  b_matched st !! j = Some false /\
  normalized (extracted data) !! j = Some (MA.withRepeat attrs).
Proof.
  intros Hinv2 Hj Hhas Hrep Hnot.
  assert (Hinit : initialMatched (categorizePropertyMethods data) !! j
                  = Some false).
  { rewrite lookup_initialMatched, Hj. simpl. by rewrite Hhas, Hrep. }
  split.
  - assert (Hlt : (j < length (b_matched st))%nat).
    { rewrite (b2_length _ _ _ Hinv2). by eapply lookup_lt_Some. }
    destruct (lookup_lt_is_Some_2 _ _ Hlt) as [[] Hb]; [|done].
    apply (b2_matched _ _ _ Hinv2) in Hb as [Hb|Hb]; [congruence | done].
  - rewrite normalized_categorized. unfold normalized.
    by rewrite lookup_map, Hj.
Qed.

(** X22. [findAllMatches] leaves nothing behind: a method that the
    extractor accepted, that was not marked [IsRepeat] by the resolver,
    and that is a member of no property of the result is accepted by the
    matcher for none of the properties of the result. *)
Theorem folding_is_complete (data : ClassInfo) :
  exists st,
    synthesize data = Some st /\
    forall (j : nat) (attrs : MethodAttributes),
      categorizePropertyMethods data !! j = Some attrs ->
      MA.HasProperty attrs = true -> MA.IsRepeat attrs = false ->
      j ∉ concat (b_members st) ->
      Forall (fun property =>
                (methodMatchesProperty property attrs).1 = false)
             (CP.Properties (b_properties st)).
Proof.
  destruct (synthesize_members data)
    as (st & Hrun & Hinv & Horder & Hinv2 & Hleft).
  exists st. split; [done|]. intros j attrs Hj Hhas Hrep Hnot.
  destruct (left_under_consideration data st j attrs Hinv2 Hj Hhas Hrep Hnot)
    as [Hfalse Hnf].
  eapply Forall_impl; [apply (b2_fixed _ _ _ Hinv2)|].
  intros p Hp. simpl in Hp.
  rewrite <- methodMatchesProperty_withRepeat. by apply (Hp j).
Qed.

Lemma folding_is_complete_witness :
  exists st,
    synthesize [ Scenario.method "SetMode" VTK_PARSE_VOID [VTK_PARSE_BOOL];
                 Scenario.method "SetModeToFast" VTK_PARSE_VOID [] ]
    = Some st /\
    Forall (fun property =>
              (methodMatchesProperty property Scenario.setModeToFast).1
              = false)
           (CP.Properties (b_properties st)).
Proof.
  destruct (folding_is_complete
              [ Scenario.method "SetMode" VTK_PARSE_VOID [VTK_PARSE_BOOL];
                Scenario.method "SetModeToFast" VTK_PARSE_VOID [] ])
    as (st & Hrun & H).
  exists st. split; [exact Hrun|].
  apply (H 1%nat); [reflexivity | reflexivity | reflexivity |].
  vm_compute in Hrun. injection Hrun as <-. simpl.
  intros [Hin|Hin]%elem_of_cons; [discriminate Hin|].
  by apply elem_of_nil in Hin.
Defined.

(** X23. The five sweeps leave no accessor behind: a method that the
    extractor accepted, that was not marked [IsRepeat] by the resolver,
    and whose name is an [Add] method name, a [Set] method name (the
    method not being enumerated) or a [Get] method name without
    [AsString], is a member of a property of the result. *)
Theorem accessors_become_members (data : ClassInfo) :
  exists st,
    synthesize data = Some st /\
    forall (j : nat) (attrs : MethodAttributes),
      categorizePropertyMethods data !! j = Some attrs ->
      MA.HasProperty attrs = true -> MA.IsRepeat attrs = false ->
      isAddMethod (MA.Name attrs)
      || (isSetMethod (MA.Name attrs) && negb (MA.IsEnumerated attrs))
      || (isGetMethod (MA.Name attrs)
          && negb (isAsStringMethod (MA.Name attrs))) = true ->
      j ∈ concat (b_members st).
Proof.
  destruct (synthesize_members data)
    as (st & Hrun & Hinv & Horder & Hinv2 & Hleft).
  exists st. split; [done|]. intros j attrs Hj Hhas Hrep Hname.
  destruct (decide (j ∈ concat (b_members st))) as [|Hnot]; [done|].
  exfalso.
  destruct (left_under_consideration data st j attrs Hinv2 Hj Hhas Hrep Hnot)
    as [Hfalse Hnf].
  destruct (Hleft j _ Hfalse Hnf) as (L1 & L2 & L3 & L4 & L5).
  destruct select_withRepeat as (S1 & S2 & S3 & S4 & S5).
  rewrite S1 in L1. rewrite S2 in L2. rewrite S3 in L3. rewrite S4 in L4.
  rewrite S5 in L5.
  unfold selectSet, selectSetNumberOf, selectGet, selectGetNumberOf,
    selectAdd in *.
  rewrite L2 in L1. rewrite L4 in L3. rewrite L5 in Hname.
  rewrite andb_true_r in L1, L3. rewrite L1, L3 in Hname. done.
Qed.

Lemma accessors_become_members_witness :
  exists st,
    synthesize (Scenario.radius None None) = Some st /\
    1%nat ∈ concat (b_members st).
Proof.
  destruct (accessors_become_members (Scenario.radius None None))
    as (st & Hrun & H).
  exists st. split; [exact Hrun|].
  apply (H 1%nat
           (getMethodAttributes
              (Scenario.method "GetRadius" VTK_PARSE_DOUBLE [])).2);
    reflexivity.
Defined.

(** ** Repeats *)

(** The result of the loop of [searchForRepeatedMethods]. *)
Lemma searchLoop_result (attrs : MethodAttributes) (j : nat)
    (idxs : list nat) (methods : list MethodAttributes)
    (properties : option ClassProperties) :
  methods !! j = Some attrs ->
  let result := searchLoop attrs j idxs methods properties in
  (result.2 = true /\ result.1.1 = methods /\ result.1.2 = properties) \/
  (result.2 = false /\
   exists k i mk mi,
     (k = j \/ i = j) /\
     methods !! k = Some mk /\ methods !! i = Some mi /\
     sameStructure mk mi = true /\ yieldsTo mk mi = true /\
     result.1.1 = <[k := MA.withRepeat mk]> methods /\
     result.1.2 = copyMethodInfo properties k i).
Proof.
  intros Hj. induction idxs as [|i rest IH]; simpl; [by left|].
  destruct (methods !! i) as [meth|] eqn:Hi; [|done].
  destruct (sameStructure attrs meth) eqn:Hs; [|done].
  destruct (yieldsTo attrs meth) eqn:Hy; simpl.
  { right. split; [done|]. exists j, i, attrs, meth.
    unfold markRepeat. rewrite Hj. by eauto 10. }
  destruct (yieldsTo meth attrs) eqn:Hy'; simpl; [|done].
  right. split; [done|]. exists i, j, meth, attrs.
  unfold markRepeat. rewrite Hi, sameStructure_sym. by eauto 10.
Qed.

(** X24. [searchForRepeatedMethods] returns 1 when it finds no repeat,
    and it then leaves the methods and the per-method arrays as they
    were.  When it returns 0, it has marked [IsRepeat] exactly one
    method, one of a pair made of the method at [j] and of another
    method with the same name and structure, the one that yields to the
    other; and it has copied the category and the property index of the
    other onto it. *)
Theorem search_marks_one
    (properties : option ClassProperties)
    (methods : list MethodAttributes) (j : nat) :
  let result := searchForRepeatedMethods properties methods j in
  (result.2 = true /\ result.1.1 = methods /\ result.1.2 = properties) \/
  (result.2 = false /\
   exists k i mk mi,
     (k = j \/ i = j) /\
     methods !! k = Some mk /\ methods !! i = Some mi /\
     sameStructure mk mi = true /\ yieldsTo mk mi = true /\
     result.1.1 = <[k := MA.withRepeat mk]> methods /\
     result.1.2 = copyMethodInfo properties k i).
Proof.
  unfold searchForRepeatedMethods.
  destruct (methods !! j) as [attrs|] eqn:Hj; [|by left].
  by apply searchLoop_result.
Qed.

(** No two methods of the class have the same name. *)
Definition distinctNames (data : ClassInfo) : Prop :=
  forall i j f g,
    data !! i = Some f -> data !! j = Some g ->
    isNull (FI.Name f) = false -> FI.Name f = FI.Name g -> i = j.

Lemma name_of_method (data : ClassInfo) (methods : list MethodAttributes)
    (j : nat) (m : MethodAttributes) :
  map MA.withRepeat methods = map MA.withRepeat (extracted data) ->
  methods !! j = Some m ->
  exists func, data !! j = Some func /\ MA.Name m = FI.Name func.
Proof.
  intros Hfacts Hm.
  destruct (facts_lookup _ _ j m Hfacts Hm) as (m' & Hm' & Heq).
  unfold extracted in Hm'. rewrite lookup_map in Hm'.
  destruct (data !! j) as [func|]; [|done]. injection Hm' as <-.
  exists func. split; [done|].
  rewrite <- (proj1 (getMethodAttributes_Name func)).
  change (MA.Name (MA.withRepeat m)
          = MA.Name (MA.withRepeat (getMethodAttributes func).2)).
  by rewrite Heq.
Qed.

Lemma distinctNames_not_dominated
    (data : ClassInfo) (methods : list MethodAttributes) :
  distinctNames data ->
  map MA.withRepeat methods = map MA.withRepeat (extracted data) ->
  dominated methods ->
  Forall (fun m => MA.IsRepeat m = false) methods.
Proof.
  intros Hdistinct Hfacts Hdom. apply Forall_lookup. intros j m Hm.
  destruct (MA.IsRepeat m) eqn:Hrep; [exfalso | done].
  destruct (Hdom j m Hm Hrep) as (i & m' & Hne & Hm' & Hs & _).
  destruct (name_of_method data methods j m Hfacts Hm) as (f & Hf & Hnf).
  destruct (name_of_method data methods i m' Hfacts Hm') as (g & Hg & Hng).
  unfold sameStructure in Hs. rewrite Hnf, Hng in Hs.
  destruct (FI.Name g) as [gname|] eqn:Hgn; [|done].
  destruct (FI.Name f) as [fname|] eqn:Hfn; [|done].
  repeat (apply andb_prop in Hs as [Hs _]).
  apply String.eqb_eq in Hs as ->.
  apply Hne. symmetry. apply (Hdistinct j i f g Hf Hg); [by rewrite Hfn|].
  congruence.
Qed.

(** X25. In a class in which no two methods have the same name, no
    method is ever marked [IsRepeat], neither by the resolver's pass nor
    by the builder. *)
Theorem distinct_names_no_repeat (data : ClassInfo) :
  distinctNames data ->
  Forall (fun m => MA.IsRepeat m = false) (categorizePropertyMethods data) /\
  exists st,
    synthesize data = Some st /\
    Forall (fun m => MA.IsRepeat m = false) (b_methods st).
Proof.
  intros Hdistinct. split.
  - apply (distinctNames_not_dominated data); [done | |].
    + apply categorizePropertyMethods_facts.
    + apply categorizePropertyMethods_dominated.
  - destruct (synthesize_inv data) as (st & Hrun & Hinv & Horder).
    exists st. split; [done|].
    apply (distinctNames_not_dominated data); [done | |].
    + apply (binv_facts _ _ Hinv).
    + apply (binv_dominated _ _ Hinv).
Qed.

Lemma distinct_names_no_repeat_witness :
  Forall (fun m => MA.IsRepeat m = false)
         (categorizePropertyMethods (Scenario.radius None None)).
Proof.
  apply (distinct_names_no_repeat (Scenario.radius None None)).
  intros [|[|i]] [|[|j]] f g Hf Hg Hn Heq; try reflexivity;
    try discriminate Hf; try discriminate Hg;
    injection Hf as <-; injection Hg as <-; discriminate Heq.
Defined.

(** ** The per-method arrays of a class without repeats *)

(** No method is marked [IsRepeat]. *)
Definition quiet (methods : list MethodAttributes) : Prop :=
  Forall (fun m => MA.IsRepeat m = false) methods.

(** A search that leaves no method marked has changed nothing. *)
Lemma search_quiet (properties : option ClassProperties)
    (methods : list MethodAttributes) (j : nat) :
  quiet (searchForRepeatedMethods properties methods j).1.1 ->
  (searchForRepeatedMethods properties methods j).1.1 = methods /\
  (searchForRepeatedMethods properties methods j).1.2 = properties.
Proof.
  unfold searchForRepeatedMethods.
  destruct (methods !! j) as [attrs|] eqn:Hj; [|done].
  destruct (searchLoop_result attrs j (seq 0 (length methods)) methods
              properties Hj)
    as [(_ & H1 & H2)
       |(_ & k & i & mk & mi & _ & Hk & _ & _ & _ & Hm & _)]; [done|].
  rewrite Hm. intros Hquiet. exfalso.
  assert (Hlook : <[k := MA.withRepeat mk]> methods !! k
                  = Some (MA.withRepeat mk)).
  { apply list_lookup_insert_eq. by eapply lookup_lt_Some. }
  by apply (Forall_lookup_1 _ _ _ _ Hquiet) in Hlook.
Qed.

Definition anyAccess (m : MethodAttributes) : bool := true.

Section FoldingArrays.

Variable nf : list MethodAttributes.
Variable methods : list MethodAttributes.
Hypothesis methods_nf : map MA.withRepeat methods = nf.

Variable p0 : PropertyInfo.
Variable M0 : list bool.

(** [methodCategories] and [methodProperties] as [addProperty] passes
    them. *)
Variable C0 P0 : list Z.
Variable propertyId : Z.

Record FoldingArrays (fs : FindState) : Prop := mkFoldingArrays {
  fa_types : length (fs_categories fs) = length M0;
  fa_props : length (fs_properties fs) = length M0;
  fa_folded :
    forall j, j ∈ fs_folded fs ->
      M0 !! j = Some false /\
      fs_properties fs !! j = Some propertyId /\
      fs_categories fs !! j
      = Some (bitOf anyAccess (foldedBit p0) nf j);
  fa_other :
    forall j, j ∉ fs_folded fs ->
      fs_matched fs !! j = M0 !! j /\
      fs_properties fs !! j = P0 !! j /\
      fs_categories fs !! j = C0 !! j
}.

Lemma foldMethod_arrays (fs fs' : FindState) (i : nat) :
  Folding nf p0 M0 fs -> FoldingArrays fs ->
  foldMethod propertyId methods fs i = Some fs' ->
  FoldingArrays fs'.
Proof using methods_nf.
  intros Hf Ha. unfold foldMethod.
  destruct (fs_matched fs !! i) as [[]|] eqn:Hm;
    [by intros [= <-] | | by intros [= <-]].
  destruct (methods !! i) as [meth|] eqn:Hmeth; [|by intros [= <-]].
  destruct (methodMatchesProperty (fs_property fs) meth)
    as [[] longMatch] eqn:Hmatch; [|by intros [= <-]].
  set (p1 := if MA.IsStatic meth then PI.withStatic (fs_property fs)
             else fs_property fs).
  set (bit := methodCategory meth (negb longMatch)).
  destruct (collectEnumConstant meth (addMethodBit meth bit p1))
    as [p'|] eqn:Hc; simpl; [|done].
  intros [= <-].
  assert (Hnot : i ∉ fs_folded fs).
  { intros Hin.
    assert (fs_matched fs !! i = Some true)
      by (apply (fold_matched _ _ _ _ Hf); by right).
    congruence. }
  assert (Hlt : (i < length M0)%nat).
  { rewrite <- (fold_length _ _ _ _ Hf). by eapply lookup_lt_Some. }
  assert (Hbit : bitOf anyAccess (foldedBit p0) nf i = bit).
  { unfold bitOf. rewrite (lookup_nf nf methods methods_nf i meth Hmeth).
    unfold anyAccess, foldedBit, bit.
    rewrite methodMatchesProperty_withRepeat.
    rewrite <- (longMatch_name p0 (fs_property fs) meth
                  (ext_name _ _ (fold_extends _ _ _ _ Hf))).
    by rewrite Hmatch. }
  constructor; simpl.
  - rewrite length_insert. apply (fa_types _ Ha).
  - rewrite length_insert. apply (fa_props _ Ha).
  - intros j [Hj| ->%list_elem_of_singleton]%elem_of_app.
    + assert (i <> j) by (by intros ->).
      rewrite !list_lookup_insert_ne by done. by apply (fa_folded _ Ha).
    + rewrite !list_lookup_insert_eq
        by (rewrite ?(fa_types _ Ha), ?(fa_props _ Ha); done).
      destruct (fa_other _ Ha i Hnot) as (HM & _).
      split; [congruence|]. by rewrite Hbit.
  - intros j Hj. rewrite elem_of_app, list_elem_of_singleton in Hj.
    assert (i <> j) by (intros ->; tauto).
    rewrite !list_lookup_insert_ne by done.
    apply (fa_other _ Ha). tauto.
Qed.

Lemma findAllMatches_loop_arrays (fuel : nat) (fs fs' : FindState) :
  Folding nf p0 M0 fs -> FoldingArrays fs ->
  findAllMatches_loop fuel propertyId methods fs = Some fs' ->
  FoldingArrays fs'.
Proof using methods_nf.
  revert fs. induction fuel as [|fuel IH]; intros fs Hf Ha; simpl; [done|].
  destruct (scanMethods propertyId methods fs) as [fs1|] eqn:Hscan;
    simpl; [|done].
  assert (H1 : Folding nf p0 M0 fs1 /\ FoldingArrays fs1).
  { unfold scanMethods in Hscan. revert Hscan.
    apply (foldlM_preserved
             (fun a => Folding nf p0 M0 a /\ FoldingArrays a)).
    - intros a x a' [Hfa Haa] Hstep. split.
      + by eapply foldMethod_folding.
      + by eapply foldMethod_arrays.
    - split; [by destruct Hf | by destruct Ha]. }
  destruct H1 as [Hf1 Ha1].
  destruct (fs_foundNoMatches fs1); [by intros [= <-] | by apply IH].
Qed.

End FoldingArrays.

(** Whatever [addProperty] keeps, the sweeps keep. *)
Lemma sweep_preserved (Q : Builder -> Prop)
    (select : MethodAttributes -> bool) (st st' : Builder) :
  (forall st i meth st',
      Q st -> b_matched st !! i = Some false ->
      b_methods st !! i = Some meth ->
      addProperty st i = Some st' -> Q st') ->
  Q st -> sweep select st = Some st' -> Q st'.
Proof.
  intros Hadd. unfold sweep. apply foldlM_preserved.
  intros a i a' Ha. unfold sweepStep.
  destruct (b_matched a !! i) as [[]|] eqn:Hm;
    [by intros [= <-] | | by intros [= <-]].
  destruct (b_methods a !! i) as [meth|] eqn:Hmeth; [|by intros [= <-]].
  destruct (select meth); [|by intros [= <-]].
  by apply (Hadd a i meth).
Qed.

Lemma categorizeProperties_preserved (Q : Builder -> Prop)
    (methods : list MethodAttributes) (properties : ClassProperties)
    (st : Builder) :
  (forall st i meth st',
      Q st -> b_matched st !! i = Some false ->
      b_methods st !! i = Some meth ->
      addProperty st i = Some st' -> Q st') ->
  Q (mkBuilder methods (initialMatched methods)
       (CP.mk [] (CP.MethodTypes properties)
              (CP.MethodProperties properties)) []) ->
  categorizeProperties methods properties = Some st -> Q st.
Proof.
  intros Hadd H0. unfold categorizeProperties.
  destruct (sweep selectSet _) as [st1|] eqn:R1; simpl; [|done].
  destruct (sweep selectSetNumberOf st1) as [st2|] eqn:R2; simpl; [|done].
  destruct (sweep selectGet st2) as [st3|] eqn:R3; simpl; [|done].
  destruct (sweep selectGetNumberOf st3) as [st4|] eqn:R4; simpl; [|done].
  intros R5.
  apply (sweep_preserved Q _ _ _ Hadd) in R1; [|done].
  apply (sweep_preserved Q _ _ _ Hadd) in R2; [|done].
  apply (sweep_preserved Q _ _ _ Hadd) in R3; [|done].
  apply (sweep_preserved Q _ _ _ Hadd) in R4; [|done].
  by apply (sweep_preserved Q _ _ _ Hadd) in R5.
Qed.

Section Arrays.

Variable nf : list MethodAttributes.
Variable init : list bool.
Hypothesis init_length : length init = length nf.

(** The entries of the two per-method arrays: those of the members of a
    property hold the index of the property and the bit that the member
    gave to the property; the others hold -1 and 0. *)
Record BArrays (st : Builder) : Prop := mkBArrays {
  ba_types : length (CP.MethodTypes (b_properties st)) = length nf;
  ba_props : length (CP.MethodProperties (b_properties st)) = length nf;
  ba_count :
    length (b_members st) = length (CP.Properties (b_properties st));
  ba_members :
    forall k p seed folded,
      CP.Properties (b_properties st) !! k = Some p ->
      b_members st !! k = Some (seed :: folded) ->
      (CP.MethodProperties (b_properties st) !! seed = Some (Z.of_nat k) /\
       CP.MethodTypes (b_properties st) !! seed
       = Some (bitOf anyAccess seedBit nf seed)) /\
      forall j, j ∈ folded ->
        CP.MethodProperties (b_properties st) !! j = Some (Z.of_nat k) /\
        CP.MethodTypes (b_properties st) !! j
        = Some (bitOf anyAccess (foldedBit p) nf j);
  ba_others :
    forall j, (j < length nf)%nat -> j ∉ concat (b_members st) ->
      CP.MethodProperties (b_properties st) !! j = Some (-1) /\
      CP.MethodTypes (b_properties st) !! j = Some 0
}.

Lemma addProperty_arrays (st st' : Builder) (i : nat)
    (meth : MethodAttributes) :
  BInv2 nf init st /\ (quiet (b_methods st) -> BArrays st) ->
  b_matched st !! i = Some false ->
  b_methods st !! i = Some meth ->
  addProperty st i = Some st' ->
  BInv2 nf init st' /\ (quiet (b_methods st') -> BArrays st').
Proof using init_length.
  intros [Hinv Harr] Hi Hmeth Hadd.
  split; [apply (addProperty_inv2 nf init st st' i meth Hinv Hi Hmeth Hadd)|].
  revert Hadd. unfold addProperty. rewrite Hmeth.
  set (category := methodCategory meth false).
  set (id := Z.of_nat (CP.NumberOfProperties (b_properties st))).
  set (cp1 := CP.mk _ _ _).
  pose proof (search_quiet (Some cp1) (b_methods st) i) as Hsearch.
  destruct (searchForRepeatedMethods (Some cp1) (b_methods st) i)
    as [[methods' searched] r]. simpl in Hsearch.
  set (p0 := initializePropertyInfo meth category).
  set (M0 := <[i := true]> (b_matched st)).
  unfold findAllMatches.
  destruct (findAllMatches_loop _ _ _ _) as [fs|] eqn:Hrun; simpl; [|done].
  intros [= <-]. simpl. intros Hquiet.
  destruct (Hsearch Hquiet) as [-> ->].
  change (default cp1 (Some cp1)) with cp1 in *.
  specialize (Harr Hquiet).
  pose proof (b2_facts _ _ _ Hinv) as Hfacts.
  assert (Hlen : length (b_matched st) = length nf).
  { by rewrite (b2_length _ _ _ Hinv). }
  assert (Hlt : (i < length nf)%nat).
  { rewrite <- Hlen. by eapply lookup_lt_Some. }
  assert (H0 : Folding nf p0 M0
                 (mkFind p0 M0 (CP.MethodTypes cp1)
                         (CP.MethodProperties cp1) false [])).
  { constructor; simpl; try done; try (by rewrite Z.lor_0_r).
    - apply extends_refl.
    - intros j. rewrite elem_of_nil. tauto.
    - intros j Hj. by apply elem_of_nil in Hj. }
  assert (A0 : FoldingArrays nf p0 M0 (CP.MethodTypes cp1)
                 (CP.MethodProperties cp1) id
                 (mkFind p0 M0 (CP.MethodTypes cp1)
                         (CP.MethodProperties cp1) false [])).
  { constructor; simpl.
    - unfold M0. rewrite !length_insert. by rewrite (ba_types _ Harr).
    - unfold M0. rewrite !length_insert. by rewrite (ba_props _ Harr).
    - intros j Hj. by apply elem_of_nil in Hj.
    - done. }
  pose proof (findAllMatches_loop_folding nf (b_methods st) Hfacts p0 M0
                _ _ _ _ H0 Hrun) as Hf.
  pose proof (findAllMatches_loop_arrays nf (b_methods st) Hfacts p0 M0
                _ _ _ _ _ _ H0 A0 Hrun) as Ha.
  assert (Hnf : nf !! i = Some (MA.withRepeat meth)).
  { by rewrite <- Hfacts, lookup_map, Hmeth. }
  assert (Hseed : i ∉ fs_folded fs).
  { intros Hin. destruct (fa_folded _ _ _ _ _ _ _ Ha i Hin) as [HM _].
    unfold M0 in HM. rewrite list_lookup_insert_eq in HM; [done | lia]. }
  assert (Hold : forall j, j ∈ concat (b_members st) ->
            CP.MethodProperties (b_properties st) !! j
            = fs_properties fs !! j /\
            CP.MethodTypes (b_properties st) !! j = fs_categories fs !! j).
  { intros j Hj.
    assert (Hjm : b_matched st !! j = Some true)
      by (apply (b2_matched _ _ _ Hinv); by right).
    assert (Hne : i <> j) by (intros ->; congruence).
    assert (Hnot : j ∉ fs_folded fs).
    { intros Hin. destruct (fa_folded _ _ _ _ _ _ _ Ha j Hin) as [HM _].
      unfold M0 in HM. rewrite list_lookup_insert_ne in HM by done.
      congruence. }
    destruct (fa_other _ _ _ _ _ _ _ Ha j Hnot) as (_ & -> & ->).
    simpl. by rewrite !list_lookup_insert_ne. }
  assert (Hcount : id = Z.of_nat (length (b_members st))).
  { unfold id, CP.NumberOfProperties. by rewrite (ba_count _ Harr). }
  constructor; simpl.
  - rewrite (fa_types _ _ _ _ _ _ _ Ha). unfold M0.
    by rewrite length_insert.
  - rewrite (fa_props _ _ _ _ _ _ _ Ha). unfold M0.
    by rewrite length_insert.
  - rewrite !length_app. simpl. by rewrite (ba_count _ Harr).
  - intros k p seed folded Hp Hmem.
    apply lookup_app_Some in Hmem as [Hmem|[Hge Hmem]].
    + assert (Hk : (k < length (CP.Properties (b_properties st)))%nat).
      { rewrite <- (ba_count _ Harr). by eapply lookup_lt_Some. }
      rewrite lookup_app_l in Hp by done.
      destruct (ba_members _ Harr k p seed folded Hp Hmem) as [Hs Hfo].
      assert (Hin : forall j, j ∈ seed :: folded ->
                              j ∈ concat (b_members st)).
      { intros j Hj. apply elem_of_concat. exists (seed :: folded).
        split; [by eapply list_elem_of_lookup_2 | done]. }
      split.
      * destruct (Hold seed) as [<- <-]; [apply Hin; by left | done].
      * intros j Hj.
        destruct (Hold j) as [<- <-]; [apply Hin; by right | by apply Hfo].
    + destruct (k - length (b_members st))%nat as [|d] eqn:Hd;
        simpl in Hmem; [|done].
      injection Hmem as <- <-.
      assert (k = length (b_members st)) as -> by lia.
      rewrite lookup_app_r in Hp by (rewrite (ba_count _ Harr); lia).
      rewrite (ba_count _ Harr), Nat.sub_diag in Hp. simpl in Hp.
      injection Hp as <-. rewrite <- Hcount.
      split.
      * destruct (fa_other _ _ _ _ _ _ _ Ha i Hseed) as (_ & -> & ->).
        simpl. rewrite !list_lookup_insert_eq
          by (rewrite ?(ba_types _ Harr), ?(ba_props _ Harr); done).
        split; [done|]. unfold bitOf. by rewrite Hnf.
      * intros j Hj.
        destruct (fa_folded _ _ _ _ _ _ _ Ha j Hj) as (_ & -> & ->).
        split; [done|].
        assert (Hb : bitOf anyAccess (foldedBit p0) nf j
                     = bitOf anyAccess (foldedBit (fs_property fs)) nf j).
        { unfold bitOf. destruct (nf !! j) as [m|]; [|done].
          simpl. unfold foldedBit.
          by rewrite (longMatch_name p0 (fs_property fs) m
                        (ext_name _ _ (fold_extends _ _ _ _ Hf))). }
        by rewrite Hb.
  - intros j Hj Hnot. rewrite concat_app, elem_of_app in Hnot. simpl in Hnot.
    rewrite app_nil_r, elem_of_cons in Hnot.
    assert (Hne : i <> j) by (intros ->; tauto).
    assert (Hnf' : j ∉ fs_folded fs) by tauto.
    destruct (fa_other _ _ _ _ _ _ _ Ha j Hnf') as (_ & -> & ->).
    simpl. rewrite !list_lookup_insert_ne by done.
    apply (ba_others _ Harr); tauto.
Qed.

End Arrays.

(** The member at [j] of the property [p]: its bit. *)
Definition memberBit (facts : list MethodAttributes) (p : PropertyInfo)
    (members : list nat) (j : nat) : Z :=
  if decide (j = hd 0%nat members)
  then bitOf anyAccess seedBit facts j
  else bitOf anyAccess (foldedBit p) facts j.

(** X26. When no method of the class is marked [IsRepeat] at the end (in
    particular when no two methods have the same name, theorem X25), the
    two per-method arrays describe the members of the properties: for
    every member of the property of index [k], [MethodProperties] holds
    [k] and [MethodTypes] holds the bit that the member gave to the
    bitfields of the property; for every method that is a member of no
    property they hold -1 and 0. *)
Theorem arrays_without_repeats (data : ClassInfo) :
  exists st,
    synthesize data = Some st /\
    (Forall (fun m => MA.IsRepeat m = false) (b_methods st) ->
     (forall k property members j,
         CP.Properties (b_properties st) !! k = Some property ->
         b_members st !! k = Some members ->
         j ∈ members ->
         CP.MethodProperties (b_properties st) !! j = Some (Z.of_nat k) /\
         CP.MethodTypes (b_properties st) !! j
         = Some (memberBit (extracted data) property members j)) /\
     (forall j, (j < length data)%nat -> j ∉ concat (b_members st) ->
                CP.MethodProperties (b_properties st) !! j = Some (-1) /\
                CP.MethodTypes (b_properties st) !! j = Some 0)).
Proof.
  destruct (synthesize_inv data) as (st & Hrun & Hinv & Horder).
  exists st. split; [done|]. intros Hquiet.
  set (methods := categorizePropertyMethods data).
  set (nf := normalized methods).
  set (init := initialMatched methods).
  assert (Hlen : length init = length nf).
  { unfold init, nf, initialMatched, normalized. by rewrite !length_map. }
  assert (HQ : BInv2 nf init st /\ (quiet (b_methods st) -> BArrays nf st)).
  { unfold synthesize in Hrun. fold methods in Hrun. revert Hrun.
    apply (categorizeProperties_preserved
             (fun st => BInv2 nf init st /\
                        (quiet (b_methods st) -> BArrays nf st))).
    - intros st0 i meth st1. by apply addProperty_arrays.
    - split.
      + constructor; simpl; try done. intros j. rewrite elem_of_nil. tauto.
      + intros _. constructor; simpl.
        * unfold nf, normalized. by rewrite length_replicate, length_map.
        * unfold nf, normalized. by rewrite length_replicate, length_map.
        * done.
        * intros k p seed folded Hp. by rewrite lookup_nil in Hp.
        * intros j Hj _. unfold nf, normalized in Hj.
          rewrite length_map in Hj.
          split; by apply lookup_replicate_2. }
  destruct HQ as [Hinv2 Harr]. specialize (Harr Hquiet).
  assert (Hnf : nf = normalized (extracted data)).
  { unfold nf, methods. symmetry. apply normalized_categorized. }
  assert (Hbit : forall bit j,
             (forall m, bit (MA.withRepeat m) = bit m) ->
             bitOf anyAccess bit nf j
             = bitOf anyAccess bit (extracted data) j).
  { intros bit j Hb. rewrite Hnf. by apply bitOf_normalized. }
  split.
  - intros k p members j Hp Hmem Hj.
    pose proof (Forall2_lookup_lr _ _ _ _ _ _ (b2_made _ _ _ Hinv2) Hp Hmem)
      as (seed & folded & m & -> & _).
    destruct (ba_members _ _ Harr k p seed folded Hp Hmem) as [Hs Hfo].
    unfold memberBit. simpl.
    apply elem_of_cons in Hj as [->|Hj].
    + rewrite decide_True by done. rewrite <- Hbit by done. done.
    + assert (Hne : j <> seed).
      { intros ->.
        assert (Hnd : NoDup (seed :: folded)).
        { pose proof (binv_nodup _ _ Hinv) as Hnd.
          apply list_elem_of_lookup_2 in Hmem.
          apply list_elem_of_split in Hmem as (l1 & l2 & Heq).
          rewrite Heq, concat_app in Hnd. simpl in Hnd.
          apply NoDup_app in Hnd as (_ & _ & Hnd).
          change (NoDup ((seed :: folded) ++ concat l2)) in Hnd.
          by apply NoDup_app in Hnd as (Hnd & _ & _). }
        apply NoDup_cons in Hnd as [Hnd _]. done. }
      rewrite decide_False by done. rewrite <- Hbit by done.
      by apply Hfo.
  - intros j Hj Hnot. apply (ba_others _ _ Harr); [|done].
    rewrite Hnf. unfold normalized. by rewrite length_map, extracted_length.
Qed.

Lemma arrays_without_repeats_witness :
  exists st,
    synthesize (Scenario.radius None None) = Some st /\
    CP.MethodProperties (b_properties st) !! 1%nat = Some 0 /\
    CP.MethodTypes (b_properties st) !! 1%nat = Some VTK_METHOD_BASIC_GET.
Proof.
  destruct (arrays_without_repeats (Scenario.radius None None))
    as (st & Hrun & H).
  exists st. split; [exact Hrun|].
  vm_compute in Hrun. injection Hrun as <-.
  destruct H as [Hmembers _]; [by repeat constructor|].
  apply (Hmembers 0%nat _ _ 1%nat eq_refl eq_refl). in_list.
Defined.

(** ** The order of the properties

    The properties of a result, in terms of the methods of the class:
    the amended claim on permuted method lists. *)

(** The property was seeded by the method at [seed]: a method that the
    extractor accepts, whose name, type, count, class and comment the
    property has. *)
Definition seededBy (data : ClassInfo) (property : PropertyInfo)
    (seed : nat) : Prop :=
  exists func,
    data !! seed = Some func /\
    (getMethodAttributes func).1 = true /\
    PI.Name property = nameWithoutPrefix (FI.Name func) /\
    PI.Type_ property = initialPropertyType (getMethodAttributes func).2 /\
    PI.Count property = MA.Count (getMethodAttributes func).2 /\
    PI.ClassName property = MA.ClassName (getMethodAttributes func).2 /\
    PI.Comment property = FI.Comment func.

(** The properties are in the order of the five sweeps: the seeds of the
    [Set] sweep in order of declaration come first, then those of the
    [SetNumberOf], [Get], [GetNumberOf] and [Add] sweeps. *)
Definition inSweepOrder (data : ClassInfo) (cp : ClassProperties) : Prop :=
  exists s1 s2 s3 s4 s5,
    Forall2 (seededBy data) (CP.Properties cp)
            (s1 ++ s2 ++ s3 ++ s4 ++ s5)%list /\
    sweepSegment (extracted data) selectSet 0 s1 /\
    sweepSegment (extracted data) selectSetNumberOf 0 s2 /\
    sweepSegment (extracted data) selectGet 0 s3 /\
    sweepSegment (extracted data) selectGetNumberOf 0 s4 /\
    sweepSegment (extracted data) selectAdd 0 s5.

Lemma properties_seeded (data : ClassInfo) (st : Builder) :
  BInv (extracted data) st ->
  BInv2 (normalized (extracted data))
        (initialMatched (categorizePropertyMethods data)) st ->
  Forall2 (seededBy data) (CP.Properties (b_properties st)) (seeds st).
Proof.
  intros Hinv Hinv2. apply Forall2_same_length_lookup_2.
  { unfold seeds. rewrite length_map. symmetry.
    apply (binv_members _ _ Hinv). }
  intros k p seed Hp Hseed.
  unfold seeds in Hseed. rewrite lookup_map in Hseed.
  destruct (b_members st !! k) as [members|] eqn:Hmem; [|done].
  injection Hseed as <-.
  pose proof (Forall2_lookup_lr _ _ _ _ _ _ (b2_made _ _ _ Hinv2) Hp Hmem)
    as (seed & folded & m & -> & Hm & Hinit & Hext & _).
  apply lookup_normalized_extracted in Hm as (func & Hfunc & ->).
  destruct (getMethodAttributes_Name func) as [Hname Hcomment].
  destruct Hext as [En Et Ec Ecl Eco _ _ _ _]. simpl in *.
  exists func. split; [done|]. split.
  { rewrite <- getMethodAttributes_HasProperty.
    destruct (binv_taken _ _ Hinv seed) as [_ Hhas].
    - apply elem_of_concat. exists (seed :: folded).
      split; [by eapply list_elem_of_lookup_2 | by left].
    - unfold hasPropertyAt, extracted in Hhas.
      by rewrite lookup_map, Hfunc in Hhas. }
  split; [by rewrite En, Hname|].
  split; [done|]. split; [done|]. split; [done|]. congruence.
Qed.

Lemma synthesize_inSweepOrder (data : ClassInfo) :
  exists cp,
    vtkParseProperties_Create data = Some cp /\
    length (CP.MethodTypes cp) = length data /\
    length (CP.MethodProperties cp) = length data /\
    inSweepOrder data cp.
Proof.
  destruct (synthesize_members data)
    as (st & Hrun & Hinv & Horder & Hinv2 & _).
  exists (b_properties st). split.
  { unfold vtkParseProperties_Create. by rewrite Hrun. }
  pose proof (facts_length _ _ (binv_facts _ _ Hinv)) as Hl.
  rewrite extracted_length in Hl.
  split; [by rewrite (binv_types _ _ Hinv)|].
  split; [by rewrite (binv_props _ _ Hinv)|].
  destruct Horder as (s1 & s2 & s3 & s4 & s5 & Hs & H1 & H2 & H3 & H4 & H5).
  exists s1, s2, s3, s4, s5. rewrite <- Hs.
  split; [by apply properties_seeded | done].
Qed.

(** C9, amended.  For every class and every permutation of its method
    list, the extractor computes the same attributes for the methods,
    permuted in the same way, and the synthesizer returns a result for
    either ordering, with one category and one property index per
    method.  The properties of a result are in the sweep order of the
    ordering it was computed from: each has the name without its prefix,
    the normalized type, the count, the class name and the comment of
    its seed, a method that the extractor accepts, and the seeds are
    first those of the [Set] sweep in order of declaration, then those
    of the [SetNumberOf], [Get], [GetNumberOf] and [Add] sweeps. *)
Theorem permuted_class (data data' : ClassInfo) :
  Permutation data data' ->
  Permutation (extracted data) (extracted data') /\
  exists cp cp',
    vtkParseProperties_Create data = Some cp /\
    vtkParseProperties_Create data' = Some cp' /\
    length (CP.MethodTypes cp) = length data /\
    length (CP.MethodProperties cp) = length data /\
    length (CP.MethodTypes cp') = length data /\
    length (CP.MethodProperties cp') = length data /\
    inSweepOrder data cp /\ inSweepOrder data' cp'.
Proof.
  intros Hperm. split; [by apply Permutation_map|].
  destruct (synthesize_inSweepOrder data) as (cp & Hrun & Ht & Hp & Ho).
  destruct (synthesize_inSweepOrder data') as (cp' & Hrun' & Ht' & Hp' & Ho').
  rewrite <- (Permutation_length Hperm) in Ht', Hp'.
  exists cp, cp'. by repeat split.
Qed.

Lemma permuted_class_witness :
  exists cp cp',
    vtkParseProperties_Create Scenario.getThenMin = Some cp /\
    vtkParseProperties_Create Scenario.minThenGet = Some cp' /\
    inSweepOrder Scenario.getThenMin cp /\
    inSweepOrder Scenario.minThenGet cp'.
Proof.
  destruct (permuted_class Scenario.getThenMin Scenario.minThenGet)
    as (_ & cp & cp' & Hrun & Hrun' & _ & _ & _ & _ & Ho & Ho').
  { apply perm_swap. }
  exists cp, cp'. split; [exact Hrun|]. split; [exact Hrun'|].
  split; [exact Ho | exact Ho'].
Defined.
